(* ===== verification/_CoqProject ===== *)
-Q . S2P
Prelude.v
Raster.v
Rle.v
RleString.v
FileSystem.v
MaskToLabel.v
PyFloat.v
VocXml.v
Overlay.v
Segmenter.v
SamPipeline.v
MaskPipeline.v
