(* ===== verification/Prelude.v ===== *)
(** * A verification library for the SAM bounding-box scripts

    The repository holds two one-shot batch scripts that share nothing
    but the shape of their data (2-D arrays, files in folders):

    - [src/mask_to_polygon_transformation_script/toPoligon.py]:
      [process_all_masks] walks the [train]/[test]/[valid] splits and,
      for every [*_mask.png], calls [convert_mask_to_polygons], which
      writes one label line per class present (pycocotools'
      [mask.encode] then [mask.toBbox]), and copies the matching [.jpg].
    - [src/sam_segmentation_with_bounding_boxes.py]: [process_folder]
      lists [JPEGImages], and for each image with an annotation calls
      [read_labels_from_xml] (ElementTree and [float()]) and
      [segment_with_boxes], which loads the image ([load_image]), asks
      the SAM predictor for one mask per valid box, blends a random
      colour into the masked pixels and writes the overlay.  The main
      block wraps [process_folder] in a catch-all; the model is loaded
      at module level.

    The only state is the world: the files (decoded contents), the
    directories, the console, numpy's global generator and the
    predictor's current image ([FileSystem.world]); every function is a
    computation of the state-and-exception monad [io] over it.

    ** Files (in dependency order) and what they model

    - [Prelude] (this file): Python exceptions ([exn]), the [res] error
      monad and its notation in [py_scope], the string methods the
      scripts call ([str.endswith], [str.replace], [os.path.splitext],
      [str(int)]), the hint database [pyimg], the tactic [res_simpl]
      and the generic lemmas on lists and division.
    - [Raster]: numpy 2-D arrays as lists of rows ([grid]) with their
      shape invariant [grid_wf], [mask == v], element-wise combination,
      [.sum()] at its accumulator width, the Fortran-order buffer of
      [np.asfortranarray], and OpenCV's BGR/RGB swap.
    - [Rle], [RleString]: pycocotools' [rleEncode], [rleDecode],
      [rleToBbox], [rleToString], [rleFrString] (maskApi.c), modelled
      from the library's C code because the scripts only call it
      (spec_modelled in the manifest).  Proved: decode/encode and
      string round trips, the bounding box of the encoding is the
      smallest rectangle holding the mask's pixels, and it equals a
      pixel-by-pixel scan.
    - [FileSystem]: the [world], the [io] monad ([io_bind], [io_try],
      [io_iter]), [print], [os.makedirs], [os.listdir], [open],
      [Image.open]/[save], [cv2.imread]/[imwrite] ([imwrite] raises
      [cv2.error] when the extension after the last dot names no
      encoder of OpenCV's list, [cv2_has_writer]); frame lemmas
      ([frames], hint database [frames]: which files a computation may
      change), [keeps_dirs], [out_grows] (the console only grows),
      [io_iter_establish] and [io_iter_all], the loop lemmas the folder
      walkers use, and [for x in xs: body(x)] as a step relation
      ([loop_step]) with [eventually], for liveness:
      [loop_eventually_all] shows a loop whose body always returns and
      establishes a fact about its item reaches its end with the fact
      for every item.
    - [MaskToLabel]: [convert_mask_to_polygons] (toPoligon.py 45-67) and
      the Python side of pycocotools; main theorem
      [convert_writes_labels]; on a three-channel mask the label file
      is truncated and [TypeError] raised at the first class present;
      an unreadable mask raises before the label file is opened.
    - [PyFloat]: CPython's [float(str)] (rounded with Stdlib's SpecFloat
      at binary64) and numpy's float comparisons; [float()] of the
      digits of an integer is that integer, and numpy's [<] on floats
      made from integers below [2^53] is the integers' [<]
      ([f64_lt_of_Z]).
    - [VocXml]: [read_labels_from_xml] (lines 25-42): never raises,
      returns the boxes before the first failing object, reads back
      integer Pascal-VOC annotations exactly.
    - [Overlay]: the float64 blend of line 76 stored back to [uint8]
      ([blend_channel], proved equal to the integer mean on all 65536
      pairs by evaluation) and the boolean-mask assignment
      [apply_mask].
    - [Segmenter]: [load_image] and [segment_with_boxes] (lines 16-22,
      45-84) against two interfaces: the class [SamModel] (the network,
      with SAM's contract [SamModelLaws]) and [NpRandom] (numpy's
      generator, with [randint]'s range [NpRandomLaws]).  Proved: the
      skip of invalid boxes and empty masks, the blend of masked
      pixels, the [uint8]-image invariant of the loop, that the output
      is the input when no box yields a mask, the check of line 57 on
      integer and on NaN coordinates, and exactly when the function
      raises (no image, or no encoder for the output's extension).
    - [SamPipeline]: [process_folder] and the main block (lines 9-13,
      87-117): every image with an annotation gets an output; the loop
      eventually reports every image of the listing (liveness, on the
      machine of [FileSystem]); the main block then says "All files
      processed successfully!" whatever became of the images; the
      script writes only into the output folder and raises exactly
      when the checkpoint is missing or the model rejects it
      ([SamModel.sam_load]).
    - [MaskPipeline]: [process_all_masks] and the module-level call of
      toPoligon.py (lines 7-42, 71-74): one mask file gets its label
      file and image copy; a whole run over the three splits (Section
      [WholeRun], with the run invariant [run_inv] and the checkable
      input condition [masks_run_ok]) returns normally, labels every
      one-channel mask and copies its image; a missing split folder
      raises after that split's output folders are made and stops the
      run; the run writes only under
      [<output_root>/<split>/labels|images]; two masks whose names give
      the same label file leave it with the second mask's labels only.

    ** Bounds and fuel

    The counts of an RLE are below [2^29] in the theorems that read
    them back ([rleFrString] shifts a C [int] 5 bits per character; a
    mask below [2^29] pixels keeps every count in range).  [.sum()] is
    taken modulo [2^sum_bits] (a section variable: 32 or 64).
    [str.replace] runs on the length of the string as fuel, enough
    because each step consumes a character.  The blend is checked
    exhaustively on [0..255] x [0..255].  Box coordinates are exact
    float64 values when they are integers below [2^53] in absolute
    value (53 bits of significand), the range in which line 57 is
    characterised.

    ** Not modelled

    The SAM network itself (an interface: a loader that accepts or
    rejects the checkpoint's bytes, and any function from image and
    box to masks, with SAM's shape contract), the JPEG/PNG codecs (a
    file stores the decoded pixel array; JPEG loss is not modelled),
    XML text parsing (a file stores the element tree ElementTree
    builds, or [None] when not well-formed), the text of console
    messages beyond their source line and subject, numpy's Mersenne
    Twister (an abstract state and draw function), and Windows path
    syntax (a path is a list of components). *)

From stdpp Require Export base list gmap strings.
From Stdlib Require Export ZArith Lia.
From Stdlib Require Import Ascii DecimalString.

Declare Scope py_scope.
Delimit Scope py_scope with py.
Open Scope py_scope.

(** ** Python exceptions

    The constructors the modelled code raises; the string is the part of
    the message that identifies the failing object. *)
Inductive exn : Type :=
| FileNotFoundError (what : string)
| TypeError (what : string)
| AttributeError (what : string)
| ValueError (what : string)
| IndexError (what : string)
| XmlParseError (what : string)
| UnidentifiedImageError (what : string)
| FileExistsError (what : string)
| RuntimeError (what : string)
| Cv2Error (what : string).

(** A computation that returns a value or raises. *)
Inductive res (A : Type) : Type :=
| Ok (a : A)
| Raise (e : exn).
Arguments Ok {A} a.
Arguments Raise {A} e.

Definition res_bind {A B} (m : res A) (k : A -> res B) : res B :=
  match m with
  | Ok a => k a
  | Raise e => Raise e
  end.

Definition res_map {A B} (f : A -> B) (m : res A) : res B :=
  res_bind m (fun a => Ok (f a)).

Definition is_ok {A} (m : res A) : bool :=
  match m with Ok _ => true | Raise _ => false end.

Notation "x <- m ;; k" := (res_bind m (fun x => k))
  (at level 100, m at next level, right associativity) : py_scope.

(** [try: m except: h]: the handler sees the exception. *)
Definition res_catch {A} (m : res A) (h : exn -> A) : A :=
  match m with
  | Ok a => a
  | Raise e => h e
  end.

(** ** Python string methods on [string] *)

Local Open Scope string_scope.

(** [str(n)] of a non-negative Python [int]. *)
Definition str_N (n : N) : string := NilEmpty.string_of_uint (N.to_uint n).

(** [s.endswith(suf)]. *)
Definition py_endswith (s suf : string) : bool :=
  (String.length suf <=? String.length s)%nat &&
  String.eqb (String.substring (String.length s - String.length suf) (String.length suf) s) suf.

(** [s.rfind(c)] for one character: the last index of [c], if any. *)
Fixpoint rfind_go (c : Ascii.ascii) (i : nat) (s : string) (acc : option nat) : option nat :=
  match s with
  | EmptyString => acc
  | String a s' => rfind_go c (S i) s' (if Ascii.eqb a c then Some i else acc)
  end.

Definition py_rfind (s : string) (c : Ascii.ascii) : option nat := rfind_go c 0 s None.

(** [s.replace(old, new)]: every occurrence, left to right, without
    overlap.  [fuel] bounds the characters still to scan. *)
Fixpoint replace_go (fuel : nat) (old new s : string) : string :=
  match fuel with
  | O => s
  | S fuel' =>
      match s with
      | EmptyString => EmptyString
      | String a s' =>
          if String.prefix old s then
            String.append new (replace_go fuel' old new (String.substring (String.length old) (String.length s) s))
          else String a (replace_go fuel' old new s')
      end
  end.

(** Defined for a non-empty [old], as in both scripts ([old] is the
    literal ['_mask.png']); Python inserts [new] between characters for
    an empty [old]. *)
Definition py_replace (s old new : string) : string :=
  if String.eqb old "" then s else replace_go (String.length s) old new s.

(** [os.path.splitext(name)[0]] of a name without separators: the name
    without its last extension, unless every character before the last
    dot is a dot (['.jpg'] has no extension). *)
Definition py_splitext_root (s : string) : string :=
  match py_rfind s "."%char with
  | Some i =>
      if existsb (fun a => negb (Ascii.eqb a "."%char)) (String.list_ascii_of_string (String.substring 0 i s))
      then String.substring 0 i s else s
  | None => s
  end.

Close Scope string_scope.

Create HintDb pyimg.
Create Rewrite HintDb pyimg.

Lemma res_bind_Ok {A B} (a : A) (k : A -> res B) : res_bind (Ok a) k = k a.
Proof. reflexivity. Qed.

Lemma res_bind_Raise {A B} (e : exn) (k : A -> res B) :
  res_bind (Raise e) k = Raise e.
Proof. reflexivity. Qed.

Lemma res_bind_Ok_inv {A B} (m : res A) (k : A -> res B) (b : B) :
  res_bind m k = Ok b -> exists a, m = Ok a /\ k a = Ok b.
Proof. destruct m; simpl; [eauto | discriminate]. Qed.

#[export] Hint Rewrite @res_bind_Ok @res_bind_Raise : pyimg.

(** Case analysis on the binds of a hypothesis [_ = Ok _]. *)
Ltac res_simpl :=
  repeat match goal with
  | H : res_bind ?m _ = Ok _ |- _ =>
      let a := fresh "a" in let Ha := fresh "Ha" in
      apply res_bind_Ok_inv in H as (a & Ha & H)
  | H : Ok _ = Ok _ |- _ => injection H as H
  | H : Raise _ = Ok _ |- _ => discriminate H
  end; subst.

(** ** Shared list lemmas *)

Section ListFacts.
Context {A : Type}.

(** [count] of a predicate, as numpy's [.sum()] of a boolean array. *)
Definition count_true (l : list bool) : nat := length (filter (fun b => b = true) l).

Lemma count_true_app (l1 l2 : list bool) :
  count_true (l1 ++ l2) = count_true l1 + count_true l2.
Proof. unfold count_true. by rewrite filter_app, length_app. Qed.

Lemma count_true_zero (l : list bool) :
  count_true l = 0 <-> Forall (fun b => b = false) l.
Proof.
  unfold count_true. induction l as [|b l IH]; simpl; [split; auto|].
  rewrite filter_cons. case_decide as Hb; simpl.
  - subst. split; [lia|]. intros H; inversion H; discriminate.
  - rewrite IH. destruct b; [done|]. split; [auto|]. intros H; by inversion H.
Qed.

End ListFacts.

#[export] Hint Rewrite count_true_app : pyimg.

(** ** Division by a positive column height

    Pixel index [i] of a column-major array of height [h] is at column
    [i / h], row [i mod h]; moving to [S i] either stays in the column
    or starts the next one at row 0. *)
Lemma succ_divmod (h i : nat) :
  h <> 0 ->
  (S i / h = i / h /\ S i mod h = S (i mod h) /\ S (i mod h) < h) \/
  (S i / h = S (i / h) /\ S i mod h = 0 /\ i mod h = h - 1).
Proof.
  intros Hh.
  pose proof (Nat.div_mod_eq i h) as Hi.
  pose proof (Nat.mod_upper_bound i h Hh) as Hr.
  destruct (decide (S (i mod h) < h)) as [Hlt|Hge].
  - left. split; [|split]; [|symmetry|exact Hlt].
    + symmetry. apply (Nat.div_unique _ _ _ (S (i mod h))); lia.
    + apply (Nat.mod_unique _ _ (i / h)); lia.
  - right. split; [|split]; [|symmetry|lia].
    + symmetry. apply (Nat.div_unique _ _ _ 0); lia.
    + apply (Nat.mod_unique _ _ (S (i / h))); lia.
Qed.

(** Pixel [(x, y)] of a column-major array of height [h] is at index
    [x * h + y]. *)
Lemma divmod_colmajor (h x y : nat) :
  y < h -> (x * h + y) / h = x /\ (x * h + y) mod h = y.
Proof.
  intros Hy. split.
  - symmetry. apply (Nat.div_unique _ _ _ y); lia.
  - symmetry. apply (Nat.mod_unique _ _ x); lia.
Qed.

Lemma mod2_S_even j : j mod 2 = 0 -> S j mod 2 = 1.
Proof.
  intros Hj. pose proof (Nat.div_mod_eq j 2). pose proof (Nat.div_mod_eq (S j) 2).
  pose proof (Nat.mod_upper_bound (S j) 2). lia.
Qed.

Lemma mod2_SS j : S (S j) mod 2 = j mod 2.
Proof. replace (S (S j)) with (j + 1 * 2) by lia. apply Nat.Div0.mod_add. Qed.

Lemma div2_mul2_SS l : S (S l) / 2 * 2 = S (S (l / 2 * 2)).
Proof. replace (S (S l)) with (l + 1 * 2) by lia. rewrite Nat.div_add by lia. lia. Qed.


(** [String.append] is [simpl never] under stdpp: its cons equation. *)
Lemma str_app_cons (a : Ascii.ascii) (s t : string) : String a s +:+ t = String a (s +:+ t).
Proof. reflexivity. Qed.

Lemma str_app_nil_r (s : string) : s +:+ EmptyString = s.
Proof. induction s as [|a s IH]; [done|]. by rewrite str_app_cons, IH. Qed.

Lemma str_app_assoc (a b c : string) : (a +:+ b) +:+ c = a +:+ (b +:+ c).
Proof. induction a as [|x a IH]; [done|]. by rewrite !str_app_cons, IH. Qed.

Lemma count_true_In (l : list bool) : count_true l <> 0 <-> In true l.
Proof.
  unfold count_true. induction l as [|b l IH]; simpl; [split; [lia|done]|].
  rewrite filter_cons. destruct b; simpl.
  - split; [auto|lia].
  - rewrite IH. split; [auto|]. intros [?|?]; [discriminate|done].
Qed.

Lemma count_true_le (l : list bool) : count_true l <= length l.
Proof. unfold count_true. apply length_filter. Qed.

Lemma elem_le_list_sum (l : list nat) c : In c l -> c <= list_sum l.
Proof. induction l as [|x l IH]; simpl; [done|]. intros [->|H]; [lia|]. specialize (IH H). lia. Qed.

(** ** The fuel of [str.replace] *)

Lemma substring_full (s : string) : String.substring 0 (String.length s) s = s.
Proof. induction s as [|c s IH]; cbn; [done|by rewrite IH]. Qed.

Lemma substring_split (s : string) n :
  (n <= String.length s)%nat -> s = String.substring 0 n s +:+ String.substring n (String.length s - n) s.
Proof.
  revert n. induction s as [|c s IH]; intros [|n] Hn; cbn in *; try lia; try done.
  - by rewrite substring_full.
  - rewrite str_app_cons. f_equal. apply IH. lia.
Qed.

(** A string that ends with [suf] is some string followed by [suf]. *)
Lemma py_endswith_split s suf : py_endswith s suf = true -> exists a, s = a +:+ suf.
Proof.
  unfold py_endswith. intros (Hl%Nat.leb_le & Heq%String.eqb_eq)%andb_prop.
  exists (String.substring 0 (String.length s - String.length suf) s).
  rewrite (substring_split s (String.length s - String.length suf)) at 1 by lia.
  f_equal. by replace (String.length s - (String.length s - String.length suf))%nat with (String.length suf) by lia.
Qed.

Lemma NoDup_map_inj {A B} (f : A -> B) (l : list A) x y :
  NoDup (map f l) -> In x l -> In y l -> f x = f y -> x = y.
Proof.
  induction l as [|z l IH]; [done|]. cbn. intros [Hz Hnd]%NoDup_cons [<-|Hx] [<-|Hy] E; try done.
  - destruct Hz. rewrite E. apply list_elem_of_In, in_map, Hy.
  - destruct Hz. rewrite <- E. apply list_elem_of_In, in_map, Hx.
  - by apply IH.
Qed.

