(* ===== verification/Raster.v ===== *)
(** * Raster: numpy 2-D arrays

    A numpy array of shape [(h, w)] is a list of [h] rows of [w]
    elements ([grid]); a colour image of shape [(h, w, 3)] is a grid of
    pixels.  This file holds the array operations the two scripts use:
    [.shape], element-wise [==] against a scalar, [.astype(np.uint8)]
    and [.sum()] (with the accumulator's machine width), and the
    column-major flattening that [np.asfortranarray] hands to
    pycocotools. *)

From S2P Require Import Prelude.

Definition grid (A : Type) : Type := list (list A).

Section Grid.
Context {A : Type}.
Implicit Types (g : grid A).

(** [array.shape[0]] and [array.shape[1]]. *)
Definition grid_h g : nat := length g.
Definition grid_w g : nat := match g with [] => 0 | r :: _ => length r end.

(** A rectangular array of shape [(h, w)]: what numpy guarantees of
  every array the scripts build. *)
Definition grid_wf (h w : nat) g : Prop :=
  length g = h /\ Forall (fun r => length r = w) g.

#[global] Instance grid_wf_dec h w g : Decision (grid_wf h w g).
Proof. unfold grid_wf. apply _. Defined.

(** [g[y, x]], with a default outside the shape. *)
Definition grid_at (d : A) g (y x : nat) : A := nth x (nth y g []) d.

(** Column [x] from top to bottom: [g[:, x]]. *)
Definition column (d : A) (x : nat) g : list A := map (fun row => nth x row d) g.

(** The buffer of [np.asfortranarray(g)]: column after column. *)
Definition fortran_flat (d : A) (w : nat) g : list A :=
  concat (map (fun x => column d x g) (seq 0 w)).

Lemma grid_wf_shape h w g : grid_wf h w g -> h <> 0 -> grid_h g = h /\ grid_w g = w.
Proof.
  intros [Hl HF] Hh. unfold grid_h, grid_w. split; [done|].
  destruct g as [|r g]; simpl in *; [lia|]. by inversion HF.
Qed.

Lemma length_column d x g : length (column d x g) = length g.
Proof. apply length_map. Qed.

Lemma length_columns d h g n :
  length g = h ->
  list_sum (map length (map (fun x => column d x g) (seq 0 n))) = n * h.
Proof.
  intros Hl. induction n as [|n IH]; [done|].
  rewrite seq_S, !map_app, list_sum_app, IH. simpl.
  rewrite length_column. lia.
Qed.

Lemma length_fortran_flat d h w g :
  length g = h -> length (fortran_flat d w g) = w * h.
Proof.
  intros Hl. unfold fortran_flat. rewrite length_concat. by apply length_columns.
Qed.

(** Index [x * h + y] of the Fortran buffer is pixel [(y, x)]. *)
Lemma fortran_flat_nth d h w g x y :
  length g = h -> x < w -> y < h ->
  nth (x * h + y) (fortran_flat d w g) d = grid_at d g y x.
Proof.
  intros Hl Hx Hy. unfold fortran_flat.
  replace w with (x + S (w - S x)) by lia.
  rewrite seq_app, map_app, concat_app. simpl.
  pose proof (length_columns d h g x Hl) as Hc. rewrite <- length_concat in Hc.
  rewrite app_nth2 by lia. replace (x * h + y - length _) with y by lia.
  rewrite app_nth1 by (rewrite length_column; lia).
  unfold column, grid_at.
  rewrite (nth_indep _ _ (nth x [] d)) by (rewrite length_map; lia).
  exact (map_nth (fun row => nth x row d) g [] y).
Qed.
End Grid.

(** [np.array(...) == v]: element-wise comparison with a scalar. *)
Definition grid_map {A B} (f : A -> B) (g : grid A) : grid B := map (map f) g.

Definition eq_scalar (g : grid Z) (v : Z) : grid bool := grid_map (fun p => Z.eqb p v) g.

(** Element-wise combination of two arrays of the same shape. *)
Definition grid_zip {A B C} (f : A -> B -> C) (g1 : grid A) (g2 : grid B) : grid C :=
  zip_with (zip_with f) g1 g2.

(** [.sum()] of a boolean (or 0/1 [uint8]) array, accumulated in an
    unsigned integer of [bits] bits: numpy reduces [uint8] and [bool]
    arrays in the platform's default integer ([np.uint] / [np.int_],
    32 bits on Windows with numpy 1.x, 64 bits elsewhere). *)
Definition np_sum (bits : Z) (m : grid bool) : Z :=
  (Z.of_nat (count_true (concat m)) mod 2 ^ bits)%Z.

Lemma length_grid_map {A B} (f : A -> B) (g : grid A) : length (grid_map f g) = length g.
Proof. apply length_map. Qed.

Lemma grid_wf_map {A B} (f : A -> B) h w (g : grid A) :
  grid_wf h w g -> grid_wf h w (grid_map f g).
Proof.
  intros [Hl HF]. split; [by rewrite length_grid_map|].
  unfold grid_map. rewrite Forall_map. eapply Forall_impl; [exact HF|].
  intros r Hr. by rewrite length_map.
Qed.

#[export] Hint Resolve grid_wf_map : pyimg.

(** A pixel of a colour array [(h, w, 3)]: its three [uint8] channels in
    array order (B, G, R for OpenCV, R, G, B for PIL). *)
Record px3 : Type := mkPx { ch0 : Z; ch1 : Z; ch2 : Z }.

#[global] Instance px3_eq_dec : EqDecision px3.
Proof. intros [a b c] [a' b' c']. unfold Decision. decide equality; apply Z.eq_dec. Defined.

(** [cv2.cvtColor(image, cv2.COLOR_BGR2RGB)] and [COLOR_RGB2BGR]: both
    swap channels 0 and 2. *)
Definition swap_rb (p : px3) : px3 := mkPx (ch2 p) (ch1 p) (ch0 p).

Definition cvt_swap (g : grid px3) : grid px3 := grid_map swap_rb g.

Lemma cvt_swap_involutive g : cvt_swap (cvt_swap g) = g.
Proof.
  unfold cvt_swap, grid_map. rewrite map_map.
  induction g as [|r g IH]; [done|]. simpl. rewrite IH, map_map. f_equal.
  induction r as [|[] r IHr]; [done|]. simpl. by rewrite IHr.
Qed.

(** A [uint8] value. *)
Definition is_u8 (v : Z) : Prop := (0 <= v < 256)%Z.
Definition px_u8 (p : px3) : Prop := is_u8 (ch0 p) /\ is_u8 (ch1 p) /\ is_u8 (ch2 p).

Lemma nth_zip_with {A B C} (f : A -> B -> C) l k i da db dc :
  i < length l -> i < length k -> nth i (zip_with f l k) dc = f (nth i l da) (nth i k db).
Proof.
  revert k i. induction l as [|a l IH]; intros [|b k] [|i] Hl Hk; simpl in *; try lia; auto.
  apply IH; lia.
Qed.

Lemma grid_wf_zip {A B C} (f : A -> B -> C) h w g1 g2 :
  grid_wf h w g1 -> grid_wf h w g2 -> grid_wf h w (grid_zip f g1 g2).
Proof.
  intros [Hl1 HF1] [Hl2 HF2]. split.
  - unfold grid_zip. rewrite length_zip_with. lia.
  - unfold grid_zip. revert g2 Hl2 HF2. subst h.
    induction HF1 as [|r1 g1 Hr1 HF1 IH]; intros [|r2 g2] Hl2 HF2; simpl in *; try constructor.
    + inversion HF2; subst. rewrite length_zip_with. lia.
    + inversion HF2; subst. apply IH; auto.
Qed.

Lemma grid_at_zip {A B C} (f : A -> B -> C) h w g1 g2 da db dc y x :
  grid_wf h w g1 -> grid_wf h w g2 -> y < h -> x < w ->
  grid_at dc (grid_zip f g1 g2) y x = f (grid_at da g1 y x) (grid_at db g2 y x).
Proof.
  intros [Hl1 HF1] [Hl2 HF2] Hy Hx. unfold grid_at, grid_zip.
  rewrite (nth_zip_with _ _ _ _ [] []) by lia.
  assert (Hr1 : length (nth y g1 []) = w) by (apply (Forall_nth (fun r => length r = w)); [exact HF1|lia]).
  assert (Hr2 : length (nth y g2 []) = w) by (apply (Forall_nth (fun r => length r = w)); [exact HF2|lia]).
  apply nth_zip_with; lia.
Qed.

(** An array of the shape of a [(h, w)] array has shape [(h, w)]. *)
Lemma grid_wf_same_shape {A B} h w (g : grid A) (m : grid B) :
  grid_wf h w g -> grid_wf (grid_h g) (grid_w g) m -> grid_wf h w m.
Proof.
  intros Hg Hm. destruct (decide (h = 0)) as [->|Hh].
  - destruct Hg as [Hl _]. destruct g; [|discriminate]. destruct Hm as [Hl' _].
    destruct m; [|discriminate]. split; [done|constructor].
  - destruct (grid_wf_shape h w g Hg Hh) as [E1 E2]. by rewrite E1, E2 in Hm.
Qed.

Lemma grid_zip_Forall {A B C} (P : A -> Prop) (Q : C -> Prop) (f : A -> B -> C) g1 g2 :
  (forall a b, P a -> Q (f a b)) -> Forall (Forall P) g1 -> Forall (Forall Q) (grid_zip f g1 g2).
Proof.
  intros Hf HF. unfold grid_zip. revert g2.
  induction HF as [|r1 g1 Hr1 HF IH]; intros [|r2 g2]; simpl; constructor; [|apply IH].
  clear IH. revert r2. induction Hr1 as [|a r1 Ha Hr1 IHr]; intros [|b r2]; simpl; constructor; auto.
Qed.

Lemma grid_at_Forall {A} (P : A -> Prop) h w g d y x :
  grid_wf h w g -> Forall (Forall P) g -> y < h -> x < w -> P (grid_at d g y x).
Proof.
  intros [Hl HF] HP Hy Hx. unfold grid_at.
  assert (Hr : length (nth y g []) = w) by (apply (Forall_nth (fun r => length r = w)); [exact HF|lia]).
  apply (Forall_nth P); [|lia]. apply (Forall_nth (Forall P)); [exact HP|lia].
Qed.

