(* ===== verification/Rle.v ===== *)
(** * Rle: pycocotools' run-length encoding and bounding box

    [toPoligon.py] calls [mask_utils.encode] and [mask_utils.toBbox];
    both are thin Python wrappers over [rleEncode] and [rleToBbox] of
    pycocotools' [maskApi.c], which this file models line by line:

    - [RLE] is the C struct ([h], [w], [cnts]; [m] is the list length);
    - [rleEncode] scans the column-major buffer and emits alternating run
      lengths, starting with a run of zeros ([encode_runs]);
    - [rleDecode] writes the runs back ([decode_runs]);
    - [rleToBbox] walks the counts two by two, taking the first and the
      last pixel of every run of ones ([bbox_loop]).

    The theorems: decoding inverts encoding; the counts of an encoding
    sum to the number of pixels and all but the first are positive;
    [rleToBbox] of an encoding equals a pixel-by-pixel scan
    ([bbox_scan], the reference definition), which is the smallest
    rectangle holding every pixel of the mask. *)

From S2P Require Import Prelude Raster.

(** [typedef struct { siz h, w, m; uint *cnts; } RLE;] *)
Record RLE : Type := mkRLE { rle_h : nat; rle_w : nat; rle_cnts : list nat }.

(** The loop of [rleEncode] from the state [p] (current value) and [c]
    (length of the current run):
    [for(j=0; j<a; j++) { if(T[j]!=p) { cnts[k++]=c; c=0; p=T[j]; } c++; }
     cnts[k++]=c;] *)
Fixpoint encode_runs (p : bool) (c : nat) (T : list bool) : list nat :=
  match T with
  | [] => [c]
  | t :: T' => if eqb t p then encode_runs p (S c) T' else c :: encode_runs t 1 T'
  end.

(** [rleEncode(R, M, h, w, 1)]: [k=0; p=0; c=0], then the loop. *)
Definition rleEncode (h w : nat) (T : list bool) : RLE :=
  mkRLE h w (encode_runs false 0 T).

(** [mask_utils.encode(np.asfortranarray(binary_mask))] on a 2-D array:
    the wrapper reshapes to [(h, w, 1)] in Fortran order and returns the
    first (only) RLE. *)
Definition mask_encode (m : grid bool) : RLE :=
  rleEncode (grid_h m) (grid_w m) (fortran_flat false (grid_w m) m).

(** [rleDecode]: [v=0; for j: { for(k<cnts[j]) *(M++)=v; v=!v; }] *)
Fixpoint decode_runs (v : bool) (cnts : list nat) : list bool :=
  match cnts with
  | [] => []
  | c :: cnts' => repeat v c ++ decode_runs (negb v) cnts'
  end.

Definition rleDecode (R : RLE) : list bool := decode_runs false (rle_cnts R).

(** ** [rleToBbox]

    The locals of the loop: [cc] (pixels consumed), [xp] (column of the
    first pixel of the current run of ones) and the running extremes
    [xs], [ys], [xe], [ye]. *)
Record bbox_state : Type := mkBS {
  bs_cc : nat; bs_xp : nat; bs_xs : nat; bs_ys : nat; bs_xe : nat; bs_ye : nat }.

(** One iteration [j] of
    [cc+=cnts[j]; t=cc-j%2; y=t%h; x=(t-y)/h;
     if(j%2==0) xp=x; else if(xp<x) { ys=0; ye=h-1; }
     xs=umin(xs,x); xe=umax(xe,x); ys=umin(ys,y); ye=umax(ye,y);] *)
Definition bbox_iter (h j c : nat) (s : bbox_state) : bbox_state :=
  let cc := bs_cc s + c in
  let t := cc - j mod 2 in
  let y := t mod h in
  let x := (t - y) / h in
  let '(xp, ys, ye) :=
    if j mod 2 =? 0 then (x, bs_ys s, bs_ye s)
    else if bs_xp s <? x then (bs_xp s, 0, h - 1)
    else (bs_xp s, bs_ys s, bs_ye s) in
  mkBS cc xp (Nat.min (bs_xs s) x) (Nat.min ys y) (Nat.max (bs_xe s) x) (Nat.max ye y).

(** [for( j=0; j<m; j++ )] over the counts. *)
Fixpoint bbox_loop (h j : nat) (cnts : list nat) (s : bbox_state) : bbox_state :=
  match cnts with
  | [] => s
  | c :: cnts' => bbox_loop h (S j) cnts' (bbox_iter h j c s)
  end.

(** [m=((siz)(m/2))*2; xs=w; ys=h; xe=ye=0; cc=0;]
    [if(m==0) { bb = 0,0,0,0 }], else the loop and
    [bb = xs, ys, xe-xs+1, ye-ys+1].  The four numbers are the
    float64 array that [mask_utils.toBbox] returns ([x, y, width,
    height]). *)
Definition rleToBbox (R : RLE) : list nat :=
  let h := rle_h R in
  let w := rle_w R in
  let m := (length (rle_cnts R) / 2) * 2 in
  if m =? 0 then [0; 0; 0; 0]
  else
    let s := bbox_loop h 0 (firstn m (rle_cnts R)) (mkBS 0 0 w h 0 0) in
    [bs_xs s; bs_ys s; bs_xe s - bs_xs s + 1; bs_ye s - bs_ys s + 1].

(** ** Reference definition: a pixel-by-pixel scan

    The extremes of the columns ([i / h]) and rows ([i mod h]) of the
    set pixels of a column-major buffer, starting from the same initial
    values as [rleToBbox]. *)
Record extremes : Type := mkEx { ex_xs : nat; ex_ys : nat; ex_xe : nat; ex_ye : nat }.

Definition ex_add (e : extremes) (x y : nat) : extremes :=
  mkEx (Nat.min (ex_xs e) x) (Nat.min (ex_ys e) y) (Nat.max (ex_xe e) x) (Nat.max (ex_ye e) y).

Fixpoint scan_from (h off : nat) (T : list bool) (e : extremes) : extremes :=
  match T with
  | [] => e
  | t :: T' => scan_from h (S off) T' (if t then ex_add e (off / h) (off mod h) else e)
  end.

Definition bbox_scan (h w : nat) (T : list bool) : list nat :=
  let e := scan_from h 0 T (mkEx w h 0 0) in
  [ex_xs e; ex_ys e; ex_xe e - ex_xs e + 1; ex_ye e - ex_ys e + 1].

(** ** Encoding and decoding *)

Lemma repeat_S_app {A} (a : A) n : repeat a (S n) = repeat a n ++ [a].
Proof. induction n as [|n IH]; [done|]. simpl. by rewrite <- IH. Qed.

Lemma decode_encode_runs p c T :
  decode_runs p (encode_runs p c T) = repeat p c ++ T.
Proof.
  revert p c. induction T as [|t T IH]; intros p c; simpl.
  - by rewrite app_nil_r.
  - destruct t, p; simpl; rewrite IH; try done; by rewrite repeat_S_app, <- app_assoc.
Qed.

(** Every count after the current one is positive: a run of ones is
    never empty. *)
Lemma encode_runs_pos p c T : 0 < c -> Forall (fun n => 0 < n) (encode_runs p c T).
Proof.
  revert p c. induction T as [|t T IH]; intros p c Hc; simpl.
  - by repeat constructor.
  - destruct (eqb t p); [apply IH; lia|]. constructor; [done|]. apply IH; lia.
Qed.

Lemma encode_runs_tail_pos p c T : Forall (fun n => 0 < n) (tail (encode_runs p c T)).
Proof.
  destruct T as [|t T]; simpl; [constructor|].
  destruct (eqb t p); [|apply encode_runs_pos; lia].
  revert c. induction T as [|t' T IH]; intros c; simpl; [constructor|].
  destruct (eqb t' p); [apply IH|apply encode_runs_pos; lia].
Qed.

Lemma encode_runs_nonempty p c T : 1 <= length (encode_runs p c T).
Proof.
  revert p c. induction T as [|t T IH]; intros p c; simpl; [lia|].
  destruct (eqb t p); simpl; [apply IH|lia].
Qed.

(** An encoding of a buffer holding a pixel different from the current
    value has a second count. *)
Lemma encode_runs_length p c T :
  Exists (fun t => t <> p) T -> 2 <= length (encode_runs p c T).
Proof.
  revert c. induction T as [|t T IH]; intros c HE; [by inversion HE|]. simpl.
  destruct (eqb t p) eqn:E.
  - apply eqb_prop in E as ->. apply IH. inversion HE; subst; [done|assumption].
  - simpl. pose proof (encode_runs_nonempty t 1 T). lia.
Qed.

(** ** The loop of [rleToBbox] against the scan *)

Definition ex_of (s : bbox_state) : extremes := mkEx (bs_xs s) (bs_ys s) (bs_xe s) (bs_ye s).

(** [ys=0; ye=h-1]: a run of ones crossing a column boundary covers
    every row. *)
Definition ex_full (h : nat) (e : extremes) : extremes := mkEx (ex_xs e) 0 (ex_xe e) (h - 1).

(** What [rleToBbox] does with a run of ones from pixel [a] to pixel
    [b]: add its first pixel, widen to every row when the run leaves
    the column, add its last pixel. *)
Definition ex_run (h a b : nat) (e : extremes) : extremes :=
  let e1 := ex_add e (a / h) (a mod h) in
  ex_add (if a / h <? b / h then ex_full h e1 else e1) (b / h) (b mod h).

Lemma scan_from_app h off T1 T2 e :
  scan_from h off (T1 ++ T2) e = scan_from h (off + length T1) T2 (scan_from h off T1 e).
Proof.
  revert off e. induction T1 as [|t T1 IH]; intros off e; simpl.
  - by rewrite Nat.add_0_r.
  - by rewrite IH, Nat.add_succ_r.
Qed.

Lemma scan_from_zeros h off n e : scan_from h off (repeat false n) e = e.
Proof. revert off. induction n as [|n IH]; intros off; [done|]. apply IH. Qed.

Lemma mod_le_same_div h a b : a <= b -> a / h = b / h -> a mod h <= b mod h.
Proof.
  intros Hab Hq. pose proof (Nat.div_mod_eq a h). pose proof (Nat.div_mod_eq b h).
  rewrite Hq in *. set (q := b / h) in *. lia.
Qed.

Lemma sub_mod_div t h : (t - t mod h) / h = t / h.
Proof.
  destruct (decide (h = 0)) as [->|Hh]; [done|].
  pose proof (Nat.div_mod_eq t h) as Ht.
  replace (t - t mod h) with ((t / h) * h) by lia. by apply Nat.div_mul.
Qed.

Lemma ex_add_idem e x y : ex_add (ex_add e x y) x y = ex_add e x y.
Proof. destruct e; unfold ex_add; simpl; f_equal; lia. Qed.

(** Extending a run of ones by one pixel. *)
Lemma ex_run_extend h a i e :
  h <> 0 -> ex_ye e <= h - 1 -> a <= i ->
  ex_add (ex_run h a i e) (S i / h) (S i mod h) = ex_run h a (S i) e.
Proof.
  intros Hh Hye Hai. unfold ex_run.
  pose proof (Nat.Div0.div_le_mono _ _ h Hai) as Hq.
  pose proof (mod_le_same_div h a i Hai) as Hm.
  pose proof (Nat.mod_upper_bound a h Hh). pose proof (Nat.mod_upper_bound i h Hh).
  destruct (succ_divmod h i Hh) as [(-> & -> & ?)|(-> & -> & ?)];
    set (qa := a / h) in *; set (qi := i / h) in *;
    set (ra := a mod h) in *; set (ri := i mod h) in *;
    destruct e as [xs ys xe ye]; unfold ex_add, ex_full; simpl in *;
    destruct (Nat.ltb_spec qa qi); destruct (Nat.ltb_spec qa (S qi)); simpl;
    f_equal; lia.
Qed.

Lemma scan_run h off n e :
  h <> 0 -> ex_ye e <= h - 1 ->
  scan_from h off (repeat true (S n)) e = ex_run h off (off + n) e.
Proof.
  intros Hh Hye. induction n as [|n IH].
  - simpl. unfold ex_run. rewrite Nat.add_0_r, Nat.ltb_irrefl. by rewrite ex_add_idem.
  - rewrite repeat_S_app, scan_from_app, IH, repeat_length. simpl.
    rewrite Nat.add_succ_r. apply ex_run_extend; [done|done|lia].
Qed.

Lemma ex_run_ye h a b e :
  h <> 0 -> ex_ye e <= h - 1 -> ex_ye (ex_run h a b e) <= h - 1.
Proof.
  intros Hh Hye. pose proof (Nat.mod_upper_bound a h Hh). pose proof (Nat.mod_upper_bound b h Hh).
  unfold ex_run. destruct (_ <? _); simpl; lia.
Qed.

(** Two iterations of the loop, [j] even: a run of [z] zeros then a
    run of [S o] ones. *)
Lemma bbox_iter_pair h j z o s :
  j mod 2 = 0 ->
  ex_of (bbox_iter h (S j) (S o) (bbox_iter h j z s)) =
    ex_run h (bs_cc s + z) (bs_cc s + z + o) (ex_of s) /\
  bs_cc (bbox_iter h (S j) (S o) (bbox_iter h j z s)) = bs_cc s + z + S o.
Proof.
  intros Hj. pose proof (mod2_S_even j Hj) as Hj'.
  unfold bbox_iter. rewrite Hj', Hj. simpl.
  replace (bs_cc s + z + S o - 1) with (bs_cc s + z + o) by lia.
  rewrite ?Nat.sub_0_r, !sub_mod_div. unfold ex_run, ex_of, ex_add, ex_full.
  by destruct (_ <? _).
Qed.

Lemma firstn_even_cons2 (z o : nat) (r : list nat) :
  firstn (length (z :: o :: r) / 2 * 2) (z :: o :: r) = z :: o :: firstn (length r / 2 * 2) r.
Proof.
  simpl length. by rewrite div2_mul2_SS.
Qed.

(** The loop over the counts of an alternating encoding equals the scan
    of the pixels it decodes to. *)
Lemma bbox_loop_scan h cs :
  h <> 0 -> Forall (fun n => 0 < n) (tail cs) ->
  forall j s, j mod 2 = 0 -> bs_ye s <= h - 1 ->
  ex_of (bbox_loop h j (firstn (length cs / 2 * 2) cs) s) =
    scan_from h (bs_cc s) (decode_runs false cs) (ex_of s).
Proof.
  intros Hh. induction cs as [cs IH] using (induction_ltof1 _ (@length nat)).
  unfold ltof in IH. intros Hpos j s Hj Hye.
  destruct cs as [|z [|o r]].
  - done.
  - simpl. by rewrite app_nil_r, scan_from_zeros.
  - simpl in Hpos. inversion Hpos as [|? ? Ho Hr]; subst. destruct o as [|o]; [lia|].
    rewrite firstn_even_cons2. cbn [bbox_loop decode_runs negb].
    destruct (bbox_iter_pair h j z o s Hj) as [Hex Hcc].
    rewrite IH.
    + rewrite Hcc, Hex, scan_from_app, scan_from_zeros, scan_from_app, !repeat_length.
      by rewrite scan_run.
    + simpl. lia.
    + destruct r; simpl; [constructor|by inversion Hr].
    + by rewrite mod2_SS.
    + change (bs_ye _) with (ex_ye (ex_of (bbox_iter h (S j) (S o) (bbox_iter h j z s)))).
      rewrite Hex. by apply ex_run_ye.
Qed.

(** [rleToBbox], which looks only at the first and
    the last pixel of every run of ones, equals the pixel-by-pixel scan
    [bbox_scan] on the encoding of every column-major buffer of positive
    height with at least one set pixel. *)
Lemma rleToBbox_encode_scan h w T :
  h <> 0 -> Exists (fun t => t = true) T ->
  rleToBbox (rleEncode h w T) = bbox_scan h w T.
Proof.
  intros Hh HE. unfold rleToBbox, rleEncode, bbox_scan. cbn [rle_cnts rle_h rle_w].
  pose proof (encode_runs_length false 0 T) as Hlen.
  destruct (Nat.eqb_spec (length (encode_runs false 0 T) / 2 * 2) 0) as [Hm|_].
  { exfalso. assert (H2 : 2 <= length (encode_runs false 0 T)).
    { apply Hlen. eapply Exists_impl; [exact HE|]. by intros [] ?. }
    apply (Nat.Div0.div_le_mono _ _ 2) in H2. change (2 / 2) with 1 in H2.
    set (X := length _ / 2) in *. lia. }
  pose proof (bbox_loop_scan h (encode_runs false 0 T) Hh (encode_runs_tail_pos false 0 T)
                0 (mkBS 0 0 w h 0 0) eq_refl ltac:(cbn [bs_ye]; lia)) as Hl.
  rewrite decode_encode_runs in Hl.
  change (ex_of (mkBS 0 0 w h 0 0)) with (mkEx w h 0 0) in Hl.
  cbn [bs_cc repeat app] in Hl. by rewrite <- Hl.
Qed.

(** ** The scan finds the smallest enclosing rectangle *)

Lemma scan_from_mono h off T e :
  let e' := scan_from h off T e in
  ex_xs e' <= ex_xs e /\ ex_ys e' <= ex_ys e /\ ex_xe e <= ex_xe e' /\ ex_ye e <= ex_ye e'.
Proof.
  revert off e. induction T as [|t T IH]; intros off e; simpl; [lia|].
  destruct (IH (S off) (if t then ex_add e (off / h) (off mod h) else e)) as (? & ? & ? & ?).
  destruct t; simpl in *; lia.
Qed.

Lemma scan_from_bounds h off T e i :
  nth i T false = true ->
  let e' := scan_from h off T e in
  ex_xs e' <= (off + i) / h <= ex_xe e' /\ ex_ys e' <= (off + i) mod h <= ex_ye e'.
Proof.
  revert off e i. induction T as [|t T IH]; intros off e i Hi; simpl.
  - by destruct i.
  - destruct i as [|i]; simpl in Hi.
    + subst t. rewrite Nat.add_0_r.
      destruct (scan_from_mono h (S off) T (ex_add e (off / h) (off mod h))) as (? & ? & ? & ?).
      simpl in *. lia.
    + rewrite Nat.add_succ_r, <- Nat.add_succ_l. by apply IH.
Qed.

(** Each extreme is its initial value or the column (row) of a set
    pixel. *)
Lemma scan_from_attained h off T e :
  let e' := scan_from h off T e in
  (ex_xs e' = ex_xs e \/ exists i, nth i T false = true /\ (off + i) / h = ex_xs e') /\
  (ex_ys e' = ex_ys e \/ exists i, nth i T false = true /\ (off + i) mod h = ex_ys e') /\
  (ex_xe e' = ex_xe e \/ exists i, nth i T false = true /\ (off + i) / h = ex_xe e') /\
  (ex_ye e' = ex_ye e \/ exists i, nth i T false = true /\ (off + i) mod h = ex_ye e').
Proof.
  revert off e. induction T as [|t T IH]; intros off e; simpl; [auto|].
  set (e1 := if t then ex_add e (off / h) (off mod h) else e).
  assert (Hshift : forall i, S off + i = off + S i) by lia.
  assert (Hstep : forall (f : extremes -> nat) (g : nat -> nat) v,
    (v = f e1 \/ exists i, nth i T false = true /\ g (S off + i) = v) ->
    (f e1 = f e \/ (t = true /\ f e1 = g off)) ->
    v = f e \/ exists i, nth i (t :: T) false = true /\ g (off + i) = v).
  { intros f g v [->|(i & Hi & Hg)] He1.
    - destruct He1 as [He1|(-> & He1)]; [by left|right; exists 0; by rewrite Nat.add_0_r].
    - right. exists (S i). by rewrite <- Hshift. }
  destruct (IH (S off) e1) as (Hxs & Hys & Hxe & Hye).
  assert (Hmin : forall a b, Nat.min a b = a \/ (true = true /\ Nat.min a b = b)) by lia.
  assert (Hmax : forall a b, Nat.max a b = a \/ (true = true /\ Nat.max a b = b)) by lia.
  split_and!.
  - apply (Hstep ex_xs (fun n => n / h) _ Hxs). subst e1; destruct t; [apply Hmin|by left].
  - apply (Hstep ex_ys (fun n => n mod h) _ Hys). subst e1; destruct t; [apply Hmin|by left].
  - apply (Hstep ex_xe (fun n => n / h) _ Hxe). subst e1; destruct t; [apply Hmax|by left].
  - apply (Hstep ex_ye (fun n => n mod h) _ Hye). subst e1; destruct t; [apply Hmax|by left].
Qed.

(** ** The contract of [toBbox]

    [[x0; y0; x1 - x0 + 1; y1 - y0 + 1]] is the smallest rectangle
    holding every set pixel: every set pixel is inside, and each of its
    four sides touches a set pixel. *)
Definition pixel_set (h w : nat) (m : grid bool) (x y : nat) : Prop :=
  x < w /\ y < h /\ grid_at false m y x = true.

Definition is_tight_bbox (h w : nat) (m : grid bool) (bb : list nat) : Prop :=
  exists x0 y0 x1 y1,
    bb = [x0; y0; x1 - x0 + 1; y1 - y0 + 1] /\
    (forall x y, pixel_set h w m x y -> x0 <= x <= x1 /\ y0 <= y <= y1) /\
    (exists y, pixel_set h w m x0 y) /\ (exists y, pixel_set h w m x1 y) /\
    (exists x, pixel_set h w m x y0) /\ (exists x, pixel_set h w m x y1).

Lemma flat_nth_pixel h w m i :
  grid_wf h w m -> h <> 0 ->
  nth i (fortran_flat false w m) false = true -> pixel_set h w m (i / h) (i mod h).
Proof.
  intros [Hl HF] Hh Hi.
  assert (Hiw : i < w * h).
  { destruct (decide (i < w * h)) as [|Hge]; [done|].
    rewrite nth_overflow in Hi; [discriminate|].
    rewrite (length_fortran_flat _ h) by done. lia. }
  pose proof (Nat.mod_upper_bound i h Hh).
  assert (i / h < w) by (apply Nat.Div0.div_lt_upper_bound; lia).
  split_and!; [done|done|].
  rewrite <- (fortran_flat_nth false h w m) by done.
  by rewrite Nat.mul_comm, <- Nat.div_mod_eq.
Qed.

Lemma pixel_flat_nth h w m x y :
  grid_wf h w m -> pixel_set h w m x y ->
  nth (x * h + y) (fortran_flat false w m) false = true.
Proof. intros [Hl _] (Hx & Hy & Hp). by rewrite (fortran_flat_nth false h). Qed.

Lemma bbox_scan_tight h w m :
  grid_wf h w m -> h <> 0 -> (exists x y, pixel_set h w m x y) ->
  is_tight_bbox h w m (bbox_scan h w (fortran_flat false w m)).
Proof.
  intros Hwf Hh (px & py & Hp).
  set (T := fortran_flat false w m).
  pose proof (scan_from_attained h 0 T (mkEx w h 0 0)) as (Axs & Ays & Axe & Aye).
  set (e := scan_from h 0 T (mkEx w h 0 0)) in *.
  assert (Hb : forall x y, pixel_set h w m x y ->
                 ex_xs e <= x <= ex_xe e /\ ex_ys e <= y <= ex_ye e).
  { intros x y Hxy.
    pose proof (scan_from_bounds h 0 T (mkEx w h 0 0) (x * h + y)
                  (pixel_flat_nth h w m x y Hwf Hxy)) as Hs.
    destruct (divmod_colmajor h x y) as [Hd Hm]; [apply Hxy|].
    simpl in Hs. by rewrite Hd, Hm in Hs. }
  pose proof (Hb px py Hp) as Hpb. pose proof Hp as (Hpx & Hpy & _).
  exists (ex_xs e), (ex_ys e), (ex_xe e), (ex_ye e). split_and!; [done|exact Hb|..];
    simpl in *.
  - destruct Axs as [|(i & Hi & <-)]; [lia|].
    exists (i mod h). by apply flat_nth_pixel.
  - destruct Axe as [He|(i & Hi & <-)].
    + exists py. by replace (ex_xe e) with px by lia.
    + exists (i mod h). by apply flat_nth_pixel.
  - destruct Ays as [|(i & Hi & <-)]; [lia|].
    exists (i / h). by apply flat_nth_pixel.
  - destruct Aye as [He|(i & Hi & <-)].
    + exists px. by replace (ex_ye e) with py by lia.
    + exists (i / h). by apply flat_nth_pixel.
Qed.

(** A set pixel of the mask is a set element of its Fortran buffer. *)
Lemma pixel_flat_Exists h w m :
  grid_wf h w m -> (exists x y, pixel_set h w m x y) ->
  Exists (fun t => t = true) (fortran_flat false w m).
Proof.
  intros Hwf (x & y & Hp). apply Exists_exists.
  exists true. split; [|done].
  rewrite <- (pixel_flat_nth h w m x y Hwf Hp). apply list_elem_of_In, nth_In.
  destruct Hwf as [Hl _]. rewrite (length_fortran_flat _ h) by done.
  destruct Hp as (? & ? & _). nia.
Qed.

(** on a rectangular mask of positive height with at
    least one set pixel, [mask_utils.toBbox(mask_utils.encode(m))]
    returns the smallest rectangle [x, y, width, height] that holds
    every set pixel of [m]. *)
Theorem toBbox_encode_tight h w m :
  grid_wf h w m -> h <> 0 -> (exists x y, pixel_set h w m x y) ->
  is_tight_bbox h w m (rleToBbox (mask_encode m)).
Proof.
  intros Hwf Hh Hp. unfold mask_encode.
  destruct (grid_wf_shape h w m Hwf Hh) as [-> ->].
  rewrite rleToBbox_encode_scan by (done || by apply (pixel_flat_Exists h)).
  by apply bbox_scan_tight.
Qed.

(** [rleDecode] inverts [rleEncode]: the runs written
    back from the counts are the encoded buffer. *)
Theorem rleDecode_rleEncode h w T : rleDecode (rleEncode h w T) = T.
Proof. unfold rleDecode, rleEncode. simpl. by rewrite decode_encode_runs. Qed.

(** the counts of an encoding add up to the number of
    pixels, and every count but the first (the leading run of zeros,
    empty when pixel 0 is set) is positive. *)
Theorem rleEncode_counts h w T :
  list_sum (rle_cnts (rleEncode h w T)) = length T /\
  Forall (fun n => 0 < n) (tail (rle_cnts (rleEncode h w T))).
Proof.
  split; [|apply encode_runs_tail_pos].
  simpl. assert (Hs : forall p c, list_sum (encode_runs p c T) = c + length T).
  { induction T as [|t T IH]; intros p c; simpl; [lia|].
    destruct (eqb t p); simpl; rewrite IH; lia. }
  by rewrite Hs.
Qed.

(** ** Examples *)

Definition example_mask : grid bool :=
  [[false; false; false; false];
   [false; true;  true;  false];
   [false; true;  false; false]].

Example example_mask_encode : rle_cnts (mask_encode example_mask) = [4; 2; 1; 1; 4].
Proof. reflexivity. Qed.

Example example_mask_bbox : rleToBbox (mask_encode example_mask) = [1; 1; 2; 2].
Proof. reflexivity. Qed.

Lemma toBbox_encode_tight_witness :
  is_tight_bbox 3 4 example_mask (rleToBbox (mask_encode example_mask)).
Proof.
  apply toBbox_encode_tight.
  - split; [reflexivity|repeat constructor].
  - lia.
  - exists 1, 1. split_and!; [lia|lia|reflexivity].
Defined.

(** ** Set pixels and the count of a mask *)

Lemma length_concat_wf {A} h w (m : grid A) :
  grid_wf h w m -> length (concat m) = h * w.
Proof.
  intros [Hl HF]. subst h. induction m as [|r m IH]; simpl; [done|].
  inversion HF; subst. rewrite length_app, IH by done. lia.
Qed.

Lemma count_pixel h w m :
  grid_wf h w m -> count_true (concat m) <> 0 <-> exists x y, pixel_set h w m x y.
Proof.
  intros Hwf. pose proof Hwf as [Hl HF]. rewrite count_true_In, in_concat.
  rewrite Forall_forall in HF. split.
  - intros (row & Hrow & Ht).
    destruct (In_nth m row [] Hrow) as (y & Hy & Hny).
    destruct (In_nth row true false Ht) as (x & Hx & Hnx).
    assert (length row = w) by (apply HF, list_elem_of_In, Hrow).
    exists x, y. unfold pixel_set, grid_at. rewrite Hny. split_and!; [lia|lia|done].
  - intros (x & y & Hx & Hy & Hp). exists (nth y m []). split.
    + apply nth_In. lia.
    + rewrite <- Hp. apply nth_In.
      rewrite (HF (nth y m [])); [done|]. apply list_elem_of_In, nth_In. lia.
Qed.

Lemma rleToBbox_encode_scan_witness :
  rleToBbox (rleEncode 3 4 (fortran_flat false 4 example_mask)) =
  bbox_scan 3 4 (fortran_flat false 4 example_mask).
Proof. apply rleToBbox_encode_scan; [lia|]. apply (bool_decide_unpack _). vm_compute. reflexivity. Defined.
