(* ===== verification/RleString.v ===== *)
(** * RleString: the text form of the RLE counts

    [mask_utils.encode] returns the counts as a byte string built by
    [rleToString] (maskApi.c), and [mask_utils.toBbox] parses it back
    with [rleFrString] before computing the box.  Each count (from the
    third on, minus the count two places before it) is written as a
    signed little-endian sequence of 5-bit chunks, one character per
    chunk ([chunk + 48], bit 0x20 meaning "more chunks follow", bit 0x10
    of the last chunk the sign).

    Characters are their codes ([Z]); the C string is the list of its
    characters before the NUL.  [long] arithmetic is exact [Z]
    arithmetic (the counts and their differences are far from 2^63);
    [(uint) x] is [x mod 2^32].  The decoder's shifts are written on
    [int] in the C code ([(c & 0x1f) << 5*k]), which is defined only
    while [5*k <= 25]: the theorems assume counts below [2^29], for
    which every number takes at most six chunks ([to_chunks_six]).

    The theorems: the chunk loop of [rleToString] exits within the
    13 iterations a 64-bit [long] can need (termination), a number
    below [2^29] in absolute value takes at most six characters
    (bounds), and [rleFrString] inverts [rleToString] (round trip). *)

From S2P Require Import Prelude Raster Rle.

Local Open Scope Z_scope.

(** The inner loop of [rleToString] for one value [x]:
    [while( more ) { char c=x & 0x1f; x >>= 5;
       more=(c & 0x10) ? x!=-1 : x!=0;
       if(more) c |= 0x20; c+=48; s[p++]=c; }]
    The loop exits after at most 13 iterations on a 64-bit [long]; the
    fuel is that bound. *)
Fixpoint to_chunks (fuel : nat) (x : Z) : list Z :=
  match fuel with
  | O => []
  | S fuel' =>
      let c := Z.land x 31 in
      let x' := Z.shiftr x 5 in
      let more := if Z.land c 16 =? 0 then negb (x' =? 0) else negb (x' =? -1) in
      if more then (Z.lor c 32 + 48) :: to_chunks fuel' x'
      else [c + 48]
  end.

Definition long_chunks : nat := 13.

(** [for( i=0; i<m; i++ ) { x=(long) R->cnts[i]; if(i>2) x-=(long) R->cnts[i-2]; ... }] *)
Fixpoint to_string_go (i : nat) (cnts rest : list nat) : list Z :=
  match rest with
  | [] => []
  | c :: rest' =>
      let x := Z.of_nat c - (if (2 <? i)%nat then Z.of_nat (nth (i - 2) cnts 0%nat) else 0) in
      to_chunks long_chunks x ++ to_string_go (S i) cnts rest'
  end.

Definition rleToString (R : RLE) : list Z := to_string_go 0 (rle_cnts R) (rle_cnts R).

(** The inner loop of [rleFrString] for one value, from [k] chunks read
    and the bits [x] gathered so far:
    [char c=s[p]-48; x |= (c & 0x1f) << 5*k; more = c & 0x20; p++; k++;
     if(!more && (c & 0x10)) x |= -1 << 5*k;]
    A string that ends inside a number makes the C code read its NUL
    terminator and run past it; the model returns [None] there. *)
Fixpoint fr_chunks (k : nat) (x : Z) (s : list Z) : option (Z * list Z) :=
  match s with
  | [] => None
  | ch :: s' =>
      let c := ch - 48 in
      let x := Z.lor x (Z.shiftl (Z.land c 31) (5 * Z.of_nat k)) in
      if negb (Z.land c 32 =? 0) then fr_chunks (S k) x s'
      else if Z.land c 16 =? 0 then Some (x, s')
      else Some (Z.lor x (Z.shiftl (-1) (5 * Z.of_nat (S k))), s')
  end.

(** [while( s[p] ) { x=0; k=0; more=1; <inner loop>;
     if(m>2) x+=(long) cnts[m-2]; cnts[m++]=(uint) x; }]
    Every number takes at least one character, so [length s]
    iterations are enough; [None] when the fuel runs out or a number is
    cut. *)
Fixpoint fr_string_go (fuel : nat) (cnts : list nat) (s : list Z) : option (list nat) :=
  match s with
  | [] => Some cnts
  | _ :: _ =>
      match fuel with
      | O => None
      | S fuel' =>
          match fr_chunks 0 0 s with
          | None => None
          | Some (x, s') =>
              let m := length cnts in
              let x := if (2 <? m)%nat then x + Z.of_nat (nth (m - 2) cnts 0%nat) else x in
              fr_string_go fuel' (cnts ++ [Z.to_nat (x mod 2 ^ 32)]) s'
          end
      end
  end.

(** [rleFrString(R, s, h, w)]. *)
Definition rleFrString (s : list Z) (h w : nat) : option RLE :=
  match fr_string_go (length s) [] s with
  | Some cnts => Some (mkRLE h w cnts)
  | None => None
  end.

(** ** Bits of one chunk *)

Lemma lor_disjoint a b n :
  0 <= n -> 0 <= a < 2 ^ n -> Z.lor a (b * 2 ^ n) = a + b * 2 ^ n.
Proof.
  intros Hn Ha. rewrite <- Z.add_lor_land.
  assert (Z.land a (b * 2 ^ n) = 0) as ->; [|lia].
  apply Z.bits_inj'. intros i Hi. rewrite Z.land_spec, Z.bits_0.
  destruct (Z.lt_ge_cases i n).
  - rewrite <- Z.shiftl_mul_pow2 by done. rewrite Z.shiftl_spec_low by done.
    apply andb_false_r.
  - rewrite <- (Z.mod_small a (2 ^ n)) by lia. by rewrite Z.mod_pow2_bits_high by lia.
Qed.

(** What the decoder reads back from an emitted character, for every
    5-bit chunk [c]: checked on the 32 values. *)
Lemma chunk_char_bits c :
  0 <= c < 32 ->
  Z.land (Z.lor c 32) 31 = c /\ Z.land (Z.lor c 32) 32 <> 0 /\
  Z.land c 31 = c /\ Z.land c 32 = 0 /\ (Z.land c 16 =? 0) = (c <? 16).
Proof.
  intros Hc.
  assert (Hin : c ∈ map Z.of_nat (seq 0 32)).
  { apply list_elem_of_In, in_map_iff. exists (Z.to_nat c).
    split; [lia|apply in_seq; lia]. }
  repeat (apply elem_of_cons in Hin as [->|Hin]; [by vm_compute|]).
  by apply elem_of_nil in Hin.
Qed.

(** One step of the encoder loop: [x] is [32 * x' + c]. *)
Lemma chunk_split x :
  x = 32 * Z.shiftr x 5 + Z.land x 31 /\ 0 <= Z.land x 31 < 32.
Proof.
  rewrite Z.shiftr_div_pow2 by lia. change 31 with (Z.ones 5).
  rewrite Z.land_ones by lia. change (2 ^ 5) with 32.
  pose proof (Z.div_mod x 32). pose proof (Z.mod_pos_bound x 32). lia.
Qed.

(** The values that fit in [n] chunks. *)
Definition chunk_range (n : nat) (x : Z) : Prop :=
  - 2 ^ (5 * Z.of_nat n - 1) <= x < 2 ^ (5 * Z.of_nat n - 1).

Lemma chunk_range_S n x :
  chunk_range (S n) x ->
  (n = 0%nat -> -16 <= x < 16) /\ ((1 <= n)%nat -> chunk_range n (x / 32)).
Proof.
  unfold chunk_range. intros Hx. split.
  - intros ->. exact Hx.
  - intros Hn.
    assert (Hp : 2 ^ (5 * Z.of_nat (S n) - 1) = 32 * 2 ^ (5 * Z.of_nat n - 1)).
    { replace (5 * Z.of_nat (S n) - 1) with (5 + (5 * Z.of_nat n - 1)) by lia.
      rewrite Z.pow_add_r by lia. reflexivity. }
    rewrite Hp in Hx. split.
    + apply Z.div_le_lower_bound; lia.
    + apply Z.div_lt_upper_bound; lia.
Qed.

(** The loop continues exactly when the chunk does not hold the rest of
    the value; on a value of [chunk_range 1] it stops at once. *)
Lemma chunk_more_false x :
  -16 <= x < 16 ->
  (if Z.land (Z.land x 31) 16 =? 0 then negb (Z.shiftr x 5 =? 0)
   else negb (Z.shiftr x 5 =? -1)) = false.
Proof.
  intros Hx. destruct (chunk_split x) as [Hs Hc].
  destruct (chunk_char_bits _ Hc) as (_ & _ & _ & _ & ->).
  set (c := Z.land x 31) in *. set (x' := Z.shiftr x 5) in *.
  destruct (Z.ltb_spec c 16); [assert (x' = 0) as -> by lia|assert (x' = -1) as -> by lia];
    reflexivity.
Qed.

Lemma to_chunks_small fuel x :
  -16 <= x < 16 -> to_chunks (S fuel) x = [Z.land x 31 + 48].
Proof. intros Hx. cbn [to_chunks]. by rewrite chunk_more_false. Qed.

Lemma to_chunks_S fuel x :
  to_chunks (S fuel) x =
    let c := Z.land x 31 in
    let x' := Z.shiftr x 5 in
    if (if Z.land c 16 =? 0 then negb (x' =? 0) else negb (x' =? -1))
    then (Z.lor c 32 + 48) :: to_chunks fuel x' else [c + 48].
Proof. reflexivity. Qed.

Lemma pow_5S k : 2 ^ (5 * Z.of_nat (S k)) = 32 * 2 ^ (5 * Z.of_nat k).
Proof.
  replace (5 * Z.of_nat (S k)) with (5 + 5 * Z.of_nat k) by lia.
  rewrite Z.pow_add_r by lia. reflexivity.
Qed.

(** ** One number: termination, size and round trip *)

Lemma to_chunks_fuel n fuel x :
  (1 <= n)%nat -> (n <= fuel)%nat -> chunk_range n x -> to_chunks fuel x = to_chunks n x.
Proof.
  revert fuel x. induction n as [|n IH]; intros fuel x Hn Hf Hx; [lia|].
  destruct fuel as [|fuel]; [lia|].
  destruct (chunk_range_S n x Hx) as [H0 H1].
  destruct n as [|n]; [by rewrite !to_chunks_small by auto|]. simpl.
  destruct (if _ =? 0 then _ else _) eqn:Hmore; [|done].
  f_equal. apply IH; [lia|lia|]. rewrite Z.shiftr_div_pow2 by lia. apply H1. lia.
Qed.

Lemma length_to_chunks n x : (length (to_chunks n x) <= n)%nat.
Proof.
  revert x. induction n as [|n IH]; intros x; simpl; [lia|].
  destruct (if _ =? 0 then _ else _); simpl; [specialize (IH (Z.shiftr x 5))|]; lia.
Qed.

Lemma to_chunks_nonempty n x : (1 <= n)%nat -> (1 <= length (to_chunks n x))%nat.
Proof.
  destruct n as [|n]; [lia|]. intros _. simpl. destruct (if _ =? 0 then _ else _); simpl; lia.
Qed.

Lemma fr_to_chunks n x k acc rest :
  (1 <= n)%nat -> chunk_range n x -> 0 <= acc < 2 ^ (5 * Z.of_nat k) ->
  fr_chunks k acc (to_chunks n x ++ rest) = Some (acc + x * 2 ^ (5 * Z.of_nat k), rest).
Proof.
  revert x k acc. induction n as [|n IH]; intros x k acc Hn Hx Hacc; [lia|].
  destruct (chunk_range_S n x Hx) as [H0 H1].
  destruct (chunk_split x) as [Hs Hc].
  destruct (chunk_char_bits _ Hc) as (Hb1 & Hb2 & Hb3 & Hb4 & Hb5).
  pose proof (pow_5S k) as Hp. pose proof (pow_5S (S k)) as Hp'.
  destruct n as [|n].
  { rewrite to_chunks_small by auto. simpl.
    pose proof (chunk_more_false x (H0 eq_refl)) as Hmore.
    set (c := Z.land x 31) in *. set (x' := Z.shiftr x 5) in *.
    set (P := 2 ^ (5 * Z.of_nat k)) in *.
    replace (c + 48 - 48) with c by lia. rewrite Hb4, Hb3. simpl negb. cbn match.
    rewrite Z.shiftl_mul_pow2, lor_disjoint by lia. fold P.
    rewrite Hb5 in *. destruct (Z.ltb_spec c 16).
    + apply negb_false_iff, Z.eqb_eq in Hmore. do 2 f_equal. rewrite Hs at 1. lia.
    + apply negb_false_iff, Z.eqb_eq in Hmore.
      rewrite Z.shiftl_mul_pow2, lor_disjoint by (rewrite ?Hp; nia).
      do 2 f_equal. rewrite Hs at 1. rewrite Hp. lia. }
  rewrite to_chunks_S. set (c := Z.land x 31) in *. set (x' := Z.shiftr x 5) in *.
  set (P := 2 ^ (5 * Z.of_nat k)) in *. cbv zeta.
  destruct (if Z.land c 16 =? 0 then _ else _) eqn:Hmore.
  - cbn [fr_chunks app]. replace (Z.lor c 32 + 48 - 48) with (Z.lor c 32) by lia. rewrite Hb1.
    destruct (Z.land (Z.lor c 32) 32 =? 0) eqn:E; [by apply Z.eqb_eq in E|]. cbn [negb].
    rewrite Z.shiftl_mul_pow2, lor_disjoint by lia. fold P.
    rewrite IH; [|lia|unfold x'; rewrite Z.shiftr_div_pow2 by lia; apply H1; lia|rewrite Hp; nia].
    do 2 f_equal. rewrite Hp, Hs at 1. ring.
  - simpl. replace (c + 48 - 48) with c by lia. rewrite Hb4, Hb3. simpl negb. cbn match.
    rewrite Z.shiftl_mul_pow2, lor_disjoint by lia. fold P.
    rewrite Hb5 in *. destruct (Z.ltb_spec c 16).
    + apply negb_false_iff, Z.eqb_eq in Hmore. do 2 f_equal. rewrite Hs at 1. lia.
    + apply negb_false_iff, Z.eqb_eq in Hmore.
      rewrite Z.shiftl_mul_pow2, lor_disjoint by (rewrite ?Hp; nia).
      do 2 f_equal. rewrite Hs at 1. rewrite Hp. lia.
Qed.

(** the chunk loop of [rleToString] exits by itself on
    every 64-bit [long]: more iterations than the 13 of the model change
    nothing. *)
Theorem to_chunks_terminates x fuel :
  - 2 ^ 63 <= x < 2 ^ 63 -> (long_chunks <= fuel)%nat ->
  to_chunks fuel x = to_chunks long_chunks x.
Proof.
  intros Hx Hf. unfold long_chunks in *.
  apply to_chunks_fuel; [lia|lia|unfold chunk_range; simpl; lia].
Qed.

(** a value of absolute value below [2^29] is written in
    one to six characters, so that the decoder's [int] shifts stay
    within [5*5 = 25] bits. *)
Theorem to_chunks_six x :
  - 2 ^ 29 <= x < 2 ^ 29 -> (1 <= length (to_chunks long_chunks x) <= 6)%nat.
Proof.
  intros Hx. unfold long_chunks.
  rewrite (to_chunks_fuel 6 13 x) by (unfold chunk_range; simpl; lia).
  split; [apply to_chunks_nonempty; lia|apply length_to_chunks].
Qed.

(** ** The whole string *)

Lemma nth_count_bound (all : list nat) j :
  Forall (fun c => Z.of_nat c < 2 ^ 29) all -> 0 <= Z.of_nat (nth j all 0%nat) < 2 ^ 29.
Proof.
  intros Hall. destruct (all !! j) as [c|] eqn:E.
  - rewrite (nth_lookup_Some _ _ _ c E). split; [lia|].
    exact (Forall_lookup_1 _ _ _ _ Hall E).
  - rewrite nth_lookup, E. simpl. lia.
Qed.

Lemma fr_to_string_go all :
  Forall (fun c => Z.of_nat c < 2 ^ 29) all ->
  forall rest i fuel, rest = drop i all ->
  (length (to_string_go i all rest) <= fuel)%nat ->
  fr_string_go fuel (take i all) (to_string_go i all rest) = Some all.
Proof.
  intros Hall rest. induction rest as [|c rest IH]; intros i fuel Hrest Hf.
  - simpl. destruct fuel; rewrite take_ge; try done;
      apply (f_equal length) in Hrest; rewrite length_drop in Hrest; simpl in Hrest; lia.
  - assert (Hc : all !! i = Some c).
    { rewrite <- (Nat.add_0_r i), <- lookup_drop, <- Hrest. done. }
    assert (Hil : (i < length all)%nat) by (by apply lookup_lt_Some in Hc).
    cbn [to_string_go]. cbn [to_string_go] in Hf.
    set (d := if (2 <? i)%nat then Z.of_nat (nth (i - 2) all 0%nat) else 0) in *.
    set (x := Z.of_nat c - d) in *.
    assert (Hd : 0 <= d < 2 ^ 29)
      by (unfold d; destruct (_ <? _)%nat; [by apply nth_count_bound|lia]).
    assert (Hcb : 0 <= Z.of_nat c < 2 ^ 29).
    { rewrite <- (nth_lookup_Some all i 0%nat c Hc). by apply nth_count_bound. }
    assert (Hx : chunk_range 6 x) by (unfold chunk_range, x; simpl; lia).
    assert (H13 : to_chunks long_chunks x = to_chunks 6 x)
      by (apply to_chunks_fuel; unfold long_chunks; lia || done).
    rewrite H13 in Hf |- *.
    pose proof (to_chunks_nonempty 6 x ltac:(lia)) as Hne.
    destruct (to_chunks 6 x) as [|ch chs] eqn:E; [simpl in Hne; lia|].
    destruct fuel as [|fuel]; [simpl in Hf; lia|].
    cbn [app fr_string_go].
    change (ch :: chs ++ to_string_go (S i) all rest)
      with ((ch :: chs) ++ to_string_go (S i) all rest).
    rewrite <- E, (fr_to_chunks 6 x 0 0) by (first [exact Hx | simpl; lia]).
    rewrite length_take, Nat.min_l by lia.
    replace (if (2 <? i)%nat then 0 + x * 2 ^ (5 * Z.of_nat 0) + Z.of_nat (nth (i - 2) (take i all) 0%nat)
             else 0 + x * 2 ^ (5 * Z.of_nat 0)) with (Z.of_nat c).
    2:{ unfold x, d. rewrite nth_firstn. destruct (Nat.ltb_spec 2 i).
        - rewrite (proj2 (Nat.ltb_lt (i - 2) i)) by lia. simpl. lia.
        - simpl. lia. }
    rewrite Z.mod_small, Nat2Z.id by lia.
    rewrite <- take_S_r by done. apply IH.
    + rewrite (drop_S all c i Hc) in Hrest. by injection Hrest.
    + rewrite length_app in Hf. simpl in Hf. lia.
Qed.

(** on counts below [2^29], [rleFrString] reads back
    exactly the counts [rleToString] wrote. *)
Theorem rleFrString_rleToString R :
  Forall (fun c => Z.of_nat c < 2 ^ 29) (rle_cnts R) ->
  rleFrString (rleToString R) (rle_h R) (rle_w R) = Some R.
Proof.
  intros Hall. unfold rleFrString, rleToString.
  pose proof (fr_to_string_go (rle_cnts R) Hall (rle_cnts R) 0 _ eq_refl (le_n _)) as H.
  change (take 0 (rle_cnts R)) with (@nil nat) in H. rewrite H. by destruct R.
Qed.

(** Every character of the text form is one of ['0'..'o'] (48 to 111). *)
Lemma to_chunks_chars n x : Forall (fun ch => 48 <= ch < 112) (to_chunks n x).
Proof.
  revert x. induction n as [|n IH]; intros x; [constructor|].
  rewrite to_chunks_S. destruct (chunk_split x) as [_ Hc]. cbv zeta.
  pose proof (lor_disjoint (Z.land x 31) 1 5 ltac:(lia) ltac:(simpl; lia)) as Hl.
  change (1 * 2 ^ 5) with 32 in Hl. rewrite Hl. set (c := Z.land x 31) in *.
  destruct (if _ =? 0 then _ else _); (constructor; [lia|]); [apply IH|constructor].
Qed.

Lemma to_string_go_chars i all rest : Forall (fun ch => 48 <= ch < 112) (to_string_go i all rest).
Proof.
  revert i. induction rest as [|c rest IH]; intros i; cbn [to_string_go]; [constructor|].
  apply Forall_app. split; [apply to_chunks_chars|apply IH].
Qed.

Lemma rleToString_chars R : Forall (fun ch => 48 <= ch < 112) (rleToString R).
Proof. apply to_string_go_chars. Qed.

(** ** Examples *)

Example rleToString_example : rleToString (mkRLE 3 4 [4; 2; 1; 1; 4]%nat) = [52; 50; 49; 79; 51].
Proof. reflexivity. Qed.

Lemma to_chunks_terminates_witness : to_chunks 20 (-17) = to_chunks long_chunks (-17).
Proof. apply to_chunks_terminates; [lia|unfold long_chunks; lia]. Defined.

Lemma to_chunks_six_witness : (1 <= length (to_chunks long_chunks 1000000) <= 6)%nat.
Proof. apply to_chunks_six. lia. Defined.

Lemma rleFrString_rleToString_witness :
  rleFrString (rleToString (mkRLE 3 4 [4; 2; 1; 1; 4]%nat)) 3 4 = Some (mkRLE 3 4 [4; 2; 1; 1; 4]%nat).
Proof.
  apply (rleFrString_rleToString (mkRLE 3 4 [4; 2; 1; 1; 4]%nat)).
  apply (bool_decide_unpack _). vm_compute. reflexivity.
Defined.

(** Six characters per count at most, on counts below [2^29]. *)
Lemma to_string_go_length all :
  Forall (fun c => Z.of_nat c < 2 ^ 29) all ->
  forall rest i, Forall (fun c => Z.of_nat c < 2 ^ 29) rest ->
  (length (to_string_go i all rest) <= 6 * length rest)%nat.
Proof.
  intros Hall rest. induction rest as [|c rest IH]; intros i Hrest; [simpl; lia|].
  inversion Hrest as [|? ? Hc Hr]; subst. cbn [to_string_go length]. rewrite length_app.
  pose proof (IH (S i) Hr).
  assert (Hd : 0 <= (if (2 <? i)%nat then Z.of_nat (nth (i - 2) all 0%nat) else 0) < 2 ^ 29)
    by (destruct (_ <? _)%nat; [by apply nth_count_bound|lia]).
  pose proof (to_chunks_six (Z.of_nat c - (if (2 <? i)%nat then Z.of_nat (nth (i - 2) all 0%nat) else 0))
                ltac:(lia)).
  lia.
Qed.
