(* ===== verification/FileSystem.v ===== *)
(** * FileSystem: the world the scripts read and write

    Both scripts act only on files and the console.  The world is a
    record of the files (a [gmap] from paths to their decoded contents),
    the directories (a [gset] of paths) and the console output (the
    [print] calls that fired, in order).  A path is the list of its
    components ([os.path.join] is [++]).

    A file holds what the libraries decode from it: a picture (one
    channel, or three in R, G, B order), a text, or the element tree
    ElementTree parses from an XML file ([None] when the XML is not
    well-formed); any other file is [CBytes] with its bytes.  The codecs are not
    modelled: writing a picture and reading it back gives the same
    array (JPEG loss is ignored).

    The world also holds the two pieces of process state the SAM script
    changes besides files: the state of numpy's global random generator
    ([w_rng], advanced by [np.random.randint]) and the image the
    predictor was last given ([w_sam], set by [SamPredictor.set_image]).

    Computations over the world are the state-and-exception monad [io]:
    the world after an exception is kept, as Python keeps the files
    written before the raise.

    [cv2.imwrite] chooses its encoder from the path: OpenCV's
    [findEncoder] takes the text after the last dot of the path, its
    leading alphanumeric run in lower case, and raises [cv2.error]
    when no encoder of the build has that extension ([cv2_has_writer],
    over the encoders of a standard build); otherwise it writes when
    the parent folder exists and returns [False] when it does not. *)

From Stdlib Require Import Ascii.
From S2P Require Import Prelude Raster.

Definition path : Type := list string.

(** [xml.etree.ElementTree.Element]: tag, [.text] ([None] when the
    element has no text) and children in document order. *)
Inductive element : Type :=
| Element (tag : string) (text : option string) (children : list element).

Inductive picture : Type :=
| Gray (g : grid Z)
| Color (g : grid px3).

Inductive content : Type :=
| CPicture (p : picture)
| CText (s : string)
| CXml (doc : option element)
| CBytes (data : list Z).

(** A [print] that fired: the source line of the call and the path or
    name it reports (empty for the messages about a box). *)
Record printed : Type := Printed { pr_line : nat; pr_subject : string }.

Record world : Type := mkWorld {
  w_files : gmap path content;
  w_dirs : gset path;
  w_out : list printed;
  w_rng : Z;
  w_sam : option (grid px3) }.

Definition set_files (w : world) (f : gmap path content) : world :=
  mkWorld f (w_dirs w) (w_out w) (w_rng w) (w_sam w).

Definition set_dirs (w : world) (d : gset path) : world :=
  mkWorld (w_files w) d (w_out w) (w_rng w) (w_sam w).

Definition set_rng (w : world) (s : Z) : world :=
  mkWorld (w_files w) (w_dirs w) (w_out w) s (w_sam w).

Definition set_sam (w : world) (img : option (grid px3)) : world :=
  mkWorld (w_files w) (w_dirs w) (w_out w) (w_rng w) img.

Definition add_out (w : world) (p : printed) : world :=
  mkWorld (w_files w) (w_dirs w) (app (w_out w) [p]) (w_rng w) (w_sam w).

(** ** The [io] monad *)

Definition io (A : Type) : Type := world -> world * res A.

Definition io_ret {A} (a : A) : io A := fun w => (w, Ok a).
Definition io_raise {A} (e : exn) : io A := fun w => (w, Raise e).
Definition io_lift {A} (r : res A) : io A := fun w => (w, r).

Definition io_bind {A B} (m : io A) (k : A -> io B) : io B :=
  fun w => match m w with
           | (w', Ok a) => k a w'
           | (w', Raise e) => (w', Raise e)
           end.

Notation "'do' x <- m ; k" := (io_bind m (fun x => k))
  (at level 60, x name, m at next level, right associativity) : py_scope.

(** [try: m  except Exception as e: h(e)]: the handler runs in the world
    [m] left behind. *)
Definition io_try {A} (m : io A) (h : exn -> io A) : io A :=
  fun w => match m w with
           | (w', Ok a) => (w', Ok a)
           | (w', Raise e) => h e w'
           end.

(** [for x in xs: body(x)] *)
Fixpoint io_iter {A} (body : A -> io unit) (xs : list A) : io unit :=
  match xs with
  | [] => io_ret tt
  | x :: xs' => do _ <- body x; io_iter body xs'
  end.

Lemma io_bind_ret {A B} (a : A) (k : A -> io B) w : io_bind (io_ret a) k w = k a w.
Proof. reflexivity. Qed.

#[export] Hint Rewrite @io_bind_ret : pyimg.

(** ** Operations *)

Local Open Scope string_scope.

Definition parent (p : path) : path := removelast p.

Definition is_dir (w : world) (p : path) : bool := bool_decide (p ∈ w_dirs w).
Definition is_file (w : world) (p : path) : bool := bool_decide (is_Some (w_files w !! p)).

(** [print(...)] at source line [line]. *)
Definition print (line : nat) (subject : string) : io unit :=
  fun w => (add_out w (Printed line subject), Ok tt).

(** [os.path.exists(p)]. *)
Definition path_exists (p : path) : io bool := fun w => (w, Ok (is_file w p || is_dir w p)).

(** The non-empty prefixes of a path: the directories [os.makedirs]
    creates. *)
Definition prefixes (p : path) : list path := map (fun n => take n p) (seq 1 (length p)).

(** [os.makedirs(p, exist_ok=True)]: creates [p] and its missing
    ancestors; fails when one of them is a file. *)
Definition makedirs (p : path) : io unit :=
  fun w =>
    if existsb (is_file w) (prefixes p) then (w, Raise (FileExistsError (String.concat "\" p)))
    else (set_dirs w (list_to_set (prefixes p) ∪ w_dirs w), Ok tt).

(** The name of [p] when it is an entry of directory [d]. *)
Definition child_name (d p : path) : option string :=
  match last p with
  | Some n => if bool_decide (removelast p = d) then Some n else None
  | None => None
  end.

(** [os.listdir(d)]: the names of the files and directories in [d], in
    the order of the model's finite maps (the operating system's order
    is unspecified). *)
Definition listdir (d : path) : io (list string) :=
  fun w =>
    if is_dir w d then
      (w, Ok (remove_dups (omap (child_name d)
                 (app (map fst (map_to_list (w_files w))) (elements (w_dirs w))))))
    else (w, Raise (FileNotFoundError (String.concat "\" d))).

(** Write a whole file: needs its directory. *)
Definition put_file (p : path) (c : content) : io unit :=
  fun w =>
    if is_dir w (parent p) then
      (set_files w (<[p := c]> (w_files w)), Ok tt)
    else (w, Raise (FileNotFoundError (String.concat "\" p))).

(** [open(p, 'w')]: creates or truncates. *)
Definition open_w (p : path) : io unit := put_file p (CText "").

(** [f.write(s)] on a file opened for writing. *)
Definition append_text (p : path) (s : string) : io unit :=
  fun w =>
    match w_files w !! p with
    | Some (CText t) => (set_files w (<[p := CText (t +:+ s)]> (w_files w)), Ok tt)
    | _ => (w, Raise (ValueError (String.concat "\" p)))
    end.

(** [np.array(Image.open(p))]: the picture, with PIL's exceptions. *)
Definition pil_open (p : path) : io picture :=
  fun w =>
    match w_files w !! p with
    | Some (CPicture pic) => (w, Ok pic)
    | Some _ => (w, Raise (UnidentifiedImageError (String.concat "\" p)))
    | None => (w, Raise (FileNotFoundError (String.concat "\" p)))
    end.

(** [Image.open(src).save(dst)]. *)
Definition pil_copy (src dst : path) : io unit :=
  do pic <- pil_open src; put_file dst (CPicture pic).

(** [cv2.imread(p)]: a three-channel array in B, G, R order, or [None]
    (OpenCV does not raise). *)
Definition cv2_imread (p : path) : io (option (grid px3)) :=
  fun w =>
    match w_files w !! p with
    | Some (CPicture (Color g)) => (w, Ok (Some (cvt_swap g)))
    | Some (CPicture (Gray g)) => (w, Ok (Some (grid_map (fun v => mkPx v v v) g)))
    | _ => (w, Ok None)
    end.

(** [cv2.imwrite(p, img)] with [img] in B, G, R order: [False] without a
    directory to write into. *)
(** OpenCV's [findEncoder] (loadsave.cpp): the extension is the run of
    alphanumeric characters after the last ['.'] of the whole path
    ([strrchr]), compared case-insensitively ([tolower]) with the
    extensions of the encoders. *)
Fixpoint after_last_dot (s : string) : option string :=
  match s with
  | EmptyString => None
  | String c s' =>
      match after_last_dot s' with
      | Some t => Some t
      | None => if Ascii.eqb c "."%char then Some s' else None
      end
  end.

Definition c_isalnum (c : Ascii.ascii) : bool :=
  let n := Ascii.nat_of_ascii c in
  (Nat.leb 48 n && Nat.leb n 57) || (Nat.leb 65 n && Nat.leb n 90) || (Nat.leb 97 n && Nat.leb n 122).

Definition c_tolower (c : Ascii.ascii) : Ascii.ascii :=
  let n := Ascii.nat_of_ascii c in
  if Nat.leb 65 n && Nat.leb n 90 then Ascii.ascii_of_nat (n + 32)%nat else c.

(** The alphanumeric run at the start of [s], lower-cased. *)
Fixpoint ext_token (s : string) : string :=
  match s with
  | EmptyString => EmptyString
  | String c s' => if c_isalnum c then String (c_tolower c) (ext_token s') else EmptyString
  end.

(** The extensions of the encoders of a standard opencv-python build
    (BMP, JPEG, JPEG 2000, PNG, WebP, PxM, Sun raster, TIFF, OpenEXR,
    Radiance HDR). *)
Definition cv2_encoders : list string :=
  ["bmp"; "dib"; "jpeg"; "jpg"; "jpe"; "jp2"; "png"; "webp"; "pbm"; "pgm"; "ppm"; "pxm";
   "pnm"; "sr"; "ras"; "tiff"; "tif"; "exr"; "hdr"; "pic"].

Definition cv2_has_writer (p : path) : bool :=
  match after_last_dot (String.concat "\" p) with
  | Some e => bool_decide (ext_token e ∈ cv2_encoders)
  | None => false
  end.

(** [cv2.imwrite(p, img)]: [cv2.error] when no encoder matches the
    extension; otherwise [True] after writing the B, G, R array, or
    [False] (nothing written) when the directory does not exist. *)
Definition cv2_imwrite (p : path) (img : grid px3) : io bool :=
  fun w =>
    if negb (cv2_has_writer p) then
      (w, Raise (Cv2Error "could not find a writer for the specified extension"))
    else if is_dir w (parent p) then
      (set_files w (<[p := CPicture (Color (cvt_swap img))]> (w_files w)), Ok true)
    else (w, Ok false).

Close Scope string_scope.

(** ** World updates *)

Lemma set_files_files w f : w_files (set_files w f) = f.
Proof. reflexivity. Qed.

Lemma set_files_twice w f f' : set_files (set_files w f) f' = set_files w f'.
Proof. reflexivity. Qed.

Lemma set_files_id w : set_files w (w_files w) = w.
Proof. by destruct w. Qed.

#[export] Hint Rewrite set_files_files set_files_twice set_files_id : pyimg.

(** ** Frames: the files a computation may change

    [frames P m]: [m] changes no file outside the paths satisfying [P];
    the lemmas below decompose a program into its operations, and the
    hint database [frames] composes them. *)

Definition frames (P : path -> Prop) {A} (m : io A) : Prop :=
  forall w p, ~ P p -> w_files (fst (m w)) !! p = w_files w !! p.

Create HintDb frames.

Section Frames.
Context (P : path -> Prop).

Lemma frames_ret {A} (a : A) : frames P (io_ret a).
Proof. by intros w p _. Qed.

Lemma frames_raise {A} e : frames P (@io_raise A e).
Proof. by intros w p _. Qed.

Lemma frames_lift {A} (r : res A) : frames P (io_lift r).
Proof. by intros w p _. Qed.

Lemma frames_bind {A B} (m : io A) (k : A -> io B) :
  frames P m -> (forall a, frames P (k a)) -> frames P (io_bind m k).
Proof.
  intros Hm Hk w p Hp. unfold io_bind. specialize (Hm w p Hp).
  destruct (m w) as [w' [a|e]]; simpl in *; [|done]. by rewrite Hk.
Qed.

Lemma frames_try {A} (m : io A) (h : exn -> io A) :
  frames P m -> (forall e, frames P (h e)) -> frames P (io_try m h).
Proof.
  intros Hm Hh w p Hp. unfold io_try. specialize (Hm w p Hp).
  destruct (m w) as [w' [a|e]]; simpl in *; [done|]. by rewrite Hh.
Qed.

Lemma frames_iter {A} (body : A -> io unit) xs :
  (forall x, In x xs -> frames P (body x)) -> frames P (io_iter body xs).
Proof.
  induction xs as [|x xs IH]; intros Hb; simpl; [apply frames_ret|].
  apply frames_bind; [apply Hb; by left|]. intros _. apply IH. intros y Hy. apply Hb. by right.
Qed.

Lemma frames_print line s : frames P (print line s).
Proof. by intros w p _. Qed.

Lemma frames_path_exists q : frames P (path_exists q).
Proof. by intros w p _. Qed.

Lemma frames_makedirs q : frames P (makedirs q).
Proof. intros w p _. unfold makedirs. by destruct (existsb (is_file w) (prefixes q)). Qed.

Lemma frames_listdir q : frames P (listdir q).
Proof. intros w p _. unfold listdir. by destruct (is_dir w q). Qed.

Lemma frames_pil_open q : frames P (pil_open q).
Proof. intros w p _. unfold pil_open. by destruct (w_files w !! q) as [[]|]. Qed.

Lemma frames_cv2_imread q : frames P (cv2_imread q).
Proof. intros w p _. unfold cv2_imread. by destruct (w_files w !! q) as [[[]| | |]|]. Qed.

Lemma frames_put_file q c : P q -> frames P (put_file q c).
Proof.
  intros Hq w p Hp. unfold put_file. destruct (is_dir w (parent q)); [|done].
  simpl. rewrite lookup_insert_ne; [done|]. intros ->. contradiction.
Qed.

Lemma frames_open_w q : P q -> frames P (open_w q).
Proof. apply frames_put_file. Qed.

Lemma frames_append_text q s : P q -> frames P (append_text q s).
Proof.
  intros Hq w p Hp. unfold append_text. destruct (w_files w !! q) as [[]|]; try done.
  simpl. rewrite lookup_insert_ne; [done|]. intros ->. contradiction.
Qed.

Lemma frames_pil_copy src dst : P dst -> frames P (pil_copy src dst).
Proof. intros Hd. apply frames_bind; [apply frames_pil_open|]. intros pic. by apply frames_put_file. Qed.

Lemma frames_cv2_imwrite q img : P q -> frames P (cv2_imwrite q img).
Proof.
  intros Hq w p Hp. unfold cv2_imwrite. destruct (cv2_has_writer q); [|done].
  destruct (is_dir w (parent q)); [|done].
  simpl. rewrite lookup_insert_ne; [done|]. intros ->. contradiction.
Qed.

Lemma frames_mono (Q : path -> Prop) {A} (m : io A) :
  (forall p, P p -> Q p) -> frames P m -> frames Q m.
Proof. intros HPQ Hm w p Hq. apply Hm. intros HP. by apply Hq, HPQ. Qed.
End Frames.

#[export] Hint Resolve frames_ret frames_raise frames_lift frames_bind frames_try frames_print
  frames_path_exists frames_makedirs frames_listdir frames_pil_open frames_cv2_imread
  frames_put_file frames_open_w frames_append_text frames_pil_copy frames_cv2_imwrite : frames.

(** ** Loops whose iterations each establish a fact about their item

    Used for the folder walkers: every iteration succeeds and keeps an
    invariant, establishes [Q x] for its own item [x], and preserves
    [Q x] for the other items; over a list of distinct items the loop
    ends with [Q x] for all of them. *)

Section IterEstablish.
Context {A : Type} (body : A -> io unit) (Inv : world -> Prop) (Q : A -> world -> Prop).
Hypothesis Hbody : forall x w, Inv w -> exists w', body x w = (w', Ok tt) /\ Inv w' /\ Q x w'.
Hypothesis Hpres : forall x y w w', x <> y -> Inv w -> Q x w -> body y w = (w', Ok tt) -> Q x w'.

Lemma io_iter_preserve z xs :
  forall w, ~ In z xs -> Inv w -> Q z w ->
  exists w', io_iter body xs w = (w', Ok tt) /\ Inv w' /\ Q z w'.
Proof.
  induction xs as [|y xs IH]; intros w Hz Hinv Hq; [by exists w|].
  destruct (Hbody y w Hinv) as (w1 & Hrun & Hinv1 & _).
  simpl. unfold io_bind at 1. rewrite Hrun.
  apply IH; [intros Hin; apply Hz; by right|done|].
  apply (Hpres z y w); [intros ->; apply Hz; by left|done|done|done].
Qed.

Lemma io_iter_establish xs :
  forall w, NoDup xs -> Inv w ->
  exists w', io_iter body xs w = (w', Ok tt) /\ Inv w' /\ forall x, In x xs -> Q x w'.
Proof.
  induction xs as [|x xs IH]; intros w Hnd Hinv; [exists w; split; [done|split; [done|]]; by intros ? []|].
  apply NoDup_cons in Hnd as [Hx Hnd].
  destruct (Hbody x w Hinv) as (w1 & Hrun & Hinv1 & Hq1).
  simpl. unfold io_bind at 1. rewrite Hrun.
  destruct (IH w1 Hnd Hinv1) as (w2 & Hrun2 & Hinv2 & Hall).
  destruct (io_iter_preserve x xs w1) as (w2' & Hrun2' & _ & Hq2); [by rewrite <- list_elem_of_In|done|done|].
  rewrite Hrun2 in Hrun2'. injection Hrun2' as <-.
  exists w2. split; [done|]. split; [done|]. intros y [<-|Hy]; auto.
Qed.
End IterEstablish.

(** The same over a fixed list, when the body is only known to behave on
    the list's items. *)
Lemma io_iter_establish_in {A} (body : A -> io unit) (Inv : world -> Prop) (Q : A -> world -> Prop)
    (xs : list A) :
  (forall x w, In x xs -> Inv w -> exists w', body x w = (w', Ok tt) /\ Inv w' /\ Q x w') ->
  (forall x y w w', In x xs -> In y xs -> x <> y -> Inv w -> Q x w -> body y w = (w', Ok tt) -> Q x w') ->
  NoDup xs -> forall w, Inv w ->
  exists w', io_iter body xs w = (w', Ok tt) /\ Inv w' /\ forall x, In x xs -> Q x w'.
Proof.
  intros Hbody Hpres Hnd w Hinv.
  enough (Hg : forall ys done w, app done ys = xs -> Inv w -> (forall y, In y done -> Q y w) ->
            exists w', io_iter body ys w = (w', Ok tt) /\ Inv w' /\ forall x, In x xs -> Q x w')
    by (apply (Hg xs []); [done|done|by intros ? []]).
  induction ys as [|x ys IH]; intros done w0 Heq Hinv0 Hdone.
  - exists w0. rewrite app_nil_r in Heq. subst. by split_and!.
  - assert (Hx : In x xs) by (rewrite <- Heq; apply in_or_app; right; by left).
    destruct (Hbody x w0 Hx Hinv0) as (w1 & Hrun & Hinv1 & Hq1).
    destruct (IH (app done [x]) w1) as (w2 & Hrun2 & Hinv2 & Hall); [by rewrite <- app_assoc|done| |].
    + intros y [Hy|[<-|[]]]%in_app_or; [|done].
      assert (Hy' : In y xs) by (rewrite <- Heq; by apply in_or_app; left).
      eapply Hpres; [exact Hy'|exact Hx| |exact Hinv0|by apply Hdone|exact Hrun].
      intros E. subst y. rewrite <- Heq in Hnd. apply NoDup_app in Hnd as (_ & Hdis & _).
      apply (Hdis x); apply list_elem_of_In; [done|by left].
    + exists w2. split; [simpl; unfold io_bind; by rewrite Hrun|done].
Qed.

(** ** Directories only grow *)

(** [m] removes no directory. *)
Definition keeps_dirs {A} (m : io A) : Prop :=
  forall w, w_dirs w ⊆ w_dirs (fst (m w)).

Lemma keeps_dirs_bind {A B} (m : io A) (k : A -> io B) :
  keeps_dirs m -> (forall a, keeps_dirs (k a)) -> keeps_dirs (io_bind m k).
Proof.
  intros Hm Hk w. unfold io_bind. specialize (Hm w).
  destruct (m w) as [w' [a|e]]; simpl in *; [|done]. etransitivity; [exact Hm|apply Hk].
Qed.

Lemma keeps_dirs_try {A} (m : io A) (h : exn -> io A) :
  keeps_dirs m -> (forall e, keeps_dirs (h e)) -> keeps_dirs (io_try m h).
Proof.
  intros Hm Hh w. unfold io_try. specialize (Hm w).
  destruct (m w) as [w' [a|e]]; simpl in *; [done|]. etransitivity; [exact Hm|apply Hh].
Qed.

Lemma keeps_dirs_iter {A} (body : A -> io unit) xs :
  (forall x, keeps_dirs (body x)) -> keeps_dirs (io_iter body xs).
Proof.
  intros Hb. induction xs as [|x xs IH]; simpl; [by intros w|].
  apply keeps_dirs_bind; [apply Hb|]. by intros _.
Qed.

(** An operation that leaves the directories as they are. *)
Lemma keeps_dirs_same {A} (m : io A) : (forall w, w_dirs (fst (m w)) = w_dirs w) -> keeps_dirs m.
Proof. intros H w. by rewrite H. Qed.

Lemma keeps_dirs_makedirs q : keeps_dirs (makedirs q).
Proof. intros w. unfold makedirs. destruct (existsb (is_file w) (prefixes q)); simpl; set_solver. Qed.

Lemma keeps_dirs_put_file q c : keeps_dirs (put_file q c).
Proof. apply keeps_dirs_same. intros w. unfold put_file. by destruct (is_dir w (parent q)). Qed.

Lemma keeps_dirs_pil_copy src dst : keeps_dirs (pil_copy src dst).
Proof.
  apply keeps_dirs_bind; [|intros; apply keeps_dirs_put_file].
  apply keeps_dirs_same. intros w. unfold pil_open. by destruct (w_files w !! src) as [[]|].
Qed.

Lemma keeps_dirs_append_text q s : keeps_dirs (append_text q s).
Proof. apply keeps_dirs_same. intros w. unfold append_text. by destruct (w_files w !! q) as [[]|]. Qed.

#[export] Hint Resolve keeps_dirs_bind keeps_dirs_try keeps_dirs_iter keeps_dirs_makedirs
  keeps_dirs_put_file keeps_dirs_pil_copy keeps_dirs_append_text : frames.

(** Computations that leave the directories as they are. *)
Definition dirs_fixed {A} (m : io A) : Prop := forall w, w_dirs (fst (m w)) = w_dirs w.

Lemma dirs_fixed_bind {A B} (m : io A) (k : A -> io B) :
  dirs_fixed m -> (forall a, dirs_fixed (k a)) -> dirs_fixed (io_bind m k).
Proof.
  intros Hm Hk w. unfold io_bind. specialize (Hm w).
  destruct (m w) as [w' [a|e]]; simpl in *; [by rewrite Hk|done].
Qed.

Lemma dirs_fixed_ret {A} (a : A) : dirs_fixed (io_ret a).
Proof. done. Qed.

Lemma dirs_fixed_lift {A} (r : res A) : dirs_fixed (io_lift r).
Proof. done. Qed.

Lemma dirs_fixed_iter {A} (body : A -> io unit) xs :
  (forall x, dirs_fixed (body x)) -> dirs_fixed (io_iter body xs).
Proof. intros Hb. induction xs; simpl; [apply dirs_fixed_ret|by apply dirs_fixed_bind]. Qed.

Lemma dirs_fixed_path_exists q : dirs_fixed (path_exists q).
Proof. done. Qed.

Lemma dirs_fixed_pil_open q : dirs_fixed (pil_open q).
Proof. intros w. unfold pil_open. by destruct (w_files w !! q) as [[]|]. Qed.

Lemma dirs_fixed_put_file q c : dirs_fixed (put_file q c).
Proof. intros w. unfold put_file. by destruct (is_dir w (parent q)). Qed.

Lemma dirs_fixed_append_text q t : dirs_fixed (append_text q t).
Proof. intros w. unfold append_text. by destruct (w_files w !! q) as [[]|]. Qed.

#[export] Hint Resolve dirs_fixed_bind dirs_fixed_ret dirs_fixed_lift dirs_fixed_iter
  dirs_fixed_path_exists dirs_fixed_pil_open dirs_fixed_put_file dirs_fixed_append_text : frames.

(** ** Writing with OpenCV *)

Lemma cv2_imwrite_writer p img w :
  cv2_has_writer p = true ->
  cv2_imwrite p img w =
    if is_dir w (parent p) then (set_files w (<[p := CPicture (Color (cvt_swap img))]> (w_files w)), Ok true)
    else (w, Ok false).
Proof. intros Hp. unfold cv2_imwrite. by rewrite Hp. Qed.

Lemma cv2_imwrite_out p img w : w_out (fst (cv2_imwrite p img w)) = w_out w.
Proof. unfold cv2_imwrite. destruct (cv2_has_writer p); [|done]. by destruct (is_dir w (parent p)). Qed.

Lemma after_last_dot_app a t :
  after_last_dot t = None -> after_last_dot (a +:+ String "."%char t) = Some t.
Proof.
  intros Ht. induction a as [|c a IH].
  - change (after_last_dot (String "."%char t) = Some t). cbn. by rewrite Ht.
  - rewrite str_app_cons. cbn. by rewrite IH.
Qed.

Lemma concat_snoc (p : path) x : exists pre, String.concat "\" (app p [x]) = pre +:+ x.
Proof.
  induction p as [|a [|b p] IH].
  - by exists "".
  - exists (a +:+ "\"). cbn. by rewrite str_app_assoc.
  - destruct IH as [pre Hpre]. exists (a +:+ "\" +:+ pre).
    change (String.concat "\" (a :: app (b :: p) [x]) = (a +:+ "\" +:+ pre) +:+ x).
    cbn [app]. change (a +:+ "\" +:+ String.concat "\" (b :: app p [x]) = (a +:+ "\" +:+ pre) +:+ x).
    change (String.concat "\" (b :: app p [x])) with (String.concat "\" (app (b :: p) [x])).
    by rewrite Hpre, !str_app_assoc.
Qed.

(** A file name ending in [.<e>] for an encoder's extension [e] has a
    writer, whatever folder it is in. *)
Lemma cv2_has_writer_snoc (p : path) a e :
  after_last_dot e = None -> In (ext_token e) cv2_encoders ->
  cv2_has_writer (app p [a +:+ String "."%char e]) = true.
Proof.
  intros He Hin. unfold cv2_has_writer. destruct (concat_snoc p (a +:+ String "."%char e)) as [pre ->].
  rewrite <- str_app_assoc, after_last_dot_app by done.
  apply bool_decide_eq_true_2. by apply list_elem_of_In.
Qed.

(** ** Listing a directory *)

Lemma child_name_snoc d n : child_name d (app d [n]) = Some n.
Proof. unfold child_name. rewrite last_snoc, removelast_last. by rewrite bool_decide_eq_true_2. Qed.

(** [os.listdir(d)] lists every file of [d], each name once. *)
Lemma listdir_lists d n c w :
  is_dir w d = true -> w_files w !! app d [n] = Some c ->
  exists names, listdir d w = (w, Ok names) /\ In n names /\ NoDup names.
Proof.
  intros Hd Hf. unfold listdir. rewrite Hd. eexists. split; [reflexivity|]. split.
  - rewrite <- list_elem_of_In, elem_of_remove_dups, list_elem_of_omap.
    exists (app d [n]). split; [|apply child_name_snoc].
    apply elem_of_app. left. apply list_elem_of_fmap. exists (app d [n], c). split; [done|].
    by apply elem_of_map_to_list.
  - apply NoDup_remove_dups.
Qed.

Lemma prefixes_self p : p <> [] -> In p (prefixes p).
Proof.
  intros Hp. unfold prefixes. apply in_map_iff. exists (length p). split; [apply take_ge; lia|].
  apply in_seq. destruct p; [done|]. simpl. lia.
Qed.

Lemma prefixes_prefix p q : In q (prefixes p) -> q `prefix_of` p.
Proof. unfold prefixes. intros (n & <- & _)%in_map_iff. apply prefix_take. Qed.

Lemma child_name_Some d p n : child_name d p = Some n -> p = app d [n].
Proof.
  unfold child_name. destruct (last p) as [m|] eqn:Hl; [|done].
  case_bool_decide as Hd; [|done]. intros [= <-]. apply last_Some in Hl as [l ->].
  rewrite removelast_last in Hd. by subst.
Qed.

(** [os.listdir(d)] lists exactly the files and directories of [d]. *)
Lemma listdir_iff d w :
  is_dir w d = true -> exists names, listdir d w = (w, Ok names) /\ NoDup names /\
    forall n, In n names <-> is_file w (app d [n]) = true \/ app d [n] ∈ w_dirs w.
Proof.
  intros Hd. unfold listdir. rewrite Hd. eexists. split_and!; [reflexivity|apply NoDup_remove_dups|].
  intros n. rewrite <- list_elem_of_In, elem_of_remove_dups, list_elem_of_omap. split.
  - intros (p & Hp & Hc). apply child_name_Some in Hc as ->.
    apply elem_of_app in Hp as [Hp|Hp].
    + left. apply list_elem_of_fmap in Hp as ([q c] & Hqe & Hq). apply elem_of_map_to_list in Hq.
      cbn in Hqe. subst q. unfold is_file. apply bool_decide_eq_true_2. by rewrite Hq.
    + right. by apply elem_of_elements in Hp.
  - intros [Hf|Hdir]; exists (app d [n]); (split; [|apply child_name_snoc]); apply elem_of_app.
    + left. unfold is_file in Hf. apply bool_decide_eq_true_1 in Hf as [c Hc].
      apply list_elem_of_fmap. exists (app d [n], c). split; [done|]. by apply elem_of_map_to_list.
    + right. by apply elem_of_elements.
Qed.

(** After a successful [os.makedirs(p)], [p] is a directory. *)
Lemma makedirs_ok p w :
  p <> [] -> existsb (is_file w) (prefixes p) = false ->
  makedirs p w = (set_dirs w (list_to_set (prefixes p) ∪ w_dirs w), Ok tt) /\
  p ∈ w_dirs (set_dirs w (list_to_set (prefixes p) ∪ w_dirs w)).
Proof.
  intros Hp He. unfold makedirs. rewrite He. split; [done|]. simpl.
  apply elem_of_union_l, elem_of_list_to_set, list_elem_of_In, prefixes_self, Hp.
Qed.

Lemma is_file_Some w p c : w_files w !! p = Some c -> is_file w p = true.
Proof. intros Hp. apply bool_decide_eq_true_2. by rewrite Hp. Qed.

Lemma is_file_None w p : w_files w !! p = None -> is_file w p = false.
Proof. intros Hp. apply bool_decide_eq_false_2. rewrite Hp. apply is_Some_None. Qed.

Lemma pil_open_Some w p pic : w_files w !! p = Some (CPicture pic) -> pil_open p w = (w, Ok pic).
Proof. intros Hp. unfold pil_open. by rewrite Hp. Qed.

Lemma put_file_dir w p c :
  is_dir w (parent p) = true -> put_file p c w = (set_files w (<[p := c]> (w_files w)), Ok tt).
Proof. intros Hd. unfold put_file. by rewrite Hd. Qed.

(** ** The console only grows *)

(** [m] only appends to the console. *)
Definition out_grows {A} (m : io A) : Prop :=
  forall w, w_out w `prefix_of` w_out (fst (m w)).

Lemma out_grows_same {A} (m : io A) : (forall w, w_out (fst (m w)) = w_out w) -> out_grows m.
Proof. intros H w. by rewrite H. Qed.

Lemma out_grows_bind {A B} (m : io A) (k : A -> io B) :
  out_grows m -> (forall a, out_grows (k a)) -> out_grows (io_bind m k).
Proof.
  intros Hm Hk w. unfold io_bind. specialize (Hm w).
  destruct (m w) as [w' [a|e]]; simpl in *; [|done]. etransitivity; [exact Hm|apply Hk].
Qed.

Lemma out_grows_try {A} (m : io A) (h : exn -> io A) :
  out_grows m -> (forall e, out_grows (h e)) -> out_grows (io_try m h).
Proof.
  intros Hm Hh w. unfold io_try. specialize (Hm w).
  destruct (m w) as [w' [a|e]]; simpl in *; [done|]. etransitivity; [exact Hm|apply Hh].
Qed.

Lemma out_grows_iter {A} (body : A -> io unit) xs :
  (forall x, out_grows (body x)) -> out_grows (io_iter body xs).
Proof.
  intros Hb. induction xs as [|x xs IH]; simpl; [by intros w|].
  apply out_grows_bind; [apply Hb|]. by intros _.
Qed.

Lemma out_grows_print line s : out_grows (print line s).
Proof. intros w. simpl. by apply prefix_app_r. Qed.

Lemma out_grows_path_exists q : out_grows (path_exists q).
Proof. by intros w. Qed.

Lemma out_grows_ret {A} (a : A) : out_grows (io_ret a).
Proof. by intros w. Qed.

Lemma in_out_grows {A} (m : io A) w x : out_grows m -> In x (w_out w) -> In x (w_out (fst (m w))).
Proof.
  intros Hm Hx. destruct (Hm w) as [k ->]. apply in_or_app. by left.
Qed.

(** ** A loop as a step relation

    [for x in xs: body(x)] as a machine: a state holds the items still
    to do, the world, and the exception that ended the loop, if any;
    each step runs the body on the next item.  [eventually P s]: every
    run from [s] reaches a state satisfying [P] (the step relation is
    deterministic, so this is the one run). *)

Section LoopMachine.
Context {A : Type} (body : A -> io unit).

Record loop_state : Type := LoopState { todo : list A; lw : world; lerr : option exn }.

Inductive loop_step : loop_state -> loop_state -> Prop :=
| loop_step_ok x xs w w' :
    body x w = (w', Ok tt) -> loop_step (LoopState (x :: xs) w None) (LoopState xs w' None)
| loop_step_raise x xs w w' e :
    body x w = (w', Raise e) -> loop_step (LoopState (x :: xs) w None) (LoopState [] w' (Some e)).

Inductive eventually (P : loop_state -> Prop) : loop_state -> Prop :=
| eventually_done s : P s -> eventually P s
| eventually_step s s' : loop_step s s' -> eventually P s' -> eventually P s.

Lemma eventually_weaken (P Q : loop_state -> Prop) s :
  eventually P s -> (forall s', P s' -> Q s') -> eventually Q s.
Proof. induction 1; intros HPQ; [by constructor; apply HPQ|]. eapply eventually_step; eauto. Qed.

(** The machine runs the loop: it reaches the end of the list with the
    world and outcome of [io_iter]. *)
Lemma loop_runs xs :
  forall w, eventually (fun s => todo s = [] /\
    io_iter body xs w = (lw s, match lerr s with None => Ok tt | Some e => Raise e end))
    (LoopState xs w None).
Proof.
  induction xs as [|x xs IH]; intros w; [by apply eventually_done|].
  destruct (body x w) as [w' [[]|e]] eqn:Hb.
  - eapply eventually_step; [by apply loop_step_ok|].
    eapply eventually_weaken; [apply IH|]. intros s [Hd Hs]. split; [done|].
    simpl. unfold io_bind. by rewrite Hb.
  - eapply eventually_step; [by apply loop_step_raise|]. apply eventually_done.
    split; [done|]. simpl. unfold io_bind. by rewrite Hb.
Qed.

(** When every step succeeds and establishes [Q] for its item, and every
    step preserves [Q] of the items already done, the loop reaches its
    end without exception and with [Q] for every item. *)
Lemma loop_eventually_all (Q : A -> world -> Prop) :
  (forall x w, exists w', body x w = (w', Ok tt) /\ Q x w') ->
  (forall x y w w', Q y w -> body x w = (w', Ok tt) -> Q y w') ->
  forall xs w done, (forall y, In y done -> Q y w) ->
  eventually (fun s => todo s = [] /\ lerr s = None /\ forall y, In y (app done xs) -> Q y (lw s))
    (LoopState xs w None).
Proof.
  intros Hest Hpres xs. induction xs as [|x xs IH]; intros w done Hdone.
  - apply eventually_done. split_and!; [done|done|]. by rewrite app_nil_r.
  - destruct (Hest x w) as (w1 & Hb & Hq).
    eapply eventually_step; [by apply loop_step_ok|].
    eapply eventually_weaken; [apply (IH w1 (app done [x]))|].
    + intros y [Hy|[<-|[]]]%in_app_or; [|done]. eapply Hpres; [apply Hdone, Hy|exact Hb].
    + intros s (? & ? & Hall). split_and!; [done|done|]. intros y Hy. apply Hall.
      by rewrite <- app_assoc.
Qed.
(** The same facts read off the loop's result directly. *)
Lemma io_iter_all (Q : A -> world -> Prop) :
  (forall x w, exists w', body x w = (w', Ok tt) /\ Q x w') ->
  (forall x y w w', Q y w -> body x w = (w', Ok tt) -> Q y w') ->
  forall xs w, exists w', io_iter body xs w = (w', Ok tt) /\ forall y, In y xs -> Q y w'.
Proof.
  intros Hest Hpres xs w.
  enough (Hg : forall done, (forall y, In y done -> Q y w) ->
            exists w', io_iter body xs w = (w', Ok tt) /\ forall y, In y (app done xs) -> Q y w').
  { destruct (Hg [] ltac:(by intros ? [])) as (w' & ? & ?). by exists w'. }
  revert w. induction xs as [|x xs IH]; intros w done Hdone.
  - exists w. rewrite app_nil_r. by split.
  - destruct (Hest x w) as (w1 & Hb & Hq).
    destruct (IH w1 (app done [x])) as (w2 & Hrun & Hall).
    + intros y [Hy|[<-|[]]]%in_app_or; [eapply Hpres; [apply Hdone, Hy|exact Hb]|done].
    + exists w2. split; [simpl; unfold io_bind; by rewrite Hb|].
      intros y Hy. apply Hall. by rewrite <- app_assoc.
Qed.
End LoopMachine.

#[export] Hint Constructors loop_step eventually : pyimg.
