(* ===== verification/MaskToLabel.v ===== *)
(** * MaskToLabel: [convert_mask_to_polygons] of toPoligon.py

    [convert_mask_to_polygons(mask_path, output_label_path,
    class_mapping)] (toPoligon.py, lines 45-67) loads the mask with PIL,
    opens the label file for writing, and for every [(pixel_value,
    class_id)] of the mapping, in the dict's order, builds the binary
    mask [mask == pixel_value], skips it when its [.sum()] is 0, and
    otherwise writes ["<class_id> <x> <y> <w> <h>\n"], the box coming
    from [mask_utils.encode] (with the counts decoded to [str]) and
    [mask_utils.toBbox].

    - [class_line] is one iteration of the loop; [convert_loop] the loop;
      [convert_mask_to_polygons] the whole function over the [world].
    - [encode_py] and [toBbox_py] are the Python wrappers of pycocotools
      around [rleEncode]/[rleToString] and [rleFrString]/[rleToBbox].
    - The [.sum()] accumulator has [sum_bits] bits (a [Context] of the
      section: 32 with numpy 1.x on Windows, 64 elsewhere).

    The main theorem ([convert_writes_labels]) states that the label file
    holds one line per class present in the mask, in the mapping's
    order, whose four numbers are the smallest rectangle holding the
    class's pixels.  On a three-channel mask no line is ever written:
    the file is truncated and [TypeError] raised at the first class
    present in some channel ([convert_color_mask_empty_labels]).  A
    path that holds no picture raises before the label file is opened
    ([convert_unreadable_mask]). *)

From Stdlib Require Import DecimalString.
From S2P Require Import Prelude Raster Rle RleString FileSystem.

Local Open Scope string_scope.

(** ** Printing numbers *)

Definition str_int (z : Z) : string :=
  if (z <? 0)%Z then "-" +:+ str_N (Z.to_N (- z)) else str_N (Z.to_N z).

(** [str(np.float64(n))] of an integral value below [10^16]: the digits
    and [".0"] (larger values use an exponent; a box of an image has
    coordinates far below). *)
Definition str_float_int (n : nat) : string := str_N (N.of_nat n) +:+ ".0".

Definition newline : string := String (Ascii.ascii_of_nat 10) "".

(** [f"{class_id} " + " ".join(map(str, polygons)) + "\n"] *)
Definition label_line (cid : Z) (bb : list nat) : string :=
  str_int cid +:+ " " +:+ String.concat " " (map str_float_int bb) +:+ newline.

(** ** The Python side of pycocotools *)

(** [bytes.decode('utf-8')]: ASCII bytes only (the counts string has
    characters 48 to 111); a byte above 127 starts a multi-byte
    sequence, not modelled, and raises here. *)
Definition utf8_decode (b : list Z) : res string :=
  if forallb (fun z => (0 <=? z) && (z <? 128))%Z b
  then Ok (String.string_of_list_ascii (map (fun z => Ascii.ascii_of_nat (Z.to_nat z)) b))
  else Raise (ValueError "utf-8").

(** [str.encode(s)] on an ASCII string. *)
Definition utf8_encode (s : string) : list Z :=
  map (fun a => Z.of_nat (Ascii.nat_of_ascii a)) (String.list_ascii_of_string s).

(** The dict [{'size': [h, w], 'counts': ...}] after
    [rle['counts'] = rle['counts'].decode('utf-8')]. *)
Record py_rle : Type := PyRle { py_size : nat * nat; py_counts : string }.

(** [mask_utils.encode(np.asfortranarray(binary_mask))] followed by the
    decode of line 63. *)
Definition encode_py (m : grid bool) : res py_rle :=
  let R := mask_encode m in
  s <- utf8_decode (rleToString R) ;;
  Ok (PyRle (rle_h R, rle_w R) s).

(** [mask_utils.toBbox(rle)]: [_frString] then [rleToBbox].  The [None]
    of [rleFrString] (a cut number, where the C code reads past the
    string) is a [ValueError] here; it does not arise from [encode_py]
    ([rleFrString_rleToString]). *)
Definition toBbox_py (r : py_rle) : res (list nat) :=
  match rleFrString (utf8_encode (py_counts r)) (fst (py_size r)) (snd (py_size r)) with
  | Some R => Ok (rleToBbox R)
  | None => Raise (ValueError "rleFrString")
  end.

Section Converter.
Context (sum_bits : Z).

(** [(mask == pixel_value)] on a three-channel array compares every
  channel; its [.sum()] counts the matching channels. *)
Definition color_matches (g : grid px3) (pv : Z) : grid bool :=
  map (fun row => concat (map (fun p => [Z.eqb (ch0 p) pv; Z.eqb (ch1 p) pv; Z.eqb (ch2 p) pv]) row)) g.

(** One iteration of the loop of lines 56-67: [Ok None] for
  [continue], [Ok (Some line)] for the line written.  On a
  three-channel mask [mask_utils.encode] returns a list of three
  RLEs and [rle['counts']] raises [TypeError]. *)
Definition class_line (pic : picture) (pv cid : Z) : res (option string) :=
  match pic with
  | Gray g =>
      let binary_mask := eq_scalar g pv in
      if (np_sum sum_bits binary_mask =? 0)%Z then Ok None
      else
        rle <- encode_py binary_mask ;;
        polygons <- toBbox_py rle ;;
        Ok (Some (label_line cid polygons))
  | Color g =>
      if (np_sum sum_bits (color_matches g pv) =? 0)%Z then Ok None
      else Raise (TypeError "list indices must be integers or slices, not str")
  end.

(** [for pixel_value, class_id in class_mapping.items(): ...] *)
Definition convert_loop (pic : picture) (out : path) (mapping : list (Z * Z)) : io unit :=
  io_iter (fun '(pv, cid) =>
             do o <- io_lift (class_line pic pv cid);
             match o with
             | Some line => append_text out line
             | None => io_ret tt
             end) mapping.

(** [convert_mask_to_polygons(mask_path, output_label_path, class_mapping)] *)
Definition convert_mask_to_polygons (mask_path out : path) (mapping : list (Z * Z)) : io unit :=
  do pic <- pil_open mask_path;
  do _ <- open_w out;
  convert_loop pic out mapping.
End Converter.

(** ** The Python wrappers of pycocotools *)

Lemma utf8_map_roundtrip (b : list Z) :
  Forall (fun z => 0 <= z < 256)%Z b ->
  map (fun a => Z.of_nat (Ascii.nat_of_ascii a)) (map (fun z => Ascii.ascii_of_nat (Z.to_nat z)) b) = b.
Proof.
  induction b as [|z b IH]; intros Hb; [done|]. inversion Hb as [|? ? Hz Hb']; subst.
  simpl. rewrite Ascii.nat_ascii_embedding by lia. rewrite Z2Nat.id by lia. by rewrite IH.
Qed.

Lemma utf8_decode_encode (b : list Z) :
  Forall (fun z => 0 <= z < 128)%Z b ->
  exists s, utf8_decode b = Ok s /\ utf8_encode s = b.
Proof.
  intros Hb. unfold utf8_decode.
  replace (forallb _ b) with true.
  - eexists. split; [reflexivity|]. unfold utf8_encode.
    rewrite String.list_ascii_of_string_of_list_ascii. apply utf8_map_roundtrip.
    eapply Forall_impl; [exact Hb|]. simpl. lia.
  - symmetry. induction b as [|z b IH]; [done|]. inversion Hb as [|? ? Hz Hb']; subst.
    simpl. rewrite IH by done. destruct Hz as [Hz1 Hz2].
    apply Z.leb_le in Hz1. apply Z.ltb_lt in Hz2. by rewrite Hz1, Hz2.
Qed.

(** Every count of the encoding of a mask below [2^29] pixels is below
    [2^29]: the range where [rleFrString] is defined. *)
Lemma mask_encode_counts_small h w m :
  grid_wf h w m -> h <> 0 -> (Z.of_nat (h * w) < 2 ^ 29)%Z ->
  Forall (fun c => Z.of_nat c < 2 ^ 29)%Z (rle_cnts (mask_encode m)).
Proof.
  intros Hwf Hh Hb. destruct (rleEncode_counts (grid_h m) (grid_w m) (fortran_flat false (grid_w m) m))
    as [Hsum _].
  unfold mask_encode in *. destruct (grid_wf_shape h w m Hwf Hh) as [Hgh Hgw].
  rewrite Hgh, Hgw in *. destruct Hwf as [Hl _].
  rewrite (length_fortran_flat _ h) in Hsum by done.
  apply Forall_forall. intros c Hc. apply list_elem_of_In, elem_le_list_sum in Hc. lia.
Qed.

(** [mask_utils.toBbox] of [mask_utils.encode] (through the [str]
    counts) is [rleToBbox] of [rleEncode]. *)
Lemma toBbox_encode_py h w m :
  grid_wf h w m -> h <> 0 -> (Z.of_nat (h * w) < 2 ^ 29)%Z ->
  exists r, encode_py m = Ok r /\ toBbox_py r = Ok (rleToBbox (mask_encode m)).
Proof.
  intros Hwf Hh Hb. unfold encode_py.
  destruct (utf8_decode_encode (rleToString (mask_encode m))) as (s & Hd & He).
  { eapply Forall_impl; [apply rleToString_chars|]. simpl. lia. }
  rewrite Hd. eexists. split; [reflexivity|]. unfold toBbox_py. simpl. rewrite He.
  rewrite rleFrString_rleToString; [done|]. by apply (mask_encode_counts_small h w).
Qed.

(** ** One class *)

(** The pixel value occurs in the mask. *)
Definition occurs (g : grid Z) (pv : Z) : bool := existsb (existsb (fun v => Z.eqb v pv)) g.

Lemma occurs_count g pv : occurs g pv = true <-> count_true (concat (eq_scalar g pv)) <> 0.
Proof.
  rewrite count_true_In, in_concat. unfold occurs, eq_scalar, grid_map.
  rewrite existsb_exists. split.
  - intros (row & Hrow & Hr). apply existsb_exists in Hr as (v & Hv & Hvp).
    exists (map (fun p => Z.eqb p pv) row). split; [by apply in_map|].
    apply in_map_iff. eauto.
  - intros (r & Hr & Ht). apply in_map_iff in Hr as (row & <- & Hrow).
    exists row. split; [done|]. apply in_map_iff in Ht as (v & Hv & Hin).
    apply existsb_exists. eauto.
Qed.

Lemma occurs_pixel h w g pv :
  grid_wf h w g -> occurs g pv = true <-> exists x y, pixel_set h w (eq_scalar g pv) x y.
Proof.
  intros Hwf. rewrite occurs_count. apply count_pixel. by apply grid_wf_map.
Qed.

Lemma np_sum_eq0 bits h w (m : grid bool) :
  grid_wf h w m -> (0 <= bits)%Z -> (Z.of_nat (h * w) < 2 ^ bits)%Z ->
  (np_sum bits m =? 0)%Z = negb (bool_decide (count_true (concat m) <> 0)).
Proof.
  intros Hwf Hbits Hb. unfold np_sum.
  pose proof (count_true_le (concat m)) as Hle. rewrite (length_concat_wf h w m Hwf) in Hle.
  rewrite Z.mod_small by lia.
  destruct (bool_decide_reflect (count_true (concat m) <> 0)); simpl; lia.
Qed.

(** One iteration of the loop on a one-channel mask: [continue] when the
    value does not occur, else the line of the box of its pixels. *)
Lemma class_line_gray sum_bits h w g pv cid :
  grid_wf h w g -> h <> 0 -> (Z.of_nat (h * w) < 2 ^ 29)%Z ->
  (0 <= sum_bits)%Z -> (Z.of_nat (h * w) < 2 ^ sum_bits)%Z ->
  class_line sum_bits (Gray g) pv cid =
    if occurs g pv then Ok (Some (label_line cid (rleToBbox (mask_encode (eq_scalar g pv)))))
    else Ok None.
Proof.
  intros Hwf Hh Hb Hbits Hsb. simpl.
  pose proof (grid_wf_map (fun p => Z.eqb p pv) h w g Hwf) as Hwf'.
  rewrite (np_sum_eq0 sum_bits h w) by done.
  destruct (occurs g pv) eqn:Eo.
  - apply occurs_count in Eo. rewrite bool_decide_eq_true_2 by done. simpl.
    destruct (toBbox_encode_py h w (eq_scalar g pv) Hwf' Hh Hb) as (r & -> & Hr).
    simpl. by rewrite Hr.
  - assert (Hc : ~ count_true (concat (eq_scalar g pv)) <> 0).
    { intros Hc. apply occurs_count in Hc. congruence. }
    by rewrite bool_decide_eq_false_2.
Qed.

(** ** The label file *)

(** The entries of the mapping whose pixel value occurs in the mask, in
    the mapping's order. *)
Definition present (g : grid Z) (mapping : list (Z * Z)) : list (Z * Z) :=
  filter (fun e => occurs g e.1 = true) mapping.

(** What the label file should hold: one line per present entry, with
    its class id and the smallest rectangle holding its pixels. *)
Definition labels_spec (h w : nat) (g : grid Z) (mapping : list (Z * Z)) (txt : string) : Prop :=
  exists bbs : list (list nat),
    Forall2 (fun e bb => is_tight_bbox h w (eq_scalar g e.1) bb) (present g mapping) bbs /\
    txt = foldr String.append "" (zip_with (fun e bb => label_line e.2 bb) (present g mapping) bbs).

Lemma convert_loop_cons sb pic out pv cid mapping w :
  convert_loop sb pic out ((pv, cid) :: mapping) w =
    match class_line sb pic pv cid with
    | Ok (Some line) =>
        match append_text out line w with
        | (w', Ok _) => convert_loop sb pic out mapping w'
        | (w', Raise e) => (w', Raise e)
        end
    | Ok None => convert_loop sb pic out mapping w
    | Raise e => (w, Raise e)
    end.
Proof.
  unfold convert_loop. cbn [io_iter]. unfold io_bind at 1 2, io_lift.
  destruct (class_line sb pic pv cid) as [[line|]|e]; [|reflexivity|reflexivity].
  by destruct (append_text out line w) as [? []].
Qed.

Section Loop.
Context (sum_bits : Z) (h w : nat) (g : grid Z).
Hypotheses (Hwf : grid_wf h w g) (Hh : h <> 0) (Hb : (Z.of_nat (h * w) < 2 ^ 29)%Z)
  (Hbits : (0 <= sum_bits)%Z) (Hsb : (Z.of_nat (h * w) < 2 ^ sum_bits)%Z).

Lemma convert_loop_spec out mapping :
  forall w0 txt0, w_files w0 !! out = Some (CText txt0) ->
  exists txt,
    convert_loop sum_bits (Gray g) out mapping w0 =
      (set_files w0 (<[out := CText (txt0 +:+ txt)]> (w_files w0)), Ok tt) /\
    labels_spec h w g mapping txt.
Proof.
  induction mapping as [|[pv cid] mapping IH]; intros w0 txt0 Hout.
  - exists "". split.
    + by rewrite str_app_nil_r, insert_id, set_files_id.
    + exists []. split; [constructor|done].
  - rewrite convert_loop_cons, (class_line_gray sum_bits h w g pv cid) by done.
    set (bb := rleToBbox (mask_encode (eq_scalar g pv))).
    destruct (occurs g pv) eqn:Eo.
    + unfold append_text. rewrite Hout.
      destruct (IH (set_files w0 (<[out := CText (txt0 +:+ label_line cid bb)]> (w_files w0)))
                  _ (lookup_insert_eq _ _ _)) as (txt & Hrun & bbs & Hbbs & Htxt).
      exists (label_line cid bb +:+ txt). split.
      * rewrite Hrun. autorewrite with pyimg. by rewrite insert_insert_eq, str_app_assoc.
      * exists (bb :: bbs).
        unfold present. rewrite filter_cons_True by done. split.
        -- constructor; [|exact Hbbs]. apply toBbox_encode_tight; [by apply grid_wf_map|done|].
           by apply (occurs_pixel h w g pv Hwf).
        -- simpl. by rewrite Htxt.
    + destruct (IH w0 txt0 Hout) as (txt & Hrun & Hspec).
      exists txt. split.
      * exact Hrun.
      * unfold labels_spec, present. rewrite filter_cons_False by (cbn; rewrite Eo; discriminate).
        exact Hspec.
Qed.
End Loop.

(** [convert_mask_to_polygons] on a one-channel mask. *)
Lemma convert_mask_run sum_bits w0 mp out mapping h w g :
  w_files w0 !! mp = Some (CPicture (Gray g)) -> grid_wf h w g -> h <> 0 ->
  (Z.of_nat (h * w) < 2 ^ 29)%Z -> (0 <= sum_bits)%Z -> (Z.of_nat (h * w) < 2 ^ sum_bits)%Z ->
  is_dir w0 (parent out) = true ->
  exists txt,
    convert_mask_to_polygons sum_bits mp out mapping w0 =
      (set_files w0 (<[out := CText txt]> (w_files w0)), Ok tt) /\
    labels_spec h w g mapping txt.
Proof.
  intros Hmp Hwf Hh Hb Hbits Hsb Hdir.
  unfold convert_mask_to_polygons, io_bind at 1, pil_open. rewrite Hmp.
  unfold io_bind at 1, open_w, put_file. rewrite Hdir.
  destruct (convert_loop_spec sum_bits h w g Hwf Hh Hb Hbits Hsb out mapping
              (set_files w0 (<[out := CText ""]> (w_files w0))) "" (lookup_insert_eq _ _ _))
    as (txt & Hrun & Hspec).
  exists txt. rewrite Hrun. autorewrite with pyimg. rewrite insert_insert_eq. by split.
Qed.

(** C1 (functional): on a one-channel mask of [h > 0] rows and [w]
    columns, below [2^29] pixels and below the range of the [.sum()]
    accumulator, [convert_mask_to_polygons] returns normally, changes
    nothing but the label file, and leaves in it one line
    ["<class_id> <x>.0 <y>.0 <width>.0 <height>.0\n"] per mapping entry
    whose pixel value occurs in the mask, in the mapping's order, where
    [x, y, width, height] is the smallest rectangle holding the pixels
    of that value. *)
Theorem convert_writes_labels sum_bits w0 mp out mapping h w g :
  w_files w0 !! mp = Some (CPicture (Gray g)) -> grid_wf h w g -> h <> 0 ->
  (Z.of_nat (h * w) < 2 ^ 29)%Z -> (0 <= sum_bits)%Z -> (Z.of_nat (h * w) < 2 ^ sum_bits)%Z ->
  is_dir w0 (parent out) = true ->
  exists txt,
    convert_mask_to_polygons sum_bits mp out mapping w0 =
      (set_files w0 (<[out := CText txt]> (w_files w0)), Ok tt) /\
    labels_spec h w g mapping txt.
Proof. apply convert_mask_run. Qed.

(** C22 (functional): a pixel value that does not occur in a one-channel
    mask writes no line (the [continue] of line 59). *)
Theorem class_line_absent sum_bits g pv cid :
  occurs g pv = false -> class_line sum_bits (Gray g) pv cid = Ok None.
Proof.
  intros Eo. simpl. unfold np_sum.
  assert (Hc : count_true (concat (eq_scalar g pv)) = 0).
  { destruct (decide (count_true (concat (eq_scalar g pv)) = 0)) as [|Hne]; [done|].
    apply occurs_count in Hne. congruence. }
  by rewrite Hc.
Qed.

(** ** Three-channel masks *)

Definition color_present (sum_bits : Z) (g : grid px3) (mapping : list (Z * Z)) : bool :=
  existsb (fun e => negb (np_sum sum_bits (color_matches g e.1) =? 0)%Z) mapping.

Lemma convert_loop_color sum_bits g out mapping w :
  convert_loop sum_bits (Color g) out mapping w =
    (w, if color_present sum_bits g mapping
        then Raise (TypeError "list indices must be integers or slices, not str") else Ok tt).
Proof.
  induction mapping as [|[pv cid] mapping IH]; [done|].
  rewrite convert_loop_cons. unfold color_present. cbn [class_line existsb fst].
  by destruct (np_sum sum_bits (color_matches g pv) =? 0)%Z.
Qed.

(** C18 (error): on a three-channel mask [convert_mask_to_polygons]
    never writes a label line: it truncates the label file, then raises
    [TypeError] at the first mapping entry whose value occurs in some
    channel ([mask_utils.encode] returns a list of RLEs there, and
    [rle['counts']] indexes a list by a string), and returns normally
    only when no value occurs.  Either way the label file is left
    empty. *)
Theorem convert_color_mask_empty_labels sum_bits w0 mp out mapping g :
  w_files w0 !! mp = Some (CPicture (Color g)) -> is_dir w0 (parent out) = true ->
  convert_mask_to_polygons sum_bits mp out mapping w0 =
    (set_files w0 (<[out := CText ""]> (w_files w0)),
     if color_present sum_bits g mapping
     then Raise (TypeError "list indices must be integers or slices, not str") else Ok tt).
Proof.
  intros Hmp Hdir.
  unfold convert_mask_to_polygons, io_bind at 1, pil_open. rewrite Hmp.
  unfold io_bind at 1, open_w, put_file. rewrite Hdir.
  apply convert_loop_color.
Qed.

(** C21 (error): the mask is loaded before the label file is opened
    (line 54 before line 55): when the mask path holds no picture,
    [convert_mask_to_polygons] raises the error of [Image.open]
    ([FileNotFoundError] for a missing file, [UnidentifiedImageError]
    otherwise) and changes nothing; no empty label file is left. *)
Theorem convert_unreadable_mask sum_bits w0 mp out mapping :
  (forall pic, w_files w0 !! mp <> Some (CPicture pic)) ->
  convert_mask_to_polygons sum_bits mp out mapping w0 =
    (w0, Raise (match w_files w0 !! mp with
                | None => FileNotFoundError (String.concat "\" mp)
                | Some _ => UnidentifiedImageError (String.concat "\" mp)
                end)).
Proof.
  intros Hnp. unfold convert_mask_to_polygons, io_bind at 1, pil_open.
  destruct (w_files w0 !! mp) as [[pic| | | ]|]; [by destruct (Hnp pic)|done..].
Qed.

(** ** Examples *)

Definition example_gray : grid Z := [[0; 0; 0; 0]; [0; 1; 1; 0]; [0; 1; 0; 0]]%Z.

Definition example_world : world :=
  mkWorld {[ ["d"; "a_mask.png"] := CPicture (Gray example_gray) ]} {[ ["d"] ]} [] 0 None.

Example convert_example :
  w_files (convert_mask_to_polygons 64 ["d"; "a_mask.png"] ["d"; "a.txt"]
             [(0, 0); (1, 1); (7, 2)]%Z example_world).1 !! ["d"; "a.txt"] =
  Some (CText ("0 0.0 0.0 4.0 3.0" +:+ newline +:+ "1 1.0 1.0 2.0 2.0" +:+ newline)).
Proof. vm_compute. reflexivity. Qed.

Lemma convert_writes_labels_witness :
  exists txt,
    convert_mask_to_polygons 64 ["d"; "a_mask.png"] ["d"; "a.txt"] [(0, 0); (1, 1); (7, 2)]%Z
      example_world =
      (set_files example_world (<[["d"; "a.txt"] := CText txt]> (w_files example_world)), Ok tt) /\
    labels_spec 3 4 example_gray [(0, 0); (1, 1); (7, 2)]%Z txt.
Proof.
  apply convert_writes_labels.
  - reflexivity.
  - split; [reflexivity|repeat constructor].
  - lia.
  - lia.
  - lia.
  - lia.
  - vm_compute. reflexivity.
Defined.

Lemma class_line_absent_witness :
  class_line 64 (Gray example_gray) 7 2 = Ok None.
Proof. apply class_line_absent. reflexivity. Defined.

(** ** Lines 62-64 at the level of the script *)

Section Lines62to64.
Context (h w : nat) (g : grid Z) (pv : Z).
Hypotheses (Hwf : grid_wf h w g) (Hh : h <> 0) (Hb : (Z.of_nat (h * w) < 2 ^ 29)%Z).

Let Hwf' : grid_wf h w (eq_scalar g pv) := grid_wf_map _ h w g Hwf.

(** C4 (refinement): when [pixel_value] occurs, [polygons] of line 64
  ([mask_utils.toBbox] of the encoding of line 62 after the decode of
  line 63) is the smallest rectangle [x, y, width, height] holding
  every pixel of that value. *)
Theorem toBbox_py_tight :
  occurs g pv = true ->
  exists rle polygons,
    encode_py (eq_scalar g pv) = Ok rle /\ toBbox_py rle = Ok polygons /\
    is_tight_bbox h w (eq_scalar g pv) polygons.
Proof.
  intros Eo. destruct (toBbox_encode_py h w (eq_scalar g pv) Hwf' Hh Hb) as (r & Hr & Hbb).
  exists r, (rleToBbox (mask_encode (eq_scalar g pv))). split_and!; [done|done|].
  apply toBbox_encode_tight; [done|done|]. by apply occurs_pixel.
Qed.

Lemma encode_py_frString :
  exists rle,
    encode_py (eq_scalar g pv) = Ok rle /\ py_size rle = (h, w) /\
    rleFrString (utf8_encode (py_counts rle)) (fst (py_size rle)) (snd (py_size rle)) =
      Some (mask_encode (eq_scalar g pv)).
Proof.
  unfold encode_py.
  destruct (utf8_decode_encode (rleToString (mask_encode (eq_scalar g pv)))) as (s & Hd & He).
  { eapply Forall_impl; [apply rleToString_chars|]. simpl. lia. }
  rewrite Hd. eexists. split; [reflexivity|]. simpl. rewrite He. split.
  - unfold mask_encode, rleEncode. simpl. by destruct (grid_wf_shape h w _ Hwf' Hh) as [-> ->].
  - apply rleFrString_rleToString. by apply (mask_encode_counts_small h w).
Qed.

(** C32 (roundtrip): the counts string of line 63 ([bytes.decode]) is
  read back by [toBbox]'s [_frString] as exactly the RLE that
  [mask_utils.encode] computed on line 62. *)
Theorem encode_py_counts_roundtrip :
  exists rle,
    encode_py (eq_scalar g pv) = Ok rle /\
    rleFrString (utf8_encode (py_counts rle)) (fst (py_size rle)) (snd (py_size rle)) =
      Some (mask_encode (eq_scalar g pv)).
Proof. destruct encode_py_frString as (rle & ? & _ & ?). by exists rle. Qed.

Lemma mask_encode_shape :
  rle_h (mask_encode (eq_scalar g pv)) = h /\ rle_w (mask_encode (eq_scalar g pv)) = w.
Proof. unfold mask_encode, rleEncode. simpl. by destruct (grid_wf_shape h w _ Hwf' Hh) as [-> ->]. Qed.

(** C33 (roundtrip): decoding the Python RLE of line 63 (its counts
  string read back, then [rleDecode]) gives back the Fortran-order
  buffer of the binary mask of line 57. *)
Theorem rleDecode_binary_mask :
  exists rle R,
    encode_py (eq_scalar g pv) = Ok rle /\ py_size rle = (h, w) /\
    rleFrString (utf8_encode (py_counts rle)) h w = Some R /\
    rleDecode R = fortran_flat false w (eq_scalar g pv).
Proof.
  destruct encode_py_frString as (rle & Hr & Hs & Hf). rewrite Hs in Hf.
  exists rle, (mask_encode (eq_scalar g pv)). split_and!; [done|done|done|].
  unfold mask_encode. destruct (grid_wf_shape h w _ Hwf' Hh) as [-> ->].
  apply rleDecode_rleEncode.
Qed.

(** C34 (invariant): the counts of the Python RLE of line 63, read back,
  add up to the [h * w] pixels of the mask, and all but the first are
  positive. *)
Theorem binary_mask_counts :
  exists rle R,
    encode_py (eq_scalar g pv) = Ok rle /\
    rleFrString (utf8_encode (py_counts rle)) (fst (py_size rle)) (snd (py_size rle)) = Some R /\
    list_sum (rle_cnts R) = h * w /\ Forall (fun n => 0 < n) (tail (rle_cnts R)).
Proof.
  destruct encode_py_frString as (rle & Hr & _ & Hf).
  exists rle, (mask_encode (eq_scalar g pv)). split_and!; [done|done| |];
    unfold mask_encode; destruct (grid_wf_shape h w _ Hwf' Hh) as [-> ->];
    destruct (rleEncode_counts h w (fortran_flat false w (eq_scalar g pv))) as [Hsum Hp]; [|done].
  rewrite Hsum, (length_fortran_flat _ h); [lia|]. apply Hwf'.
Qed.

End Lines62to64.

Lemma length_list_ascii_of_string (s : string) :
  length (String.list_ascii_of_string s) = String.length s.
Proof. induction s as [|a s IH]; simpl; [done|by rewrite IH]. Qed.

(** C35 (bounds): for a mask below [2^29] pixels the counts string of
    line 63 spends at most six characters per count, so that
    [rleFrString] never shifts an [int] by more than 25 bits. *)
Theorem encode_py_counts_length h w g pv :
  grid_wf h w g -> h <> 0 -> (Z.of_nat (h * w) < 2 ^ 29)%Z ->
  exists rle,
    encode_py (eq_scalar g pv) = Ok rle /\
    String.length (py_counts rle) <= 6 * length (rle_cnts (mask_encode (eq_scalar g pv))).
Proof.
  intros Hwf Hh Hb. pose proof (grid_wf_map (fun p => Z.eqb p pv) h w g Hwf) as Hwf'.
  pose proof (mask_encode_counts_small h w _ Hwf' Hh Hb) as Hsmall.
  unfold encode_py.
  destruct (utf8_decode_encode (rleToString (mask_encode (eq_scalar g pv)))) as (s & Hd & He).
  { eapply Forall_impl; [apply rleToString_chars|]. simpl. lia. }
  rewrite Hd. eexists. split; [reflexivity|]. simpl.
  apply (f_equal length) in He. unfold utf8_encode in He.
  rewrite length_map, length_list_ascii_of_string in He.
  rewrite He. unfold rleToString. by apply to_string_go_length.
Qed.

Lemma example_gray_wf : grid_wf 3 4 example_gray.
Proof. split; [reflexivity|repeat constructor]. Qed.

Ltac example_hyps := first [exact example_gray_wf | lia | reflexivity].

Lemma toBbox_py_tight_witness :
  exists rle polygons,
    encode_py (eq_scalar example_gray 1) = Ok rle /\ toBbox_py rle = Ok polygons /\
    is_tight_bbox 3 4 (eq_scalar example_gray 1) polygons.
Proof. apply (toBbox_py_tight 3 4 example_gray 1); example_hyps. Defined.

Lemma encode_py_counts_roundtrip_witness :
  exists rle,
    encode_py (eq_scalar example_gray 1) = Ok rle /\
    rleFrString (utf8_encode (py_counts rle)) (fst (py_size rle)) (snd (py_size rle)) =
      Some (mask_encode (eq_scalar example_gray 1)).
Proof. apply (encode_py_counts_roundtrip 3 4 example_gray 1); example_hyps. Defined.

Lemma rleDecode_binary_mask_witness :
  exists rle R,
    encode_py (eq_scalar example_gray 1) = Ok rle /\ py_size rle = (3, 4) /\
    rleFrString (utf8_encode (py_counts rle)) 3 4 = Some R /\
    rleDecode R = fortran_flat false 4 (eq_scalar example_gray 1).
Proof. apply (rleDecode_binary_mask 3 4 example_gray 1); example_hyps. Defined.

Lemma binary_mask_counts_witness :
  exists rle R,
    encode_py (eq_scalar example_gray 1) = Ok rle /\
    rleFrString (utf8_encode (py_counts rle)) (fst (py_size rle)) (snd (py_size rle)) = Some R /\
    list_sum (rle_cnts R) = 3 * 4 /\ Forall (fun n => 0 < n) (tail (rle_cnts R)).
Proof. apply (binary_mask_counts 3 4 example_gray 1); example_hyps. Defined.

Lemma encode_py_counts_length_witness :
  exists rle,
    encode_py (eq_scalar example_gray 1) = Ok rle /\
    String.length (py_counts rle) <= 6 * length (rle_cnts (mask_encode (eq_scalar example_gray 1))).
Proof. apply (encode_py_counts_length 3 4 example_gray 1); example_hyps. Defined.

(** [convert_mask_to_polygons] writes no file but the label file. *)
Lemma convert_frames sum_bits mp out mapping :
  frames (eq out) (convert_mask_to_polygons sum_bits mp out mapping).
Proof.
  unfold convert_mask_to_polygons, convert_loop.
  apply frames_bind; [apply frames_pil_open|]. intros pic.
  apply frames_bind; [by apply frames_open_w|]. intros u.
  apply frames_iter. intros [pv cid] _.
  apply frames_bind; [apply frames_lift|]. intros [line|]; [by apply frames_append_text|apply frames_ret].
Qed.

Definition color_world : world :=
  mkWorld {[ ["d"; "c_mask.png"] := CPicture (Color [[mkPx 1 0 0]]%Z) ]} {[ ["d"] ]} [] 0 None.

Lemma convert_color_mask_empty_labels_witness :
  convert_mask_to_polygons 64 ["d"; "c_mask.png"] ["d"; "c.txt"] [(0, 0); (1, 1)]%Z color_world =
    (set_files color_world (<[["d"; "c.txt"] := CText ""]> (w_files color_world)),
     Raise (TypeError "list indices must be integers or slices, not str")).
Proof.
  apply (convert_color_mask_empty_labels 64 color_world ["d"; "c_mask.png"] ["d"; "c.txt"]
           [(0, 0); (1, 1)]%Z [[mkPx 1 0 0]]%Z); reflexivity.
Defined.

Lemma convert_unreadable_mask_witness :
  (forall pic, w_files example_world !! ["d"; "b_mask.png"] <> Some (CPicture pic)) /\
  convert_mask_to_polygons 64 ["d"; "b_mask.png"] ["d"; "b.txt"] [(0, 0); (1, 1)]%Z example_world =
    (example_world, Raise (FileNotFoundError (String.concat "\" ["d"; "b_mask.png"]))).
Proof.
  assert (Hn : forall pic, w_files example_world !! ["d"; "b_mask.png"] <> Some (CPicture pic))
    by (intros pic; vm_compute; discriminate).
  split; [exact Hn|]. exact (convert_unreadable_mask 64 example_world _ ["d"; "b.txt"] [(0, 0); (1, 1)]%Z Hn).
Defined.

