(* ===== verification/PyFloat.v ===== *)
(** * PyFloat: Python's [float] values and [float(str)]

    [read_labels_from_xml] turns the text of [xmin], [ymin], [xmax],
    [ymax] into floats with the builtin [float()], and
    [segment_with_boxes] compares them with [0] and the image size after
    [np.array(box)].  A Python float is an IEEE 754 binary64 value:
    Stdlib's [spec_float] at precision 53 and maximal exponent 1024
    ([f64]).

    [py_float] follows CPython's [float(str)]: surrounding whitespace is
    stripped, then an optional sign and either [inf]/[infinity]/[nan]
    (any case) or a decimal literal (digits with single underscores
    between them, an optional fraction, an optional exponent); the value
    is rounded to the nearest binary64, ties to even, as CPython's
    correctly rounded conversion does.  Anything else is a
    [ValueError].  The strings are ASCII (Coq [string]), so the
    whitespace is the ASCII whitespace of [str.isspace].

    Comparisons are IEEE comparisons ([SFltb]): every comparison with a
    NaN is false, as in numpy.  An integer below [2^53] in absolute
    value is a float exactly ([f64_of_Z_exact]), and [<] on such floats
    is [<] on the integers ([f64_lt_of_Z]). *)

From Stdlib Require Import SpecFloat Ascii DecimalString DecimalN.
From S2P Require Import Prelude.

Local Open Scope Z_scope.

Definition f64 : Type := spec_float.

Definition f64_prec : Z := 53.
Definition f64_emax : Z := 1024.

(** An integer as a float64 (numpy's conversion of the [int] operand of
    a comparison); exact below [2^53]. *)
Definition f64_of_Z (z : Z) : f64 := binary_normalize f64_prec f64_emax z 0 false.

(** [a < b] on float64. *)
Definition f64_lt (a b : f64) : bool := SFltb a b.

(** ** Scanning the literal *)

Definition is_space (a : Ascii.ascii) : bool :=
  let n := Ascii.nat_of_ascii a in
  ((9 <=? n) && (n <=? 13))%nat || ((28 <=? n) && (n <=? 32))%nat.

Definition is_digit (a : Ascii.ascii) : bool :=
  let n := Ascii.nat_of_ascii a in ((48 <=? n) && (n <=? 57))%nat.

Definition digit_val (a : Ascii.ascii) : Z := Z.of_nat (Ascii.nat_of_ascii a) - 48.

Definition lower (a : Ascii.ascii) : Ascii.ascii :=
  let n := Ascii.nat_of_ascii a in
  if ((65 <=? n) && (n <=? 90))%nat then Ascii.ascii_of_nat (n + 32) else a.

Fixpoint lstrip (l : list Ascii.ascii) : list Ascii.ascii :=
  match l with
  | a :: l' => if is_space a then lstrip l' else l
  | [] => []
  end.

(** [str.strip()] on ASCII whitespace. *)
Definition strip (l : list Ascii.ascii) : list Ascii.ascii :=
  rev (lstrip (rev (lstrip l))).

(** A [digitpart]: [digit (["_"] digit)*].  Returns the digits read and
    the rest, or [None] when no digit starts it. *)
Fixpoint digitpart_go (l : list Ascii.ascii) (acc : list Ascii.ascii) :
    list Ascii.ascii * list Ascii.ascii :=
  match l with
  | a :: l' =>
      if is_digit a then digitpart_go l' (a :: acc)
      else if Ascii.eqb a "_"%char then
        match l' with
        | b :: l'' => if is_digit b then digitpart_go l'' (b :: acc) else (rev acc, l)
        | [] => (rev acc, l)
        end
      else (rev acc, l)
  | [] => (rev acc, [])
  end.

Definition digitpart (l : list Ascii.ascii) : option (list Ascii.ascii * list Ascii.ascii) :=
  match l with
  | a :: l' => if is_digit a then Some (digitpart_go l' [a]) else None
  | [] => None
  end.

Definition digit_step (acc : Z) (a : Ascii.ascii) : Z := 10 * acc + digit_val a.

Definition digits_value (ds : list Ascii.ascii) : Z := fold_left digit_step ds 0.

(** [number [exponent]] with nothing left over: the digits of the
    mantissa and the power of ten. *)
Definition decimal_literal (l : list Ascii.ascii) : option (Z * Z) :=
  let '(ip, rest) := match digitpart l with Some r => r | None => ([], l) end in
  let frac :=
    match rest with
    | a :: rest' =>
        if Ascii.eqb a "."%char then
          match digitpart rest' with
          | Some (fp, rest'') => Some (fp, rest'')
          | None => Some ([], rest')
          end
        else Some ([], rest)
    | [] => Some ([], rest)
    end in
  match frac with
  | None => None
  | Some (fp, rest2) =>
      if (length ip =? 0)%nat && (length fp =? 0)%nat then None
      else
        let exp :=
          match rest2 with
          | e :: rest3 =>
              if Ascii.eqb (lower e) "e"%char then
                let '(sgn, rest4) :=
                  match rest3 with
                  | s :: rest4 =>
                      if Ascii.eqb s "-"%char then (-1, rest4)
                      else if Ascii.eqb s "+"%char then (1, rest4) else (1, rest3)
                  | [] => (1, rest3)
                  end in
                match digitpart rest4 with
                | Some (ed, []) => Some (sgn * digits_value ed)
                | _ => None
                end
              else None
          | [] => Some 0
          end in
        match exp with
        | Some e => Some (digits_value (ip ++ fp), e - Z.of_nat (length fp))
        | None => None
        end
  end.

(** The binary64 nearest to [m * 10^e] ([m >= 0]), ties to even. *)
Definition round_decimal (neg : bool) (m e : Z) : f64 :=
  if m =? 0 then S754_zero neg
  else if 0 <=? e then
    binary_normalize f64_prec f64_emax (if neg then - (m * 10 ^ e) else m * 10 ^ e) 0 neg
  else
    let k := - e in
    let '(q, ex, loc) := SFdiv_core_binary f64_prec f64_emax m 0 (5 ^ k) k in
    binary_round_aux f64_prec f64_emax neg q ex loc.

Definition lower_string (l : list Ascii.ascii) : string :=
  String.string_of_list_ascii (map lower l).

(** [float(s)] on a [str]. *)
Definition py_float (s : string) : res f64 :=
  let l := strip (String.list_ascii_of_string s) in
  let '(neg, body) :=
    match l with
    | a :: l' =>
        if Ascii.eqb a "-"%char then (true, l')
        else if Ascii.eqb a "+"%char then (false, l') else (false, l)
    | [] => (false, l)
    end in
  let word := lower_string body in
  if String.eqb word "inf" || String.eqb word "infinity" then Ok (S754_infinity neg)
  else if String.eqb word "nan" then Ok S754_nan
  else
    match decimal_literal body with
    | Some (m, e) => Ok (round_decimal neg m e)
    | None => Raise (ValueError ("could not convert string to float: " +:+ s))
    end.

(** ** [float()] of the digits of an integer *)

Lemma digit_not_space a : is_digit a = true -> is_space a = false.
Proof.
  unfold is_digit, is_space. set (n := Ascii.nat_of_ascii a).
  intros [H1 H2]%andb_prop. apply Nat.leb_le in H1, H2.
  apply orb_false_iff; split; apply andb_false_iff; right; apply Nat.leb_gt; lia.
Qed.

Lemma digit_neq a c : is_digit a = true -> is_digit c = false -> Ascii.eqb a c = false.
Proof. intros Ha Hc. destruct (Ascii.eqb_spec a c) as [->|]; [congruence|done]. Qed.

Lemma lower_digit a : is_digit a = true -> lower a = a.
Proof.
  unfold is_digit, lower. set (n := Ascii.nat_of_ascii a).
  intros [H1 H2]%andb_prop. apply Nat.leb_le in H1, H2.
  destruct (Nat.leb_spec 65 n); [|done]. destruct (Nat.leb_spec n 90); [lia|done].
Qed.

Lemma digitpart_go_digits l acc :
  Forall (fun a => is_digit a = true) l -> digitpart_go l acc = (rev acc ++ l, []).
Proof.
  revert acc. induction l as [|a l IH]; intros acc Hl; simpl.
  - by rewrite app_nil_r.
  - apply Forall_cons in Hl as [Ha Hl]. rewrite Ha, IH by done. cbn [rev]. by rewrite <- app_assoc.
Qed.

Lemma decimal_literal_digits a l :
  Forall (fun a => is_digit a = true) (a :: l) ->
  decimal_literal (a :: l) = Some (digits_value (a :: l), 0).
Proof.
  intros Hl. pose proof Hl as [Ha Hl']%Forall_cons.
  unfold decimal_literal, digitpart. rewrite Ha, digitpart_go_digits by done.
  simpl. by rewrite app_nil_r.
Qed.

Lemma lstrip_digit a l : is_digit a = true -> lstrip (a :: l) = a :: l.
Proof. intros Ha. simpl. by rewrite digit_not_space. Qed.

Lemma strip_digits ds : Forall (fun a => is_digit a = true) ds -> strip ds = ds.
Proof.
  intros Hds. unfold strip.
  destruct ds as [|a l]; [done|]. rewrite lstrip_digit by (apply Forall_cons in Hds; tauto).
  destruct (rev (a :: l)) as [|b r] eqn:E; [apply (f_equal length) in E; rewrite length_rev in E; discriminate|].
  rewrite lstrip_digit, <- E, rev_involutive; [done|].
  assert (Hb : In b (rev (a :: l))) by (rewrite E; by left).
  apply in_rev in Hb. by rewrite List.Forall_forall in Hds; apply Hds.
Qed.

Lemma round_decimal_int m : round_decimal false m 0 = f64_of_Z m.
Proof.
  unfold round_decimal, f64_of_Z. destruct (Z.eqb_spec m 0) as [->|]; [reflexivity|].
  simpl. by rewrite Z.mul_1_r.
Qed.

(** Evaluate the code of a character literal in the goal. *)
Ltac eval_char_code :=
  repeat match goal with
  | |- context [Z.of_nat (Ascii.nat_of_ascii ?c)] =>
      let v := eval vm_compute in (Z.of_nat (Ascii.nat_of_ascii c)) in
      change (Z.of_nat (Ascii.nat_of_ascii c)) with v
  end.

Lemma digits_value_acc d acc :
  fold_left digit_step (String.list_ascii_of_string (NilEmpty.string_of_uint d)) (Z.pos acc) =
  Z.pos (Pos.of_uint_acc d acc).
Proof.
  revert acc. induction d; intros acc; simpl; try reflexivity;
    rewrite <- IHd; f_equal; unfold digit_step, digit_val;
    rewrite ?Pos2Z.inj_add, ?Pos2Z.inj_mul; eval_char_code; lia.
Qed.

Lemma digits_value_uint d :
  digits_value (String.list_ascii_of_string (NilEmpty.string_of_uint d)) = Z.of_N (Pos.of_uint d).
Proof.
  unfold digits_value. induction d; simpl; try reflexivity; try exact IHd;
    rewrite <- digits_value_acc; reflexivity.
Qed.

Lemma uint_digits d :
  Forall (fun a => is_digit a = true) (String.list_ascii_of_string (NilEmpty.string_of_uint d)).
Proof. induction d; simpl; constructor; auto. Qed.

Lemma lower_digits ds : Forall (fun a => is_digit a = true) ds -> map lower ds = ds.
Proof.
  induction 1 as [|a l Ha _ IH]; [done|]. simpl. by rewrite lower_digit, IH.
Qed.

(** [float()] of a string of decimal digits is the nearest float to
    the integer they denote. *)
Lemma py_float_digits a l :
  Forall (fun a => is_digit a = true) (a :: l) ->
  py_float (String.string_of_list_ascii (a :: l)) = Ok (f64_of_Z (digits_value (a :: l))).
Proof.
  intros Hds. pose proof Hds as [Ha _]%Forall_cons.
  unfold py_float. rewrite String.list_ascii_of_string_of_list_ascii, strip_digits by done.
  rewrite !digit_neq by (done || reflexivity).
  unfold lower_string. rewrite lower_digits by done. cbn [String.string_of_list_ascii String.eqb].
  rewrite !digit_neq by (done || reflexivity). simpl.
  by rewrite decimal_literal_digits, round_decimal_int.
Qed.

Lemma py_float_str_N n : py_float (str_N n) = Ok (f64_of_Z (Z.of_N n)).
Proof.
  unfold str_N. rewrite <- (String.string_of_list_ascii_of_string (NilEmpty.string_of_uint _)).
  pose proof (uint_digits (N.to_uint n)) as Hd.
  destruct (String.list_ascii_of_string (NilEmpty.string_of_uint (N.to_uint n))) as [|a l] eqn:E.
  - destruct n as [|p]; [discriminate|]. simpl in E.
    destruct (Pos.to_uint p) eqn:Ep; [by apply DecimalPos.Unsigned.to_uint_nonnil in Ep|..]; discriminate.
  - rewrite py_float_digits by done. rewrite <- E, digits_value_uint.
    change (Pos.of_uint (N.to_uint n)) with (N.of_uint (N.to_uint n)).
    by rewrite DecimalN.Unsigned.of_to.
Qed.

(** ** Integers as float64

    numpy compares the float64 coordinates of line 57 with the [int]s
    [0] and [image.shape[i]] converted to float64.  An integer of
    magnitude below [2^53] is a float64 exactly (its mantissa shifted
    to 53 bits), so comparing the converted integers compares the
    integers. *)

Lemma digits2_pos_size p : digits2_pos p = Pos.size p.
Proof. induction p; cbn; congruence. Qed.

Lemma iter_xO_mul p d : Zpos (Pos.iter xO p d) = Zpos p * 2 ^ Zpos d.
Proof.
  induction d using Pos.peano_ind; [cbn; lia|].
  rewrite Pos.iter_succ, Pos2Z.inj_succ, Z.pow_succ_r by lia.
  change (Zpos (xO (Pos.iter xO p d))) with (2 * Zpos (Pos.iter xO p d)). rewrite IHd. lia.
Qed.

Lemma size_iter_xO p d : Pos.size (Pos.iter xO p d) = (Pos.size p + d)%positive.
Proof.
  induction d using Pos.peano_ind; [cbn; by rewrite Pos.add_1_r|].
  rewrite Pos.iter_succ. cbn. rewrite IHd. lia.
Qed.

Lemma binary_round_aux_exact s m e :
  Pos.size m = 53%positive -> -1074 <= e <= 971 ->
  binary_round_aux f64_prec f64_emax s (Zpos m) e loc_Exact = S754_finite s m e.
Proof.
  intros Hm He. unfold binary_round_aux, shr_fexp, fexp, emin, f64_prec, f64_emax. cbn [Zdigits2].
  rewrite digits2_pos_size, Hm.
  replace (Z.max (53 + e - 53) (3 - 1024 - 53) - e) with 0 by lia. cbn [shr shr_record_of_loc shr_m loc_of_shr_record round_nearest_even].
  cbn [Zdigits2]. rewrite digits2_pos_size, Hm.
  replace (Z.max (53 + e - 53) (3 - 1024 - 53) - e) with 0 by lia. cbn [shr shr_record_of_loc shr_m].
  replace (e <=? 1024 - 53) with true by lia. reflexivity.
Qed.

(** An integer of at most 53 bits is a float64 exactly: its mantissa
    shifted to 53 bits, with the matching exponent. *)
Lemma binary_round_exact s p :
  (Pos.size p <= 53)%positive ->
  exists m, binary_round f64_prec f64_emax s p 0 = S754_finite s m (Zpos (Pos.size p) - 53) /\
    Zpos m = Zpos p * 2 ^ (53 - Zpos (Pos.size p)) /\ Pos.size m = 53%positive.
Proof.
  intros Hs. unfold binary_round. unfold fexp at 1, emin at 1. unfold f64_prec at 1 2, f64_emax at 1.
  rewrite digits2_pos_size.
  replace (Z.max (Zpos (Pos.size p) + 0 - 53) (3 - 1024 - 53)) with (Zpos (Pos.size p) - 53) by lia.
  unfold shl_align. rewrite Z.sub_0_r.
  destruct (Zpos (Pos.size p) - 53) eqn:E; [| lia |].
  - exists p. rewrite binary_round_aux_exact by lia. split_and!; [done| |lia].
    replace (53 - Zpos (Pos.size p)) with 0 by lia. lia.
  - exists (Pos.iter xO p p0). rewrite binary_round_aux_exact.
    + split_and!; [done|rewrite iter_xO_mul; f_equal; f_equal; lia|rewrite size_iter_xO; lia].
    + rewrite size_iter_xO. lia.
    + lia.
Qed.

Lemma size_le_53 p : Zpos p < 2 ^ 53 -> (Pos.size p <= 53)%positive.
Proof.
  intros Hp. pose proof (Pos.size_le p) as Hl. apply Pos2Z.pos_le_pos in Hl.
  rewrite Pos2Z.inj_pow in Hl. change (Zpos p~0) with (2 * Zpos p) in Hl.
  destruct (Z.le_gt_cases (Zpos (Pos.size p)) 53) as [|Hgt]; [lia|].
  assert (2 ^ 54 <= 2 ^ Zpos (Pos.size p)) by (apply Z.pow_le_mono_r; lia). lia.
Qed.

Lemma size_lt_mono p q : (Pos.size p < Pos.size q)%positive -> (p < q)%positive.
Proof.
  intros Hs. pose proof (Pos.size_gt p) as H1. pose proof (Pos.size_le q) as H2.
  apply Pos2Z.pos_lt_pos in H1. apply Pos2Z.pos_le_pos in H2. apply Pos2Z.pos_lt_pos in Hs.
  rewrite Pos2Z.inj_pow in H1, H2. change (Zpos q~0) with (2 * Zpos q) in H2.
  assert (2 ^ Zpos (Pos.size p) <= 2 ^ (Zpos (Pos.size q) - 1)) by (apply Z.pow_le_mono_r; lia).
  replace (Zpos (Pos.size q)) with (Zpos (Pos.size q) - 1 + 1) in H2 by lia.
  rewrite Z.pow_add_r in H2 by lia. lia.
Qed.

(** Comparing two shifted mantissas as [SFcompare] does compares the
    integers. *)
Lemma compare_shifted p q mp mq :
  Zpos mp = Zpos p * 2 ^ (53 - Zpos (Pos.size p)) -> Zpos mq = Zpos q * 2 ^ (53 - Zpos (Pos.size q)) ->
  (Pos.size p <= 53)%positive -> (Pos.size q <= 53)%positive ->
  match Z.compare (Zpos (Pos.size p) - 53) (Zpos (Pos.size q) - 53) with
  | Lt => Lt | Gt => Gt | Eq => Pos.compare_cont Eq mp mq
  end = Pos.compare p q.
Proof.
  intros Hp Hq Sp Sq. destruct (Pos.compare_spec (Pos.size p) (Pos.size q)) as [E|L|G].
  - rewrite E, Z.compare_refl. change (Pos.compare_cont Eq mp mq) with (Pos.compare mp mq).
    rewrite Pos2Z.inj_compare, Hp, Hq, E, (Pos2Z.inj_compare p q).
    assert (Hk : 0 < 2 ^ (53 - Zpos (Pos.size q))) by (apply Z.pow_pos_nonneg; lia).
    destruct (Z.compare_spec (Zpos p) (Zpos q));
      [apply Z.compare_eq_iff|apply Z.compare_lt_iff|apply Z.compare_gt_iff]; nia.
  - replace (Z.compare _ _) with Lt by (symmetry; apply Z.compare_lt_iff; lia).
    symmetry. apply Pos.compare_lt_iff. by apply size_lt_mono.
  - replace (Z.compare _ _) with Gt by (symmetry; apply Z.compare_gt_iff; lia).
    symmetry. apply Pos.compare_gt_iff. by apply size_lt_mono.
Qed.

(** Below [2^53] in magnitude, comparing the float64 values of two
    integers compares the integers. *)
Lemma f64_of_Z_exact z :
  z <> 0 -> Z.abs z < 2 ^ 53 ->
  exists p m, Z.abs z = Zpos p /\ f64_of_Z z = S754_finite (z <? 0) m (Zpos (Pos.size p) - 53) /\
    Zpos m = Zpos p * 2 ^ (53 - Zpos (Pos.size p)) /\ (Pos.size p <= 53)%positive.
Proof.
  intros Hz Ha. destruct z as [|p|p]; [done| |].
  - change (Z.abs (Zpos p)) with (Zpos p) in Ha.
    destruct (binary_round_exact false p (size_le_53 p Ha)) as (m & E & M & _).
    exists p, m. split_and!; [done|exact E|exact M|exact (size_le_53 p Ha)].
  - change (Z.abs (Zneg p)) with (Zpos p) in Ha.
    destruct (binary_round_exact true p (size_le_53 p Ha)) as (m & E & M & _).
    exists p, m. split_and!; [done|exact E|exact M|exact (size_le_53 p Ha)].
Qed.

(** Below [2^53] in magnitude, comparing the float64 values of two
    integers compares the integers. *)
Lemma f64_lt_of_Z a b : Z.abs a < 2 ^ 53 -> Z.abs b < 2 ^ 53 -> f64_lt (f64_of_Z a) (f64_of_Z b) = (a <? b).
Proof.
  intros Ha Hb. unfold f64_lt, SFltb.
  destruct (Z.eq_dec a 0) as [->|Hna]; destruct (Z.eq_dec b 0) as [->|Hnb]; [reflexivity|..].
  - destruct (f64_of_Z_exact b Hnb Hb) as (q & mq & _ & -> & _). cbn [SFcompare].
    destruct (Z.ltb_spec b 0); cbn; symmetry; [apply Z.ltb_ge|apply Z.ltb_lt]; lia.
  - destruct (f64_of_Z_exact a Hna Ha) as (p & mp & _ & -> & _). cbn [SFcompare].
    by destruct (Z.ltb_spec a 0).
  - destruct (f64_of_Z_exact a Hna Ha) as (p & mp & Ea & -> & Mp & Sp).
    destruct (f64_of_Z_exact b Hnb Hb) as (q & mq & Eb & -> & Mq & Sq). cbn [SFcompare].
    pose proof (compare_shifted p q mp mq Mp Mq Sp Sq) as Hc.
    destruct (Z.ltb_spec a 0), (Z.ltb_spec b 0); cbn;
      try (symmetry; first [apply Z.ltb_lt | apply Z.ltb_ge]; lia);
      (destruct (Z.compare _ _); [rewrite Hc|..]; destruct (Pos.compare_spec p q) as [E|E|E];
       try discriminate Hc; cbn; destruct (Z.ltb_spec a b); try reflexivity; exfalso; lia).
Qed.

