(* ===== verification/VocXml.v ===== *)
(** * VocXml: [read_labels_from_xml] of the SAM script

    [read_labels_from_xml(xml_path)]
    (sam_segmentation_with_bounding_boxes.py, lines 25-42) parses a
    Pascal-VOC annotation with ElementTree and returns the list of
    [[xmin, ymin, xmax, ymax]] of every [object] that has a [bndbox],
    each coordinate read with [float()].  The whole body is in a [try]:
    any exception (a missing file, XML that is not well-formed, a
    [bndbox] without one of its four children, a child without text, a
    text [float()] rejects) prints a message and returns the boxes
    appended before it.

    - [find] and [findall] are [Element.find] / [Element.findall] on a
      plain tag: the first / every direct child with that tag.
    - [et_parse] is [ET.parse(xml_path).getroot()] over the [world].
    - [coord] is [float(bndbox.find(tag).text)], [object_box] the body of
      the loop for one object, [collect_boxes] the loop with the list
      [bounding_boxes] it appends to, [read_labels_from_xml] the
      function.
    - [voc_doc] builds the element tree of an annotation file with
      integer coordinates, as labelling tools write them.

    The theorems: the function never raises and changes nothing but the
    console; on a file whose objects all parse it returns their boxes;
    when an object fails it returns exactly the boxes of the objects
    before it; and reading back an annotation written with integer
    coordinates gives those coordinates as floats. *)

From S2P Require Import Prelude Raster FileSystem PyFloat.

Local Open Scope string_scope.

(** A box as the script builds it: the list [[xmin, ymin, xmax, ymax]]
    of four floats. *)
Record box : Type := Box { xmin : f64; ymin : f64; xmax : f64; ymax : f64 }.

Definition tag_of (e : element) : string := match e with Element t _ _ => t end.
Definition text_of (e : element) : option string := match e with Element _ x _ => x end.
Definition children_of (e : element) : list element := match e with Element _ _ cs => cs end.

(** [e.find(tag)] *)
Definition find (tag : string) (e : element) : option element :=
  List.find (fun c => String.eqb (tag_of c) tag) (children_of e).

(** [e.findall(tag)] *)
Definition findall (tag : string) (e : element) : list element :=
  List.filter (fun c => String.eqb (tag_of c) tag) (children_of e).

(** [ET.parse(xml_path).getroot()]: the file must hold well-formed XML. *)
Definition et_parse (p : path) : io element :=
  fun w =>
    match w_files w !! p with
    | Some (CXml (Some root)) => (w, Ok root)
    | Some _ => (w, Raise (XmlParseError (String.concat "\" p)))
    | None => (w, Raise (FileNotFoundError (String.concat "\" p)))
    end.

(** [float(bndbox.find(tag).text)] (lines 35-38). *)
Definition coord (bndbox : element) (tag : string) : res f64 :=
  match find tag bndbox with
  | None => Raise (AttributeError "'NoneType' object has no attribute 'text'")
  | Some e =>
      match text_of e with
      | None => Raise (TypeError "float() argument must be a string or a real number")
      | Some s => py_float s
      end
  end.

(** Lines 33-39 for one object: [Ok None] when it has no [bndbox]. *)
Definition object_box (obj : element) : res (option box) :=
  match find "bndbox" obj with
  | None => Ok None
  | Some bndbox =>
      xmin <- coord bndbox "xmin" ;;
      ymin <- coord bndbox "ymin" ;;
      xmax <- coord bndbox "xmax" ;;
      ymax <- coord bndbox "ymax" ;;
      Ok (Some (Box xmin ymin xmax ymax))
  end.

(** The loop of lines 32-39 on [bounding_boxes = acc]: the list when the
    loop ends, and the exception that ended it early, if one did. *)
Fixpoint collect_boxes (objs : list element) (acc : list box) : list box * option exn :=
  match objs with
  | [] => (acc, None)
  | obj :: objs' =>
      match object_box obj with
      | Ok (Some b) => collect_boxes objs' (app acc [b])
      | Ok None => collect_boxes objs' acc
      | Raise e => (acc, Some e)
      end
  end.

(** [read_labels_from_xml(xml_path)] (lines 25-42). *)
Definition read_labels_from_xml (xml_path : path) : io (list box) :=
  do r <- io_try (do root <- et_parse xml_path;
                  io_ret (collect_boxes (findall "object" root) []))
                 (fun e => io_ret ([], Some e));
  let '(bounding_boxes, err) := r in
  match err with
  | Some _ => do _ <- print 41 (String.concat "\" xml_path); io_ret bounding_boxes
  | None => io_ret bounding_boxes
  end.

(** ** Annotations with integer coordinates *)

Definition voc_field (tag : string) (v : N) : element := Element tag (Some (str_N v)) [].

Definition voc_object (b : N * N * N * N) : element :=
  let '(x0, y0, x1, y1) := b in
  Element "object" None
    [Element "name" (Some "object") [];
     Element "bndbox" None
       [voc_field "xmin" x0; voc_field "ymin" y0; voc_field "xmax" x1; voc_field "ymax" y1]].

Definition voc_doc (bs : list (N * N * N * N)) : element :=
  Element "annotation" None (Element "filename" (Some "image.jpg") [] :: map voc_object bs).

Definition box_of_N (b : N * N * N * N) : box :=
  let '(x0, y0, x1, y1) := b in
  Box (f64_of_Z (Z.of_N x0)) (f64_of_Z (Z.of_N y0)) (f64_of_Z (Z.of_N x1)) (f64_of_Z (Z.of_N y1)).

(** The boxes of the objects that parse. *)
Definition parsed_boxes (objs : list element) : list box :=
  omap (fun o => match object_box o with Ok (Some b) => Some b | _ => None end) objs.

Close Scope string_scope.

(** ** The loop *)

Lemma collect_boxes_spec objs acc :
  exists k, k <= length objs /\
    Forall (fun o => is_ok (object_box o) = true) (take k objs) /\
    (forall o, objs !! k = Some o -> is_ok (object_box o) = false) /\
    collect_boxes objs acc =
      (app acc (parsed_boxes (take k objs)),
       match objs !! k with
       | Some o => match object_box o with Raise e => Some e | Ok _ => None end
       | None => None
       end).
Proof.
  revert acc. induction objs as [|o objs IH]; intros acc; simpl.
  - exists 0. rewrite app_nil_r. repeat split; [lia|constructor|done].
  - destruct (object_box o) as [[b|]|e] eqn:Eo.
    + destruct (IH (app acc [b])) as (k & Hk & Hok & Hstop & ->).
      exists (S k). simpl. rewrite Eo, <- app_assoc. repeat split; [lia|by constructor; rewrite ?Eo|done].
    + destruct (IH acc) as (k & Hk & Hok & Hstop & ->).
      exists (S k). simpl. rewrite Eo. repeat split; [lia|by constructor; rewrite ?Eo|done].
    + exists 0. simpl. rewrite Eo, app_nil_r. repeat split; [lia|constructor|].
      intros o' [= <-]. by rewrite Eo.
Qed.

Lemma collect_boxes_all_ok objs acc :
  Forall (fun o => is_ok (object_box o) = true) objs ->
  collect_boxes objs acc = (app acc (parsed_boxes objs), None).
Proof.
  intros Hok. destruct (collect_boxes_spec objs acc) as (k & Hk & _ & Hstop & ->).
  destruct (objs !! k) as [o|] eqn:Ek.
  - specialize (Hstop o eq_refl). eapply Forall_lookup_1 in Hok; [|exact Ek]. congruence.
  - apply lookup_ge_None in Ek. by rewrite take_ge by lia.
Qed.

Lemma read_labels_parsed p w root :
  w_files w !! p = Some (CXml (Some root)) ->
  read_labels_from_xml p w =
    match collect_boxes (findall "object" root) [] with
    | (bbs, None) => (w, Ok bbs)
    | (bbs, Some _) => (add_out w (Printed 41 (String.concat "\" p)), Ok bbs)
    end.
Proof.
  intros Hp. unfold read_labels_from_xml, io_try, io_bind, et_parse, io_ret. rewrite Hp.
  by destruct (collect_boxes _ _) as [? [|]].
Qed.


Lemma read_labels_unparsed p w :
  (forall root, w_files w !! p <> Some (CXml (Some root))) ->
  read_labels_from_xml p w = (add_out w (Printed 41 (String.concat "\" p)), Ok []).
Proof.
  intros Hp. unfold read_labels_from_xml, io_try, io_bind, et_parse, io_ret.
  destruct (w_files w !! p) as [[| |[root|]|]|] eqn:E; try reflexivity.
  by destruct (Hp root).
Qed.

(** The two outcomes of [read_labels_from_xml]. *)
Lemma read_labels_cases p w :
  exists bbs,
    read_labels_from_xml p w = (w, Ok bbs) \/
    read_labels_from_xml p w = (add_out w (Printed 41 (String.concat "\" p)), Ok bbs).
Proof.
  destruct (w_files w !! p) as [[| |[root|]|]|] eqn:E;
    try (exists []; right; apply read_labels_unparsed; intros r; rewrite E; discriminate).
  rewrite (read_labels_parsed p w root E).
  destruct (collect_boxes _ _) as [bbs [|]]; exists bbs; auto.
Qed.

(** C26 (error): [read_labels_from_xml] never raises; it leaves the
    files, directories, random generator and predictor as they were,
    and prints at most the one message of line 41. *)
Theorem read_labels_from_xml_total p w :
  exists bbs,
    read_labels_from_xml p w = (w, Ok bbs) \/
    read_labels_from_xml p w = (add_out w (Printed 41 (String.concat "\" p)), Ok bbs).
Proof. apply read_labels_cases. Qed.

(** C10 (error): when an [object] of a well-formed annotation makes the
    loop raise (a [bndbox] lacking a coordinate, a coordinate without
    text or that [float()] rejects), [read_labels_from_xml] prints the
    message of line 41 and returns the boxes of the objects before it,
    not an empty list; when none raises it returns the boxes of all the
    objects that have a [bndbox], in document order, and prints
    nothing. *)
Theorem read_labels_from_xml_prefix p w root :
  w_files w !! p = Some (CXml (Some root)) ->
  exists k,
    Forall (fun o => is_ok (object_box o) = true) (take k (findall "object" root)) /\
    ((k < length (findall "object" root) /\
      (forall o, findall "object" root !! k = Some o -> is_ok (object_box o) = false) /\
      read_labels_from_xml p w =
        (add_out w (Printed 41 (String.concat "\" p)), Ok (parsed_boxes (take k (findall "object" root))))) \/
     (k = length (findall "object" root) /\
      read_labels_from_xml p w = (w, Ok (parsed_boxes (findall "object" root))))).
Proof.
  intros Hp. rewrite (read_labels_parsed p w root Hp).
  destruct (collect_boxes_spec (findall "object" root) []) as (k & Hk & Hok & Hstop & ->).
  exists k. split; [exact Hok|].
  destruct (findall "object" root !! k) as [o|] eqn:Ek.
  - pose proof (Hstop o eq_refl) as Ho. destruct (object_box o) as [|e]; [discriminate|].
    left. apply lookup_lt_Some in Ek. auto.
  - right. apply lookup_ge_None in Ek. rewrite take_ge by lia. split; [lia|done].
Qed.

(** ** Reading back integer annotations *)

Lemma object_box_voc b : object_box (voc_object b) = Ok (Some (box_of_N b)).
Proof.
  destruct b as [[[x0 y0] x1] y1]. unfold object_box, coord. simpl.
  by rewrite !py_float_str_N.
Qed.

Lemma findall_voc_doc bs : findall "object" (voc_doc bs) = map voc_object bs.
Proof.
  unfold findall. simpl. induction bs as [|[[[x0 y0] x1] y1] bs IH]; [done|]. simpl. by f_equal.
Qed.

Lemma parsed_boxes_cons o objs :
  parsed_boxes (o :: objs) =
    match object_box o with Ok (Some b) => b :: parsed_boxes objs | _ => parsed_boxes objs end.
Proof. unfold parsed_boxes. simpl. by destruct (object_box o) as [[]|]. Qed.

Lemma parsed_boxes_voc bs : parsed_boxes (map voc_object bs) = map box_of_N bs.
Proof.
  induction bs as [|b bs IH]; [done|]. cbn [map].
  by rewrite parsed_boxes_cons, object_box_voc, IH.
Qed.

(** C23 (roundtrip): an annotation file that lists boxes with
    non-negative integer coordinates, in the layout of Pascal-VOC
    ([object/bndbox/xmin..ymax]), is read back by
    [read_labels_from_xml] as exactly those boxes, in order, each
    coordinate the float of the integer, without a message. *)
Theorem read_labels_from_xml_voc p w bs :
  w_files w !! p = Some (CXml (Some (voc_doc bs))) ->
  read_labels_from_xml p w = (w, Ok (map box_of_N bs)).
Proof.
  intros Hp. rewrite (read_labels_parsed p w _ Hp), findall_voc_doc.
  rewrite collect_boxes_all_ok.
  - by rewrite app_nil_l, parsed_boxes_voc.
  - apply Forall_forall. intros o (b & -> & _)%list_elem_of_fmap. by rewrite object_box_voc.
Qed.

(** [read_labels_from_xml] writes no file. *)
Lemma read_labels_frames P p : frames P (read_labels_from_xml p).
Proof.
  intros w q _. destruct (read_labels_cases p w) as (bbs & [-> | ->]); reflexivity.
Qed.

Lemma read_labels_keeps_dirs p : keeps_dirs (read_labels_from_xml p).
Proof.
  apply keeps_dirs_same. intros w. by destruct (read_labels_cases p w) as (bbs & [-> | ->]).
Qed.

(** ** Examples *)

Definition voc_example : element :=
  Element "annotation" None
    [Element "object" None [Element "bndbox" None
       [voc_field "xmin" 1; voc_field "ymin" 2; voc_field "xmax" 30; voc_field "ymax" 40]];
     Element "object" None [Element "bndbox" None
       [voc_field "xmin" 5; voc_field "ymin" 6; voc_field "xmax" 7]];
     Element "object" None [Element "bndbox" None
       [voc_field "xmin" 8; voc_field "ymin" 9; voc_field "xmax" 10; voc_field "ymax" 11]]].

Definition voc_world (doc : element) : world :=
  mkWorld {[ ["a"; "x.xml"] := CXml (Some doc) ]} {[ ["a"] ]} [] 0 None.

Lemma read_labels_from_xml_prefix_witness :
  exists k,
    Forall (fun o => is_ok (object_box o) = true) (take k (findall "object" voc_example)) /\
    ((k < length (findall "object" voc_example) /\
      (forall o, findall "object" voc_example !! k = Some o -> is_ok (object_box o) = false) /\
      read_labels_from_xml ["a"; "x.xml"] (voc_world voc_example) =
        (add_out (voc_world voc_example) (Printed 41 (String.concat "\" ["a"; "x.xml"])),
         Ok (parsed_boxes (take k (findall "object" voc_example))))) \/
     (k = length (findall "object" voc_example) /\
      read_labels_from_xml ["a"; "x.xml"] (voc_world voc_example) =
        (voc_world voc_example, Ok (parsed_boxes (findall "object" voc_example))))).
Proof. apply read_labels_from_xml_prefix. reflexivity. Defined.

Lemma read_labels_from_xml_voc_witness :
  read_labels_from_xml ["a"; "x.xml"] (voc_world (voc_doc [(1, 2, 30, 40); (0, 0, 640, 480)]%N)) =
    (voc_world (voc_doc [(1, 2, 30, 40); (0, 0, 640, 480)]%N),
     Ok (map box_of_N [(1, 2, 30, 40); (0, 0, 640, 480)]%N)).
Proof. apply read_labels_from_xml_voc. reflexivity. Defined.

(** The partial result on [voc_example]: the first box only. *)
Example read_labels_example :
  read_labels_from_xml ["a"; "x.xml"] (voc_world voc_example) =
    (add_out (voc_world voc_example) (Printed 41 "a\x.xml"), Ok [box_of_N (1, 2, 30, 40)%N]).
Proof. vm_compute. reflexivity. Qed.

Lemma read_labels_out_grows p : out_grows (read_labels_from_xml p).
Proof.
  intros w. destruct (read_labels_cases p w) as (bbs & [-> | ->]); [done|].
  simpl. by apply prefix_app_r.
Qed.
