(* ===== verification/Overlay.v ===== *)
(** * Overlay: the colour blend of [segment_with_boxes]

    Line 76 of sam_segmentation_with_bounding_boxes.py,
    [overlay[mask] = overlay[mask] * 0.5 + color * 0.5], selects the
    pixels of the [uint8] image [overlay] where the boolean [mask] is
    true, multiplies them and the [uint8] colour by the Python float
    [0.5] (numpy computes in float64), adds, and stores the sum back into
    the [uint8] array, which truncates toward zero.

    - [blend_channel] is that computation on one channel, with Stdlib's
      IEEE 754 binary64 operations ([SFmul], [SFadd]) and C's
      truncation ([f64_trunc]); [blend_px] applies it to the three
      channels.
    - [apply_mask] is the whole assignment: numpy raises [IndexError]
      when the mask's shape is not the image's first two dimensions.

    The theorems: on [uint8] inputs the float computation is exactly the
    integer mean [(o + c) / 2] (checked on all 65536 pairs), which lies
    between the two inputs, so no channel leaves [uint8]; the assignment
    blends exactly the masked pixels and leaves the others, and an empty
    mask changes nothing. *)

From Stdlib Require Import SpecFloat.
From S2P Require Import Prelude Raster PyFloat.

Local Open Scope Z_scope.

Definition f64_mul (a b : f64) : f64 := SFmul f64_prec f64_emax a b.
Definition f64_add (a b : f64) : f64 := SFadd f64_prec f64_emax a b.

(** The Python literal [0.5]. *)
Definition f64_half : f64 := binary_normalize f64_prec f64_emax 1 (-1) false.

(** C's conversion of a finite double to an integer: truncation toward
    zero. *)
Definition f64_trunc (x : f64) : Z :=
  match x with
  | S754_finite s m e =>
      let v := if 0 <=? e then Z.pos m * 2 ^ e else Z.pos m / 2 ^ (- e) in
      if s then - v else v
  | _ => 0
  end.

(** Storing a float64 into a [uint8] element (the value is kept modulo
    256 when it is out of range, as numpy does on the usual targets). *)
Definition to_uint8 (x : f64) : Z := f64_trunc x mod 256.

(** One channel of [overlay[mask] * 0.5 + color * 0.5], stored back. *)
Definition blend_channel (o c : Z) : Z :=
  to_uint8 (f64_add (f64_mul (f64_of_Z o) f64_half) (f64_mul (f64_of_Z c) f64_half)).

Definition blend_px (p color : px3) : px3 :=
  mkPx (blend_channel (ch0 p) (ch0 color)) (blend_channel (ch1 p) (ch1 color))
       (blend_channel (ch2 p) (ch2 color)).

(** [overlay[mask] = overlay[mask] * 0.5 + color * 0.5] (line 76). *)
Definition apply_mask (overlay : grid px3) (mask : grid bool) (color : px3) : res (grid px3) :=
  if negb (grid_h mask =? grid_h overlay)%nat || negb (grid_w mask =? grid_w overlay)%nat then
    Raise (IndexError "boolean index did not match indexed array")
  else
    Ok (grid_zip (fun p (b : bool) => if b then blend_px p color else p) overlay mask).

(** The 50/50 mix the blend computes, in integers. *)
Definition mean_px (p color : px3) : px3 :=
  mkPx ((ch0 p + ch0 color) / 2) ((ch1 p + ch1 color) / 2) ((ch2 p + ch2 color) / 2).

(** The values of a [uint8]. *)
Definition u8_range : list Z := map Z.of_nat (seq 0 256).

(** The blend on every pair of [uint8] values is the integer mean,
    checked by evaluation on the 65536 pairs. *)
Lemma blend_table :
  forallb (fun o => forallb (fun c => blend_channel o c =? (o + c) / 2) u8_range) u8_range = true.
Proof. vm_compute. reflexivity. Qed.

Lemma in_u8_range v : is_u8 v -> In v u8_range.
Proof.
  intros Hv. unfold is_u8 in Hv. unfold u8_range. apply in_map_iff. exists (Z.to_nat v).
  split; [apply Z2Nat.id; lia|]. apply in_seq. split; [lia|].
  apply Nat2Z.inj_lt. rewrite Z2Nat.id; lia.
Qed.

(** ** The blend of one channel *)

Lemma blend_channel_mean o c : is_u8 o -> is_u8 c -> blend_channel o c = (o + c) / 2.
Proof.
  intros Ho Hc. pose proof blend_table as Ht.
  rewrite forallb_forall in Ht. specialize (Ht o (in_u8_range o Ho)).
  rewrite forallb_forall in Ht. specialize (Ht c (in_u8_range c Hc)).
  by apply Z.eqb_eq.
Qed.

Lemma blend_channel_between o c :
  is_u8 o -> is_u8 c -> Z.min o c <= blend_channel o c <= Z.max o c.
Proof.
  intros Ho Hc. rewrite blend_channel_mean by done.
  split; [apply Z.div_le_lower_bound | apply Z.div_le_upper_bound]; lia.
Qed.

Lemma blend_px_u8 p c : px_u8 p -> px_u8 c -> px_u8 (blend_px p c).
Proof.
  intros (H0 & H1 & H2) (C0 & C1 & C2). unfold px_u8, blend_px, is_u8 in *; cbn [ch0 ch1 ch2].
  pose proof (blend_channel_between _ _ H0 C0). pose proof (blend_channel_between _ _ H1 C1).
  pose proof (blend_channel_between _ _ H2 C2). lia.
Qed.

(** ** The masked assignment *)

Section Assign.
Context (h w : nat) (overlay : grid px3) (mask : grid bool) (color : px3).
Local Open Scope nat_scope.
Hypotheses (Hov : grid_wf h w overlay) (Hm : grid_wf h w mask).

Lemma apply_mask_ok :
  apply_mask overlay mask color =
    Ok (grid_zip (fun p (b : bool) => if b then blend_px p color else p) overlay mask).
Proof.
  unfold apply_mask. destruct (decide (h = 0%nat)) as [->|Hh].
  - destruct Hov as [Hl1 _], Hm as [Hl2 _].
    destruct overlay, mask; simpl in *; try lia. reflexivity.
  - destruct (grid_wf_shape h w overlay Hov Hh) as [-> ->].
    destruct (grid_wf_shape h w mask Hm Hh) as [-> ->].
    by rewrite !Nat.eqb_refl.
Qed.

(** The assignment blends exactly the masked pixels. *)
Lemma apply_mask_pixels d :
  exists ov', apply_mask overlay mask color = Ok ov' /\ grid_wf h w ov' /\
    forall y x, y < h -> x < w ->
      grid_at d ov' y x =
        if grid_at false mask y x then blend_px (grid_at d overlay y x) color
        else grid_at d overlay y x.
Proof.
  rewrite apply_mask_ok. eexists. split; [reflexivity|]. split.
  - by apply grid_wf_zip.
  - intros y x Hy Hx. by rewrite (grid_at_zip _ h w _ _ d false).
Qed.
End Assign.

Lemma apply_mask_shape_error overlay mask color :
  grid_h mask <> grid_h overlay ->
  apply_mask overlay mask color = Raise (IndexError "boolean index did not match indexed array").
Proof. intros Hne. unfold apply_mask. apply Nat.eqb_neq in Hne. by rewrite Hne. Qed.

Lemma blend_px_mean p c : px_u8 p -> px_u8 c -> blend_px p c = mean_px p c.
Proof.
  intros (H0 & H1 & H2) (C0 & C1 & C2). unfold blend_px, mean_px.
  by rewrite !blend_channel_mean.
Qed.


(** C12 (bounds): on [uint8] channels, the float64 computation of line
    76 stored back into [uint8] is exactly the integer mean
    [(o + c) / 2]: it lies between the two inputs, so it never wraps
    around, and it stays below 255 when the colour does (a [randint]
    colour is below 255). *)
Theorem blend_channel_spec o c :
  is_u8 o -> is_u8 c ->
  blend_channel o c = (o + c) / 2 /\ Z.min o c <= blend_channel o c <= Z.max o c /\
  (c < 255 -> blend_channel o c < 255).
Proof.
  intros Ho Hc. pose proof (blend_channel_between o c Ho Hc).
  rewrite blend_channel_mean in * by done. split_and!; [done|lia|lia|].
  intros Hc'. apply Z.div_lt_upper_bound; unfold is_u8 in *; lia.
Qed.

Lemma blend_channel_spec_witness :
  blend_channel 255 254 = (255 + 254) / 2 /\ Z.min 255 254 <= blend_channel 255 254 <= Z.max 255 254 /\
  (254 < 255 -> blend_channel 255 254 < 255).
Proof. apply blend_channel_spec; unfold is_u8; lia. Defined.
