(* ===== verification/Segmenter.v ===== *)
(** * Segmenter: [load_image] and [segment_with_boxes] of the SAM script

    sam_segmentation_with_bounding_boxes.py, lines 16-22 and 45-84.
    [load_image] reads the image with OpenCV (B, G, R order), raises
    [FileNotFoundError] when [cv2.imread] returns [None], and converts
    to R, G, B.  [segment_with_boxes] gives the image to the predictor
    ([sam_predictor.set_image]), copies it into [overlay], and for each
    box, inside a [try] whose handler prints and continues: skips a box
    that fails the check of line 57, asks the predictor for one mask,
    skips an empty mask, draws a random colour and blends it into the
    masked pixels.  It then writes the overlay (converted back to
    B, G, R) with [cv2.imwrite] and prints that the result was saved.

    - The network is an interface: the class [SamModel] gives the
      loader of the checkpoint ([sam_model_registry["vit_b"]], which
      accepts or rejects the file's bytes) and the masks
      [SamPredictor.predict(box=..., multimask_output=False)] returns for
      an image and a box, [SamModelLaws] states SAM's contract (at least
      one mask, of the image's shape).  The predictor's current image is
      the [w_sam] field of the world.
    - numpy's global generator is the class [NpRandom]: from the state
      [w_rng], [randint3] gives the colour of
      [np.random.randint(0, 255, size=(3,), dtype=np.uint8)] and the next
      state; [NpRandomLaws] states that the channels lie in [[0, 255)].
    - [segment_box] is one iteration of the loop on the overlay,
      [segment_loop] the loop, [segment_with_boxes] the function.
    - The [.sum()] of the mask is accumulated in [sum_bits] bits, as in
      [MaskToLabel].

    The theorems: a box that fails the check, or whose mask is empty,
    leaves the overlay, the generator and the predictor unchanged; a
    valid box with a non-empty mask blends the drawn colour into exactly
    the masked pixels, each channel becoming the integer mean; no box
    makes the function raise, which raises exactly when [cv2.imread]
    finds no image or [cv2.imwrite] no encoder; the overlay stays a [uint8] image of the
    input's shape; when no box yields a non-empty mask the written image
    is the input, pixel for pixel; the message of line 84 is printed
    even when [cv2.imwrite] could not write; and on integer
    coordinates below [2^53] the check of line 57 rejects exactly a box
    with a negative corner or a corner past the image's size, while a
    box with NaN coordinates passes it. *)

From Stdlib Require Import SpecFloat.
From S2P Require Import Prelude Raster FileSystem PyFloat VocXml Overlay.

Local Open Scope string_scope.

(** The SAM network as the script uses it.
    - [sam_load c]: what [sam_model_registry["vit_b"](MODEL_PATH)]
      (lines 10-12) does with the checkpoint file's contents [c]:
      [torch.load] and [load_state_dict] succeed, or raise (a corrupt
      file, weights of another architecture).
    - [sam_predict]: [SamPredictor.predict(box=box, point_coords=None,
      point_labels=None, multimask_output=False)] on the image last
      given to [set_image]: the masks, or the exception the model
      raised. *)
Class SamModel := {
  sam_load : content -> res unit;
  sam_predict : grid px3 -> box -> res (list (grid bool)) }.

(** SAM's contract: one mask or more, each of the image's height and
    width. *)
Class SamModelLaws `{SamModel} := {
  predict_shape : forall img b ms, sam_predict img b = Ok ms ->
    ms <> [] /\ Forall (grid_wf (grid_h img) (grid_w img)) ms }.

(** [np.random.randint(0, 255, size=(3,), dtype=np.uint8)] from the
    generator's state: the colour and the next state. *)
Class NpRandom := { randint3 : Z -> px3 * Z }.

(** [randint]'s upper bound is exclusive. *)
Definition px_lt255 (p : px3) : Prop :=
  (0 <= ch0 p < 255 /\ 0 <= ch1 p < 255 /\ 0 <= ch2 p < 255)%Z.

Class NpRandomLaws `{NpRandom} := { randint3_range : forall s, px_lt255 (fst (randint3 s)) }.

Section Segmenter.
Context `{SamModel} `{NpRandom} (sum_bits : Z).

(** [load_image(image_path)] (lines 16-22). *)
Definition load_image (image_path : path) : io (grid px3) :=
  do image <- cv2_imread image_path;
  match image with
  | None => io_raise (FileNotFoundError ("File not found: " +:+ String.concat "\" image_path))
  | Some img => io_ret (cvt_swap img)
  end.

(** [sam_predictor.set_image(image)] (line 48). *)
Definition set_image (image : grid px3) : io unit := fun w => (set_sam w (Some image), Ok tt).

(** [sam_predictor.predict(...)] (lines 61-66). *)
Definition predict (b : box) : io (list (grid bool)) :=
  fun w =>
    match w_sam w with
    | Some img => (w, sam_predict img b)
    | None => (w, Raise (RuntimeError "An image must be set with .set_image(...) before mask prediction."))
    end.

(** [np.random.randint(0, 255, size=(3,), dtype=np.uint8)] (line 75). *)
Definition randint3_io : io px3 :=
  fun w => let '(c, s) := randint3 (w_rng w) in (set_rng w s, Ok c).

(** [masks[0]] (line 67). *)
Definition first_mask (masks : list (grid bool)) : res (grid bool) :=
  match masks with
  | m :: _ => Ok m
  | [] => Raise (IndexError "index 0 is out of bounds for axis 0 with size 0")
  end.

Definition f64_zero : f64 := f64_of_Z 0.

(** The condition of line 57, [box[0] < 0 or box[1] < 0 or
    box[2] > image.shape[1] or box[3] > image.shape[0]], in float64. *)
Definition box_invalid (image : grid px3) (b : box) : bool :=
  f64_lt (xmin b) f64_zero || f64_lt (ymin b) f64_zero ||
  f64_lt (f64_of_Z (Z.of_nat (grid_w image))) (xmax b) ||
  f64_lt (f64_of_Z (Z.of_nat (grid_h image))) (ymax b).

(** One iteration of lines 51-79: the overlay after the box. *)
Definition segment_box (image overlay : grid px3) (b : box) : io (grid px3) :=
  io_try
    (if box_invalid image b then
       do _ <- print 58 ""; io_ret overlay
     else
       do masks <- predict b;
       do mask <- io_lift (first_mask masks);
       if (np_sum sum_bits mask =? 0)%Z then
         do _ <- print 71 ""; io_ret overlay
       else
         do color <- randint3_io;
         io_lift (apply_mask overlay mask color))
    (fun _ => do _ <- print 78 ""; io_ret overlay).

(** [for box in bounding_boxes: ...] *)
Fixpoint segment_loop (image overlay : grid px3) (boxes : list box) : io (grid px3) :=
  match boxes with
  | [] => io_ret overlay
  | b :: boxes' => do ov <- segment_box image overlay b; segment_loop image ov boxes'
  end.

(** [segment_with_boxes(image_path, bounding_boxes, output_path)]
    (lines 45-84). *)
Definition segment_with_boxes (image_path : path) (bounding_boxes : list box)
    (output_path : path) : io unit :=
  do image <- load_image image_path;
  do _ <- set_image image;
  do overlay <- segment_loop image image bounding_boxes;
  do _ <- cv2_imwrite output_path (cvt_swap overlay);
  print 84 (String.concat "\" output_path).

End Segmenter.

Close Scope string_scope.

(** The overlay invariant: a [uint8] image of shape [(h, w, 3)]. *)
Definition overlay_inv (h w : nat) (ov : grid px3) : Prop :=
  grid_wf h w ov /\ Forall (Forall px_u8) ov.

(** A picture file as numpy loads it: a [uint8] array of shape
    [(h, w)] or [(h, w, 3)]. *)
Definition picture_inv (h w : nat) (pic : picture) : Prop :=
  match pic with
  | Gray g => grid_wf h w g /\ Forall (Forall is_u8) g
  | Color g => overlay_inv h w g
  end.

(** A box that leaves the overlay as it is: it fails the check of line
    57, or the predictor raises, returns no mask, or an empty first
    mask. *)
Definition box_inert `{SamModel} (sum_bits : Z) (image : grid px3) (b : box) : Prop :=
  box_invalid image b = true \/
  match sam_predict image b with
  | Ok (mask :: _) => np_sum sum_bits mask = 0%Z
  | _ => True
  end.

(** ** One box *)

Section Box.
Context `{SamModel} `{NpRandom} (sum_bits : Z) (image overlay : grid px3) (b : box).

(** The iteration on every path of lines 52-79. *)
Lemma segment_box_eq w :
  segment_box sum_bits image overlay b w =
    if box_invalid image b then (add_out w (Printed 58 ""), Ok overlay)
    else
      match w_sam w with
      | None => (add_out w (Printed 78 ""), Ok overlay)
      | Some img =>
          match sam_predict img b with
          | Ok (mask :: _) =>
              if (np_sum sum_bits mask =? 0)%Z then (add_out w (Printed 71 ""), Ok overlay)
              else
                let '(color, s) := randint3 (w_rng w) in
                match apply_mask overlay mask color with
                | Ok ov => (set_rng w s, Ok ov)
                | Raise _ => (add_out (set_rng w s) (Printed 78 ""), Ok overlay)
                end
          | _ => (add_out w (Printed 78 ""), Ok overlay)
          end
      end.
Proof.
  unfold segment_box, io_try, io_bind, predict. destruct (box_invalid image b); [reflexivity|].
  destruct (w_sam w) as [img|]; [|reflexivity].
  destruct (sam_predict img b) as [[|mask ms]|e]; try reflexivity.
  cbn [io_lift first_mask]. destruct (np_sum sum_bits mask =? 0)%Z; [reflexivity|].
  unfold randint3_io. destruct (randint3 (w_rng w)) as [color s].
  cbn [io_lift]. by destruct (apply_mask overlay mask color).
Qed.
End Box.

(** C16 (functional): a box that fails the check of line 57 is skipped
    with the message of line 58: the overlay, the generator, the
    predictor and the files are unchanged. *)
Theorem segment_box_skips_invalid `{SamModel} `{NpRandom} sum_bits image overlay b w :
  box_invalid image b = true ->
  segment_box sum_bits image overlay b w = (add_out w (Printed 58 ""), Ok overlay).
Proof. intros Hb. by rewrite segment_box_eq, Hb. Qed.

(** C17 (functional): a valid box whose first mask is empty is skipped
    with the message of line 71: no colour is drawn and the overlay is
    unchanged. *)
Theorem segment_box_skips_empty `{SamModel} `{NpRandom} sum_bits image overlay b w mask ms :
  box_invalid image b = false -> w_sam w = Some image ->
  sam_predict image b = Ok (mask :: ms) -> np_sum sum_bits mask = 0%Z ->
  segment_box sum_bits image overlay b w = (add_out w (Printed 71 ""), Ok overlay).
Proof. intros Hb Hs Hp Hm. by rewrite segment_box_eq, Hb, Hs, Hp, Hm. Qed.

Lemma px_lt255_u8 p : px_lt255 p -> px_u8 p.
Proof. unfold px_lt255, px_u8, is_u8. lia. Qed.

Section Laws.
Context `{SamModelLaws} `{NpRandomLaws} (sum_bits : Z) (h wd : nat) (image : grid px3).
Hypothesis Himg : grid_wf h wd image.

Lemma predict_mask_shape b mask ms :
  sam_predict image b = Ok (mask :: ms) -> grid_wf h wd mask.
Proof.
  intros Hp. destruct (predict_shape image b _ Hp) as [_ HF].
  apply Forall_cons in HF as [Hm _]. by apply (grid_wf_same_shape h wd image).
Qed.

Lemma apply_mask_inv ov mask color :
  overlay_inv h wd ov -> grid_wf h wd mask -> px_u8 color ->
  overlay_inv h wd (grid_zip (fun p (b : bool) => if b then blend_px p color else p) ov mask).
Proof.
  intros [Hov Hu] Hm Hc. split; [by apply grid_wf_zip|].
  apply (grid_zip_Forall px_u8); [|exact Hu]. intros p [] Hp; [by apply blend_px_u8|done].
Qed.

(** Every path of one iteration keeps the invariant and never raises. *)
Lemma segment_box_inv ov b w :
  overlay_inv h wd ov -> w_sam w = Some image ->
  exists w' ov', segment_box sum_bits image ov b w = (w', Ok ov') /\ overlay_inv h wd ov' /\
    w_sam w' = Some image /\ w_files w' = w_files w /\ w_dirs w' = w_dirs w.
Proof.
  intros Hinv Hs. rewrite segment_box_eq, Hs.
  destruct (box_invalid image b); [by eauto 10|].
  destruct (sam_predict image b) as [[|mask ms]|e] eqn:Hp; [by eauto 10| |by eauto 10].
  destruct (np_sum sum_bits mask =? 0)%Z; [by eauto 10|].
  pose proof (randint3_range (w_rng w)) as Hc.
  destruct (randint3 (w_rng w)) as [color s]. cbn [fst] in Hc.
  pose proof (predict_mask_shape b mask ms Hp) as Hm.
  destruct Hinv as [Hov Hu].
  rewrite (apply_mask_ok h wd ov mask color Hov Hm).
  exists (set_rng w s). eexists. split; [reflexivity|]. split; [|by eauto].
  apply apply_mask_inv; [done|done|by apply px_lt255_u8].
Qed.

Lemma segment_loop_cons ov b boxes w :
  segment_loop sum_bits image ov (b :: boxes) w =
    let '(w', r) := segment_box sum_bits image ov b w in
    match r with Ok ov' => segment_loop sum_bits image ov' boxes w' | Raise e => (w', Raise e) end.
Proof. reflexivity. Qed.

Lemma segment_loop_keeps_inv boxes :
  forall ov w, overlay_inv h wd ov -> w_sam w = Some image ->
  exists w' ov', segment_loop sum_bits image ov boxes w = (w', Ok ov') /\ overlay_inv h wd ov' /\
    w_sam w' = Some image /\ w_files w' = w_files w /\ w_dirs w' = w_dirs w.
Proof.
  induction boxes as [|b boxes IH]; intros ov w Hinv Hs; [by exists w, ov|].
  rewrite segment_loop_cons.
  destruct (segment_box_inv ov b w Hinv Hs) as (w1 & ov1 & -> & Hinv1 & Hs1 & Hf1 & Hd1).
  destruct (IH ov1 w1 Hinv1 Hs1) as (w2 & ov2 & -> & Hinv2 & Hs2 & Hf2 & Hd2).
  exists w2, ov2. do 3 (split; [done|]). split; congruence.
Qed.

(** C9 (invariant): with SAM's contract and [randint]'s range, the loop
    over any list of boxes returns normally (every exception of a box is
    caught), its overlay stays a [uint8] image of the input's shape, and
    it changes neither the files nor the predictor's image. *)
Theorem segment_loop_inv boxes ov w :
  overlay_inv h wd ov -> w_sam w = Some image ->
  exists w' ov', segment_loop sum_bits image ov boxes w = (w', Ok ov') /\ overlay_inv h wd ov' /\
    w_sam w' = Some image /\ w_files w' = w_files w /\ w_dirs w' = w_dirs w.
Proof. apply segment_loop_keeps_inv. Qed.

(** C3 (functional): a valid box with a non-empty first mask draws one
    colour from the generator and replaces every masked pixel of the
    overlay by the 50/50 mix of the pixel and the colour, channel by
    channel the integer mean [(o + c) / 2] (the float64 computation and
    the [uint8] store give exactly that); the other pixels are kept. *)
Theorem segment_box_blends ov b w mask ms :
  overlay_inv h wd ov -> box_invalid image b = false -> w_sam w = Some image ->
  sam_predict image b = Ok (mask :: ms) -> np_sum sum_bits mask <> 0%Z ->
  exists ov',
    segment_box sum_bits image ov b w = (set_rng w (snd (randint3 (w_rng w))), Ok ov') /\
    overlay_inv h wd ov' /\
    forall d y x, y < h -> x < wd ->
      grid_at d ov' y x =
        if grid_at false mask y x then mean_px (grid_at d ov y x) (fst (randint3 (w_rng w)))
        else grid_at d ov y x.
Proof.
  intros Hinv Hb Hs Hp Hm. rewrite segment_box_eq, Hb, Hs, Hp.
  apply Z.eqb_neq in Hm. rewrite Hm.
  pose proof (randint3_range (w_rng w)) as Hc%px_lt255_u8.
  destruct (randint3 (w_rng w)) as [color s]. cbn [fst snd] in *.
  pose proof (predict_mask_shape b mask ms Hp) as Hmk.
  pose proof Hinv as [Hov Hu].
  rewrite (apply_mask_ok h wd ov mask color Hov Hmk).
  eexists. split; [reflexivity|]. split; [by apply apply_mask_inv|].
  intros d y x Hy Hx. rewrite (grid_at_zip _ h wd _ _ d false) by done.
  destruct (grid_at false mask y x); [|done].
  apply blend_px_mean; [|done]. by apply (grid_at_Forall px_u8 h wd ov).
Qed.
End Laws.

(** ** The whole function *)

Section Whole.
Context `{SamModel} `{NpRandom} (sum_bits : Z).

Lemma load_image_eq p w :
  load_image p w =
    match w_files w !! p with
    | Some (CPicture (Color g)) => (w, Ok g)
    | Some (CPicture (Gray g)) => (w, Ok (grid_map (fun v => mkPx v v v) g))
    | _ => (w, Raise (FileNotFoundError ("File not found: " +:+ String.concat "\" p)))
    end.
Proof.
  unfold load_image, io_bind, cv2_imread.
  destruct (w_files w !! p) as [[[g|g]| | |]|]; try reflexivity.
  - unfold io_ret, cvt_swap, grid_map. f_equal. f_equal. rewrite map_map.
    apply map_ext. intros r. by rewrite map_map.
  - by rewrite cvt_swap_involutive.
Qed.

Lemma segment_box_total image ov b w :
  exists w' ov', segment_box sum_bits image ov b w = (w', Ok ov') /\
    w_files w' = w_files w /\ w_dirs w' = w_dirs w /\ w_sam w' = w_sam w.
Proof.
  rewrite segment_box_eq. destruct (box_invalid image b); [by eauto 10|].
  destruct (w_sam w) as [img|] eqn:Hs; [|by eauto 10].
  destruct (sam_predict img b) as [[|mask ms]|e]; [by eauto 10| |by eauto 10].
  destruct (np_sum sum_bits mask =? 0)%Z; [by eauto 10|].
  destruct (randint3 (w_rng w)) as [color s].
  destruct (apply_mask ov mask color); by eauto 10.
Qed.

Lemma segment_loop_total image boxes :
  forall ov w, exists w' ov', segment_loop sum_bits image ov boxes w = (w', Ok ov') /\
    w_files w' = w_files w /\ w_dirs w' = w_dirs w /\ w_sam w' = w_sam w.
Proof.
  induction boxes as [|b boxes IH]; intros ov w; [by exists w, ov|].
  rewrite segment_loop_cons.
  destruct (segment_box_total image ov b w) as (w1 & ov1 & -> & Hf1 & Hd1 & Hs1).
  destruct (IH ov1 w1) as (w2 & ov2 & -> & Hf2 & Hd2 & Hs2).
  exists w2, ov2. split; [done|]. repeat split; congruence.
Qed.

Lemma segment_loop_inert image boxes :
  forall ov w, Forall (box_inert sum_bits image) boxes -> w_sam w = Some image ->
  exists w', segment_loop sum_bits image ov boxes w = (w', Ok ov) /\
    w_files w' = w_files w /\ w_dirs w' = w_dirs w /\ w_sam w' = Some image.
Proof.
  induction boxes as [|b boxes IH]; intros ov w Hin Hs; [by exists w|].
  apply Forall_cons in Hin as [Hb Hin]. rewrite segment_loop_cons, segment_box_eq, Hs.
  assert (Hnext : forall m, exists w', segment_loop sum_bits image ov boxes (add_out w m) = (w', Ok ov) /\
    w_files w' = w_files w /\ w_dirs w' = w_dirs w /\ w_sam w' = Some image)
    by (intros m; exact (IH ov (add_out w m) Hin Hs)).
  destruct (box_invalid image b) eqn:Ei; [apply Hnext|].
  destruct Hb as [Hb|Hb]; [congruence|].
  destruct (sam_predict image b) as [[|mask ms]|e]; [apply Hnext| |apply Hnext].
  rewrite Hb. apply Hnext.
Qed.

Lemma segment_with_boxes_eq ip boxes op w :
  segment_with_boxes sum_bits ip boxes op w =
    match load_image ip w with
    | (w1, Ok image) =>
        match segment_loop sum_bits image image boxes (set_sam w1 (Some image)) with
        | (w2, Ok ov) =>
            match cv2_imwrite op (cvt_swap ov) w2 with
            | (w3, Ok _) => (add_out w3 (Printed 84 (String.concat "\" op)), Ok tt)
            | (w3, Raise e) => (w3, Raise e)
            end
        | (w2, Raise e) => (w2, Raise e)
        end
    | (w1, Raise e) => (w1, Raise e)
    end.
Proof.
  unfold segment_with_boxes, io_bind at 1. destruct (load_image ip w) as [w1 [image|e]]; [|done].
  unfold io_bind, set_image. destruct (segment_loop _ _ _ _ _) as [w2 [ov|e]]; [|done].
  by destruct (cv2_imwrite op (cvt_swap ov) w2) as [w3 [?|?]].
Qed.
End Whole.

(** [segment_with_boxes] when no box draws anything. *)
Lemma segment_with_boxes_inert_run `{SamModel} `{NpRandom} sum_bits ip boxes op w g :
  w_files w !! ip = Some (CPicture (Color g)) -> is_dir w (parent op) = true ->
  cv2_has_writer op = true -> Forall (box_inert sum_bits g) boxes ->
  exists w',
    segment_with_boxes sum_bits ip boxes op w = (w', Ok tt) /\
    w_files w' = <[op := CPicture (Color g)]> (w_files w).
Proof.
  intros Hip Hdir Hext Hin. rewrite segment_with_boxes_eq, load_image_eq, Hip.
  destruct (segment_loop_inert sum_bits g boxes g (set_sam w (Some g)) Hin eq_refl)
    as (w2 & -> & Hf & Hd & _). cbn [w_dirs w_files set_sam] in Hf, Hd.
  rewrite (cv2_imwrite_writer _ _ _ Hext). unfold is_dir. rewrite Hd. fold (is_dir w (parent op)). rewrite Hdir.
  eexists. split; [reflexivity|]. cbn. by rewrite cvt_swap_involutive, Hf.
Qed.

(** C5 (functional): when every box fails the check or yields no
    non-empty mask (spec: "a bounding box producing an empty mask
    leaves the output image pixel-identical to the input"),
    [segment_with_boxes] on a colour image, with an output path whose
    extension OpenCV can encode, writes exactly the input pixels to the
    output path and returns normally. *)
Theorem segment_with_boxes_identity `{SamModel} `{NpRandom} sum_bits ip boxes op w g :
  w_files w !! ip = Some (CPicture (Color g)) -> is_dir w (parent op) = true ->
  cv2_has_writer op = true -> Forall (box_inert sum_bits g) boxes ->
  exists w',
    segment_with_boxes sum_bits ip boxes op w = (w', Ok tt) /\
    w_files w' = <[op := CPicture (Color g)]> (w_files w).
Proof. apply segment_with_boxes_inert_run. Qed.


(** C29 (error): when the output directory does not exist (and the
    output's extension has an encoder), [cv2.imwrite] writes nothing (it returns [False], which the script
    ignores), yet the last message printed is ["Segmentation result
    saved: <output_path>"] of line 84. *)
Theorem segment_with_boxes_reports_unsaved `{SamModel} `{NpRandom} sum_bits ip boxes op w pic :
  w_files w !! ip = Some (CPicture pic) -> is_dir w (parent op) = false -> cv2_has_writer op = true ->
  exists w',
    segment_with_boxes sum_bits ip boxes op w = (w', Ok tt) /\
    w_files w' = w_files w /\
    last (w_out w') = Some (Printed 84 (String.concat "\" op)).
Proof.
  intros Hip Hdir Hext. rewrite segment_with_boxes_eq, load_image_eq, Hip.
  destruct pic as [g|g];
    match goal with
    | |- context [segment_loop sum_bits ?img ?img boxes ?w1] =>
        destruct (segment_loop_total sum_bits img boxes img w1) as (w2 & ov & -> & Hf & Hd & _)
    end;
    cbn [w_dirs w_files set_sam] in Hf, Hd; rewrite (cv2_imwrite_writer _ _ _ Hext); unfold is_dir;
    rewrite Hd; fold (is_dir w (parent op)); rewrite Hdir;
    eexists; (split; [reflexivity|]); (split; [exact Hf|]); cbn; by rewrite last_snoc.
Qed.

(** C30 (functional): for a box of integer coordinates (what an
    annotation of integers reads as, below [2^53]) the float64 check of
    line 57 is exactly the integer check [x1 < 0 or y1 < 0 or
    x2 > width or y2 > height], width and height being
    [image.shape[1]] and [image.shape[0]]; and a box whose coordinates
    are NaN ([float('nan')]) passes it, since every comparison with NaN
    is false. *)
Theorem box_check_integer_coords image (x1 y1 x2 y2 : Z) :
  (Z.abs x1 < 2 ^ 53)%Z -> (Z.abs y1 < 2 ^ 53)%Z -> (Z.abs x2 < 2 ^ 53)%Z -> (Z.abs y2 < 2 ^ 53)%Z ->
  (Z.of_nat (grid_w image) < 2 ^ 53)%Z -> (Z.of_nat (grid_h image) < 2 ^ 53)%Z ->
  box_invalid image (Box (f64_of_Z x1) (f64_of_Z y1) (f64_of_Z x2) (f64_of_Z y2)) =
    ((x1 <? 0) || (y1 <? 0) || (Z.of_nat (grid_w image) <? x2) || (Z.of_nat (grid_h image) <? y2))%Z /\
  box_invalid image (Box S754_nan S754_nan S754_nan S754_nan) = false.
Proof.
  intros H1 H2 H3 H4 Hw Hh. split.
  - unfold box_invalid, f64_zero. cbn [xmin ymin xmax ymax]. rewrite !f64_lt_of_Z by lia. reflexivity.
  - unfold box_invalid, f64_lt. by destruct (f64_of_Z _), (f64_of_Z _).
Qed.

(** [segment_with_boxes] writes no file but its output. *)
Lemma segment_with_boxes_frames `{SamModel} `{NpRandom} sum_bits ip boxes op :
  frames (eq op) (segment_with_boxes sum_bits ip boxes op).
Proof.
  intros w p Hp. rewrite segment_with_boxes_eq, load_image_eq.
  destruct (w_files w !! ip) as [[[g|g]| | |]|]; try reflexivity;
    match goal with
    | |- context [segment_loop sum_bits ?img ?img boxes ?w1] =>
        destruct (segment_loop_total sum_bits img boxes img w1) as (w2 & ov & -> & Hf & _)
    end;
    destruct (cv2_imwrite op (cvt_swap ov) w2) as [w3 [r|e]] eqn:E;
    pose proof (frames_cv2_imwrite (eq op) op (cvt_swap ov) eq_refl w2 p Hp) as Hw;
    rewrite E in Hw; cbn [fst add_out w_files] in *; by rewrite Hw, Hf.
Qed.

Lemma segment_with_boxes_writes `{SamModel} `{NpRandom} sum_bits ip boxes op w pic :
  w_files w !! ip = Some (CPicture pic) -> is_dir w (parent op) = true -> cv2_has_writer op = true ->
  exists w' ov,
    segment_with_boxes sum_bits ip boxes op w = (w', Ok tt) /\
    w_files w' = <[op := CPicture (Color ov)]> (w_files w) /\ w_dirs w' = w_dirs w.
Proof.
  intros Hip Hdir Hext. rewrite segment_with_boxes_eq, load_image_eq, Hip.
  destruct pic as [g|g];
    match goal with
    | |- context [segment_loop sum_bits ?img ?img boxes ?w1] =>
        destruct (segment_loop_total sum_bits img boxes img w1) as (w2 & ov & -> & Hf & Hd & _)
    end;
    cbn [w_dirs w_files set_sam] in Hf, Hd; rewrite (cv2_imwrite_writer _ _ _ Hext); unfold is_dir;
    rewrite Hd; fold (is_dir w (parent op)); rewrite Hdir; do 2 eexists; (split; [reflexivity|]);
    cbn; by rewrite Hf, Hd, cvt_swap_involutive.
Qed.

Lemma segment_with_boxes_keeps_dirs `{SamModel} `{NpRandom} sum_bits ip boxes op :
  keeps_dirs (segment_with_boxes sum_bits ip boxes op).
Proof.
  apply keeps_dirs_same. intros w. rewrite segment_with_boxes_eq, load_image_eq.
  destruct (w_files w !! ip) as [[[g|g]| | |]|]; try reflexivity;
    match goal with
    | |- context [segment_loop sum_bits ?img ?img boxes ?w1] =>
        destruct (segment_loop_total sum_bits img boxes img w1) as (w2 & ov & -> & _ & Hd & _)
    end;
    unfold cv2_imwrite; (destruct (cv2_has_writer op); [destruct (is_dir w2 (parent op))|]); exact Hd.
Qed.

(** ** Examples *)

Definition demo_image : grid px3 :=
  [[mkPx 10 20 30; mkPx 200 100 50]; [mkPx 0 0 0; mkPx 255 255 255]]%Z.

(** A predictor selecting the whole image, one selecting nothing, and
    a generator drawing always the same colour. *)
Definition const_mask (v : bool) (img : grid px3) : grid bool :=
  replicate (grid_h img) (replicate (grid_w img) v).

(** A checkpoint loads when it is a binary file starting with the
    pickle protocol byte [0x80]; anything else fails like [torch.load]
    on a non-pickle file. *)
Definition demo_load (c : content) : res unit :=
  match c with
  | CBytes (128 :: _) => Ok tt
  | _ => Raise (RuntimeError "Invalid magic number; corrupt file?")
  end%Z.

Definition full_sam : SamModel :=
  {| sam_load := demo_load; sam_predict := fun img _ => Ok [const_mask true img] |}.
Definition empty_sam : SamModel :=
  {| sam_load := demo_load; sam_predict := fun img _ => Ok [const_mask false img] |}.
Definition demo_rng : NpRandom := {| randint3 := fun s => (mkPx 100 150 200, (s + 1)%Z) |}.

Definition demo_box : box := Box (f64_of_Z 0) (f64_of_Z 0) (f64_of_Z 2) (f64_of_Z 2).
Definition outside_box : box := Box (f64_of_Z 3) (f64_of_Z 0) (f64_of_Z 5) (f64_of_Z 2).

Definition demo_world : world :=
  mkWorld {[ ["i"; "a.jpg"] := CPicture (Color demo_image) ]} {[ ["i"]; ["o"] ]} [] 0 None.

Lemma const_mask_wf v img : grid_wf (grid_h img) (grid_w img) (const_mask v img).
Proof. split; [apply length_replicate|]. apply Forall_replicate, length_replicate. Qed.

Lemma full_sam_laws : @SamModelLaws full_sam.
Proof.
  constructor. intros img b ms [= <-]. split; [done|]. constructor; [apply const_mask_wf|constructor].
Qed.

Lemma demo_rng_laws : @NpRandomLaws demo_rng.
Proof. constructor. intros s. cbn. unfold px_lt255. cbn. lia. Qed.

Lemma demo_image_inv : overlay_inv 2 2 demo_image.
Proof.
  split; [split; [reflexivity|repeat constructor]|].
  repeat constructor; unfold is_u8; cbn; lia.
Qed.

Lemma segment_box_skips_invalid_witness :
  segment_box (H := full_sam) (H0 := demo_rng) 64 demo_image demo_image outside_box demo_world =
    (add_out demo_world (Printed 58 ""), Ok demo_image).
Proof. apply (@segment_box_skips_invalid full_sam demo_rng). vm_compute. reflexivity. Defined.

Lemma segment_box_skips_empty_witness :
  segment_box (H := empty_sam) (H0 := demo_rng) 64 demo_image demo_image demo_box
    (set_sam demo_world (Some demo_image)) =
    (add_out (set_sam demo_world (Some demo_image)) (Printed 71 ""), Ok demo_image).
Proof.
  apply (@segment_box_skips_empty empty_sam demo_rng 64 demo_image demo_image demo_box _
           (const_mask false demo_image) []); vm_compute; reflexivity.
Defined.

Lemma segment_box_blends_witness :
  exists ov',
    segment_box (H := full_sam) (H0 := demo_rng) 64 demo_image demo_image demo_box
      (set_sam demo_world (Some demo_image)) =
      (set_rng (set_sam demo_world (Some demo_image)) 1%Z, Ok ov') /\
    overlay_inv 2 2 ov' /\
    forall d y x, y < 2 -> x < 2 ->
      grid_at d ov' y x =
        if grid_at false (const_mask true demo_image) y x
        then mean_px (grid_at d demo_image y x) (mkPx 100 150 200)
        else grid_at d demo_image y x.
Proof.
  apply (@segment_box_blends full_sam full_sam_laws demo_rng demo_rng_laws 64 2 2 demo_image
           (proj1 demo_image_inv) demo_image demo_box (set_sam demo_world (Some demo_image))
           (const_mask true demo_image) []).
  - exact demo_image_inv.
  - vm_compute. reflexivity.
  - reflexivity.
  - reflexivity.
  - vm_compute. discriminate.
Defined.

Lemma segment_loop_inv_witness :
  exists w' ov',
    segment_loop (H := full_sam) (H0 := demo_rng) 64 demo_image demo_image [demo_box; outside_box]
      (set_sam demo_world (Some demo_image)) = (w', Ok ov') /\
    overlay_inv 2 2 ov' /\ w_sam w' = Some demo_image /\
    w_files w' = w_files (set_sam demo_world (Some demo_image)) /\
    w_dirs w' = w_dirs (set_sam demo_world (Some demo_image)).
Proof.
  apply (@segment_loop_inv full_sam full_sam_laws demo_rng demo_rng_laws 64 2 2 demo_image
           (proj1 demo_image_inv) [demo_box; outside_box] demo_image).
  - exact demo_image_inv.
  - reflexivity.
Defined.

Lemma segment_with_boxes_identity_witness :
  exists w',
    segment_with_boxes (H := empty_sam) (H0 := demo_rng) 64 ["i"; "a.jpg"] [demo_box; outside_box]
      ["o"; "a.jpg"] demo_world = (w', Ok tt) /\
    w_files w' = <[["o"; "a.jpg"] := CPicture (Color demo_image)]> (w_files demo_world).
Proof.
  apply (@segment_with_boxes_identity empty_sam demo_rng); [reflexivity|reflexivity|reflexivity|].
  repeat constructor; right; vm_compute; reflexivity.
Defined.

Lemma segment_with_boxes_reports_unsaved_witness :
  exists w',
    segment_with_boxes (H := full_sam) (H0 := demo_rng) 64 ["i"; "a.jpg"] [demo_box]
      ["x"; "a.jpg"] demo_world = (w', Ok tt) /\
    w_files w' = w_files demo_world /\
    last (w_out w') = Some (Printed 84 (String.concat "\" ["x"; "a.jpg"])).
Proof.
  apply (@segment_with_boxes_reports_unsaved full_sam demo_rng 64 _ _ _ _ (Color demo_image));
    reflexivity.
Defined.

(** ** The output image *)

Lemma load_image_inv p w h wd pic :
  w_files w !! p = Some (CPicture pic) -> picture_inv h wd pic ->
  exists img, load_image p w = (w, Ok img) /\ overlay_inv h wd img.
Proof.
  intros Hp Hpic. rewrite load_image_eq, Hp. destruct pic as [g|g]; [|by exists g].
  destruct Hpic as [Hwf Hu]. eexists. split; [reflexivity|]. split; [by apply grid_wf_map|].
  unfold grid_map. apply Forall_map. eapply Forall_impl; [exact Hu|]. intros r Hr.
  apply Forall_map. eapply Forall_impl; [exact Hr|]. intros v Hv. unfold px_u8. cbn. tauto.
Qed.

(** C13 (type): with SAM's contract and [randint]'s range, when the image
    file holds a [uint8] picture of shape [(h, w)], the output folder
    exists and its extension has an encoder, [segment_with_boxes] returns normally and writes a colour
    [uint8] picture of the same shape to the output path, and nothing
    else. *)
Theorem segment_with_boxes_output_type `{SamModelLaws} `{NpRandomLaws} sum_bits ip boxes op w h wd pic :
  w_files w !! ip = Some (CPicture pic) -> picture_inv h wd pic -> is_dir w (parent op) = true ->
  cv2_has_writer op = true ->
  exists w' ov,
    segment_with_boxes sum_bits ip boxes op w = (w', Ok tt) /\
    w_files w' = <[op := CPicture (Color ov)]> (w_files w) /\ overlay_inv h wd ov.
Proof.
  intros Hip Hpic Hdir Hext. rewrite segment_with_boxes_eq.
  destruct (load_image_inv ip w h wd pic Hip Hpic) as (img & -> & Hinv).
  destruct (segment_loop_keeps_inv sum_bits h wd img (proj1 Hinv) boxes img (set_sam w (Some img)) Hinv eq_refl)
    as (w2 & ov & -> & Hov & _ & Hf & Hd). cbn [w_dirs w_files set_sam] in Hf, Hd.
  rewrite (cv2_imwrite_writer _ _ _ Hext). unfold is_dir. rewrite Hd. fold (is_dir w (parent op)). rewrite Hdir.
  exists (add_out (set_files w2 (<[op := CPicture (Color ov)]> (w_files w))) (Printed 84 (String.concat "\" op))), ov.
  split; [|by split]. by rewrite cvt_swap_involutive, Hf.
Qed.

Lemma segment_with_boxes_output_type_witness :
  exists w' ov,
    segment_with_boxes (H := full_sam) (H0 := demo_rng) 64 ["i"; "a.jpg"] [demo_box; outside_box]
      ["o"; "a.jpg"] demo_world = (w', Ok tt) /\
    w_files w' = <[["o"; "a.jpg"] := CPicture (Color ov)]> (w_files demo_world) /\ overlay_inv 2 2 ov.
Proof.
  apply (@segment_with_boxes_output_type full_sam full_sam_laws demo_rng demo_rng_laws 64 _ _ _ _ 2 2
           (Color demo_image)); [reflexivity|exact demo_image_inv|reflexivity|reflexivity].
Defined.


(** ** The console *)

Lemma segment_box_out_grows `{SamModel} `{NpRandom} sum_bits image ov b :
  out_grows (segment_box sum_bits image ov b).
Proof.
  intros w. rewrite segment_box_eq.
  destruct (box_invalid image b); [simpl; by apply prefix_app_r|].
  destruct (w_sam w) as [img|]; [|simpl; by apply prefix_app_r].
  destruct (sam_predict img b) as [[|mask ms]|e]; [simpl; by apply prefix_app_r| |simpl; by apply prefix_app_r].
  destruct (np_sum sum_bits mask =? 0)%Z; [simpl; by apply prefix_app_r|].
  destruct (randint3 (w_rng w)) as [color s].
  destruct (apply_mask ov mask color); [done|simpl; by apply prefix_app_r].
Qed.

Lemma segment_loop_out_grows `{SamModel} `{NpRandom} sum_bits image boxes :
  forall ov, out_grows (segment_loop sum_bits image ov boxes).
Proof.
  induction boxes as [|b boxes IH]; intros ov w; [done|].
  rewrite segment_loop_cons. pose proof (segment_box_out_grows sum_bits image ov b w) as H1.
  destruct (segment_box sum_bits image ov b w) as [w1 [ov1|e]]; [|done].
  etransitivity; [exact H1|apply IH].
Qed.

(** [segment_with_boxes] only appends to the console, and when it
    returns normally its last message is the one of line 84. *)
Lemma segment_with_boxes_reports `{SamModel} `{NpRandom} sum_bits ip boxes op w :
  w_out w `prefix_of` w_out (fst (segment_with_boxes sum_bits ip boxes op w)) /\
  (snd (segment_with_boxes sum_bits ip boxes op w) = Ok tt ->
   In (Printed 84 (String.concat "\" op)) (w_out (fst (segment_with_boxes sum_bits ip boxes op w)))).
Proof.
  rewrite segment_with_boxes_eq, load_image_eq.
  destruct (w_files w !! ip) as [[[g|g]| | |]|]; try (split; [done|discriminate]);
    match goal with
    | |- context [segment_loop sum_bits ?img ?img boxes ?w1] =>
        pose proof (segment_loop_out_grows sum_bits img boxes img w1) as Hg;
        destruct (segment_loop sum_bits img img boxes w1) as [w2 [ov|e]]; [|split; [exact Hg|discriminate]]
    end;
    pose proof (cv2_imwrite_out op (cvt_swap ov) w2) as Hw;
    destruct (cv2_imwrite op (cvt_swap ov) w2) as [w3 [r|e]]; cbn in Hw, Hg |- *; rewrite Hw;
    first [split; [by apply prefix_app_r|intros _; apply in_or_app; right; by left]|split; [exact Hg|discriminate]].
Qed.

Lemma box_check_integer_coords_witness :
  box_invalid demo_image (Box (f64_of_Z 0) (f64_of_Z 0) (f64_of_Z 3) (f64_of_Z 2)) =
    ((0 <? 0) || (0 <? 0) || (Z.of_nat (grid_w demo_image) <? 3) || (Z.of_nat (grid_h demo_image) <? 2))%Z /\
  box_invalid demo_image (Box S754_nan S754_nan S754_nan S754_nan) = false.
Proof. apply box_check_integer_coords; vm_compute; reflexivity. Defined.

