(* ===== verification/SamPipeline.v ===== *)
(** * SamPipeline: [process_folder] and the main block of the SAM script

    sam_segmentation_with_bounding_boxes.py, lines 9-13 (loading the
    model) and 87-117.  [process_folder(dataset_folder, output_folder)]
    creates the output folder, lists [JPEGImages], and for every name
    ending in [.jpg] or [.png]: skips it with the message of line 100
    when [Annotations/<stem>.xml] does not exist, and otherwise reads the
    boxes and segments the image into [output_folder/<name>], printing
    the message of line 107 when that raises.  The main block runs
    [process_folder] on the two fixed folders inside a [try] that
    prints ["All files processed successfully!"] or the general error.

    - [process_file] is one iteration of the loop of lines 93-107,
      [process_folder] the function, [sam_main] lines 109-117 and
      [sam_script] the whole script, the model loading of lines 9-13
      first ([load_model]: [torch.load] of the checkpoint, outside any
      [try]).

    The theorems: the script writes no file outside the output folder;
    an image without annotation gets the message of line 100 and no
    output; an image whose annotation is not well-formed XML is not
    skipped, its output is a copy of the input; the main block never
    raises, and the whole script raises exactly when the checkpoint is
    missing or rejected by the model's loader.  Liveness: the loop, run as the machine [loop_step] of
    [FileSystem], eventually reaches its end without an exception with
    every image of the listing [reported] (line 100, 107 or 84), and
    the main block then ends with the success message of line 115,
    whatever the outcome of each image. *)

From S2P Require Import Prelude Raster FileSystem PyFloat VocXml Overlay Segmenter.

Local Open Scope string_scope.

Section Pipeline.
Context `{SamModel} `{NpRandom} (sum_bits : Z).

Definition is_image_name (file_name : string) : bool :=
  py_endswith file_name ".jpg" || py_endswith file_name ".png".

(** [os.path.join(annotation_folder, os.path.splitext(file_name)[0] + ".xml")] (line 96). *)
Definition xml_path_of (annotation_folder : path) (file_name : string) : path :=
  app annotation_folder [py_splitext_root file_name +:+ ".xml"].

(** One iteration of lines 93-107. *)
Definition process_file (image_folder annotation_folder output_folder : path) (file_name : string) :
    io unit :=
  if is_image_name file_name then
    let image_path := app image_folder [file_name] in
    let label_path := xml_path_of annotation_folder file_name in
    let output_path := app output_folder [file_name] in
    do ex <- path_exists label_path;
    if negb ex then print 100 (String.concat "\" label_path)
    else
      io_try (do bounding_boxes <- read_labels_from_xml label_path;
              segment_with_boxes sum_bits image_path bounding_boxes output_path)
             (fun _ => print 107 file_name)
  else io_ret tt.

(** [process_folder(dataset_folder, output_folder)] (lines 87-107). *)
Definition process_folder (dataset_folder output_folder : path) : io unit :=
  let image_folder := app dataset_folder ["JPEGImages"] in
  let annotation_folder := app dataset_folder ["Annotations"] in
  do _ <- makedirs output_folder;
  do names <- listdir image_folder;
  io_iter (process_file image_folder annotation_folder output_folder) names.

Definition dataset_folder : path := ["D:"; "segmentation"; "dataset"].
Definition output_folder : path := ["D:"; "segmentation"; "output"].
Definition model_path : path := ["D:"; "segmentation"; "sam_vit_b_01ec64.pth"].

(** Lines 109-117. *)
Definition sam_main : io unit :=
  io_try (do _ <- process_folder dataset_folder output_folder;
          print 115 "All files processed successfully!")
         (fun _ => print 117 "General error").

End Pipeline.

(** Lines 9-13: [sam_model_registry["vit_b"](MODEL_PATH)] opens the
    checkpoint (a missing file raises [FileNotFoundError]; a directory
    there raises [IsADirectoryError] in Python, modelled by the same
    constructor), then loads it ([sam_load] of the [SamModel]); all of
    it outside any [try]. *)
Definition load_model `{SamModel} (p : path) : io unit :=
  fun w =>
    match w_files w !! p with
    | Some c => (w, sam_load c)
    | None => (w, Raise (FileNotFoundError (String.concat "\" p)))
    end.

(** The script run as [__main__]. *)
Definition sam_script `{SamModel} `{NpRandom} (sum_bits : Z) : io unit :=
  do _ <- load_model model_path; sam_main sum_bits.

(** Image [n] has been reported on the console: the message of line
    100 (no annotation), of line 107 (an exception) or of line 84 (the
    result was saved).  Names that are not images need nothing. *)
Definition reported (anf outf : path) (n : string) (w : world) : Prop :=
  is_image_name n = false \/
  In (Printed 100 (String.concat "\" (xml_path_of anf n))) (w_out w) \/
  In (Printed 107 n) (w_out w) \/
  In (Printed 84 (String.concat "\" (app outf [n]))) (w_out w).

Close Scope string_scope.

(** ** One file *)

(** The output of an image keeps its [.jpg] or [.png] name, for which
    OpenCV has a writer. *)
Lemma image_name_writer (outf : path) n : is_image_name n = true -> cv2_has_writer (app outf [n]) = true.
Proof.
  unfold is_image_name. intros [[a ->]%py_endswith_split|[a ->]%py_endswith_split]%orb_true_iff;
    (apply cv2_has_writer_snoc; [reflexivity|]); cbn; tauto.
Qed.

Section File.
Context `{SamModel} `{NpRandom} (sum_bits : Z) (imf anf outf : path).

Lemma process_file_frames n : frames (eq (app outf [n])) (process_file sum_bits imf anf outf n).
Proof.
  unfold process_file. destruct (is_image_name n); [|apply frames_ret].
  apply frames_bind; [apply frames_path_exists|]. intros ex. destruct (negb ex); [apply frames_print|].
  apply frames_try; [|intros; apply frames_print].
  apply frames_bind; [apply read_labels_frames|]. intros bbs. apply segment_with_boxes_frames.
Qed.

Lemma process_file_keeps_dirs n : keeps_dirs (process_file sum_bits imf anf outf n).
Proof.
  unfold process_file. destruct (is_image_name n); [|by intros w].
  apply keeps_dirs_bind; [by intros w|]. intros ex. destruct (negb ex); [by intros w|].
  apply keeps_dirs_try; [|by intros e w].
  apply keeps_dirs_bind; [apply read_labels_keeps_dirs|]. intros bbs.
  apply segment_with_boxes_keeps_dirs.
Qed.

Lemma process_file_total n w : exists w', process_file sum_bits imf anf outf n w = (w', Ok tt).
Proof.
  unfold process_file. destruct (is_image_name n); [|by eexists].
  unfold io_bind at 1, path_exists. cbn [fst snd].
  destruct (negb _); [by eexists|].
  unfold io_try. destruct (io_bind _ _ _) as [w' [[]|e]]; by eexists.
Qed.

(** An image whose annotation exists and whose file is a picture gets
    an output picture. *)
Lemma process_file_writes n w pic :
  is_image_name n = true -> is_file w (xml_path_of anf n) = true ->
  w_files w !! app imf [n] = Some (CPicture pic) -> is_dir w outf = true ->
  exists w' ov, process_file sum_bits imf anf outf n w = (w', Ok tt) /\
    w_files w' !! app outf [n] = Some (CPicture (Color ov)).
Proof.
  intros Hn Hl Hi Ho. unfold process_file. rewrite Hn.
  unfold io_bind at 1, path_exists. cbn [fst snd]. fold (xml_path_of anf n). rewrite Hl. cbn [orb negb].
  unfold io_try, io_bind.
  destruct (read_labels_cases (xml_path_of anf n) w) as (bbs & [E|E]); rewrite E;
    (edestruct (segment_with_boxes_writes sum_bits (app imf [n]) bbs (app outf [n])) as (w2 & ov & -> & Hf & _);
     [exact Hi|unfold parent; by rewrite removelast_last|by apply image_name_writer|]);
    do 2 eexists; (split; [reflexivity|]); rewrite Hf; apply lookup_insert_eq.
Qed.
End File.

(** ** The loop over the image folder *)

Section Loop.
Context `{SamModel} `{NpRandom} (sum_bits : Z) (imf anf outf : path) (w0 : world).
Hypotheses (Himf : imf <> outf) (Hanf : anf <> outf).

(** The files the loop may not touch are as in [w0], and the output
    folder exists. *)
Definition loop_inv (w : world) : Prop :=
  (forall p, (forall m, p <> app outf [m]) -> w_files w !! p = w_files w0 !! p) /\ outf ∈ w_dirs w.

(** Image [n], if it has an annotation, has its output. *)
Definition output_done (n : string) (w : world) : Prop :=
  forall pic, is_image_name n = true -> w_files w0 !! app imf [n] = Some (CPicture pic) ->
    is_file w0 (xml_path_of anf n) = true ->
    exists ov, w_files w !! app outf [n] = Some (CPicture (Color ov)).

Lemma not_output d n : d <> outf -> forall m, app d [n] <> app outf [m].
Proof. intros Hd m E. apply app_inj_tail in E as [? _]. contradiction. Qed.

Lemma is_file_inv w p : loop_inv w -> (forall m, p <> app outf [m]) -> is_file w p = is_file w0 p.
Proof. intros [Hf _] Hp. unfold is_file. by rewrite Hf. Qed.

Lemma loop_body n w :
  loop_inv w ->
  exists w', process_file sum_bits imf anf outf n w = (w', Ok tt) /\ loop_inv w' /\ output_done n w'.
Proof.
  intros Hinv. destruct (process_file_total sum_bits imf anf outf n w) as [w' Hrun].
  exists w'. split; [done|]. split.
  - split.
    + intros p Hp. rewrite <- (proj1 Hinv p Hp).
      pose proof (process_file_frames sum_bits imf anf outf n w p) as Hfr. rewrite Hrun in Hfr.
      apply Hfr. intros <-. by apply (Hp n).
    + pose proof (process_file_keeps_dirs sum_bits imf anf outf n w) as Hk. rewrite Hrun in Hk.
      apply Hk, Hinv.
  - intros pic Hn Hi Hl.
    destruct (process_file_writes sum_bits imf anf outf n w pic) as (w'' & ov & Hrun' & Hout).
    + exact Hn.
    + rewrite is_file_inv by (done || apply not_output, Hanf). exact Hl.
    + rewrite (proj1 Hinv) by (apply not_output, Himf). exact Hi.
    + apply bool_decide_eq_true_2, Hinv.
    + rewrite Hrun in Hrun'. injection Hrun' as <-. by exists ov.
Qed.

Lemma loop_preserve x y w w' :
  x <> y -> loop_inv w -> output_done x w ->
  process_file sum_bits imf anf outf y w = (w', Ok tt) -> output_done x w'.
Proof.
  intros Hxy _ Hq Hrun pic Hn Hi Hl. destruct (Hq pic Hn Hi Hl) as [ov Hov]. exists ov.
  pose proof (process_file_frames sum_bits imf anf outf y w (app outf [x])) as Hfr.
  rewrite Hrun in Hfr. cbn [fst] in Hfr. etransitivity; [apply Hfr|exact Hov]. intros E. apply app_inj_tail in E as [_ ->]. by apply Hxy.
Qed.
End Loop.

(** C2 (functional): [process_folder] on a dataset whose [JPEGImages]
    folder exists, with an output folder that can be created and is
    neither of the input folders, returns normally, and every [.jpg] or
    [.png] picture of [JPEGImages] whose annotation
    [Annotations/<stem>.xml] exists has a colour picture of the same
    name in the output folder. *)
Theorem process_folder_outputs `{SamModel} `{NpRandom} sum_bits df outf w :
  is_dir w (app df ["JPEGImages"]) = true -> outf <> [] ->
  existsb (is_file w) (prefixes outf) = false ->
  app df ["JPEGImages"] <> outf -> app df ["Annotations"] <> outf ->
  exists w', process_folder sum_bits df outf w = (w', Ok tt) /\
    forall n pic, is_image_name n = true ->
      w_files w !! app (app df ["JPEGImages"]) [n] = Some (CPicture pic) ->
      is_file w (xml_path_of (app df ["Annotations"]) n) = true ->
      exists ov, w_files w' !! app outf [n] = Some (CPicture (Color ov)).
Proof.
  intros Hdir Hne Hmk Himf Hanf.
  set (imf := app df ["JPEGImages"]) in *. set (anf := app df ["Annotations"]) in *.
  destruct (makedirs_ok outf w Hne Hmk) as [Hrun1 Hout].
  set (w1 := set_dirs w _) in *.
  assert (Hdir1 : is_dir w1 imf = true).
  { apply bool_decide_eq_true_2. apply bool_decide_eq_true_1 in Hdir. simpl. set_solver. }
  unfold process_folder, io_bind at 1. fold imf anf. rewrite Hrun1.
  unfold io_bind, listdir at 1. rewrite Hdir1.
  set (names := remove_dups _).
  destruct (io_iter_establish (process_file sum_bits imf anf outf) (loop_inv outf w1)
              (output_done imf anf outf w1) (loop_body sum_bits imf anf outf w1 Himf Hanf)
              (loop_preserve sum_bits imf anf outf w1) names w1 (NoDup_remove_dups _))
    as (w' & Hrun & _ & Hdone); [by split|].
  exists w'. split; [exact Hrun|]. intros n pic Hn Hi Hl.
  destruct (listdir_lists imf n _ w1 Hdir1 Hi) as (names' & Hls & Hin & _).
  unfold listdir in Hls. rewrite Hdir1 in Hls. injection Hls as <-.
  by apply (Hdone n Hin pic).
Qed.

(** C27 (functional): an image whose annotation does not exist (neither
    a file nor a folder of that name) is skipped with the message of
    line 100; nothing else happens. *)
Theorem process_file_no_label `{SamModel} `{NpRandom} sum_bits imf anf outf n w :
  is_image_name n = true -> is_file w (xml_path_of anf n) = false ->
  is_dir w (xml_path_of anf n) = false ->
  process_file sum_bits imf anf outf n w =
    (add_out w (Printed 100 (String.concat "\" (xml_path_of anf n))), Ok tt).
Proof.
  intros Hn Hf Hd. unfold process_file. rewrite Hn.
  unfold io_bind at 1, path_exists. cbn [fst snd]. by rewrite Hf, Hd.
Qed.

(** C28 (error): an image whose annotation file exists but is not
    well-formed XML is not skipped (the spec says it is): the reader
    prints its message and returns no box, and the output is written as
    a copy of the input image. *)
Theorem process_file_unparsed_copies `{SamModel} `{NpRandom} sum_bits imf anf outf n w c g :
  is_image_name n = true -> w_files w !! xml_path_of anf n = Some c ->
  (forall root, c <> CXml (Some root)) ->
  w_files w !! app imf [n] = Some (CPicture (Color g)) -> is_dir w outf = true ->
  exists w', process_file sum_bits imf anf outf n w = (w', Ok tt) /\
    w_files w' = <[app outf [n] := CPicture (Color g)]> (w_files w).
Proof.
  intros Hn Hc Hnot Hi Ho. unfold process_file. rewrite Hn.
  unfold io_bind at 1, path_exists. cbn [fst snd].
  replace (is_file w (xml_path_of anf n)) with true by (symmetry; apply bool_decide_eq_true_2; by rewrite Hc).
  cbn [orb negb]. unfold io_try, io_bind.
  rewrite read_labels_unparsed by (intros root; rewrite Hc; intros [= ->]; by apply (Hnot root)).
  destruct (segment_with_boxes_inert_run sum_bits (app imf [n]) [] (app outf [n])
              (add_out w (Printed 41 (String.concat "\" (xml_path_of anf n)))) g)
    as (w' & -> & Hf); [exact Hi|unfold parent; by rewrite removelast_last|by apply image_name_writer|constructor|].
  by exists w'.
Qed.

Lemma process_folder_frames `{SamModel} `{NpRandom} sum_bits df outf :
  frames (fun p => exists m, p = app outf [m]) (process_folder sum_bits df outf).
Proof.
  unfold process_folder. apply frames_bind; [apply frames_makedirs|]. intros u.
  apply frames_bind; [apply frames_listdir|]. intros names.
  apply frames_iter. intros n _.
  eapply frames_mono; [|apply process_file_frames]. intros p <-. by exists n.
Qed.

(** C14 (safety): the SAM script writes no file outside
    [D:\segmentation\output], whatever the dataset, the model and the
    random generator. *)
Theorem sam_script_frames `{SamModel} `{NpRandom} sum_bits :
  frames (fun p => exists m, p = app output_folder [m]) (sam_script sum_bits).
Proof.
  unfold sam_script, sam_main. apply frames_bind.
  - intros w p _. unfold load_model. by destruct (w_files w !! model_path).
  - intros u. apply frames_try; [|intros; apply frames_print].
    apply frames_bind; [apply process_folder_frames|]. intros v. apply frames_print.
Qed.

(** C25 (error): the SAM script raises exactly when loading the model
    raises (lines 9-13 run outside any [try]): the checkpoint is missing
    or [sam_model_registry] cannot load it, with that exception; the
    main block catches every other exception. *)
Theorem sam_script_raises `{SamModel} `{NpRandom} sum_bits w :
  snd (sam_script sum_bits w) =
    match w_files w !! model_path with
    | Some c => sam_load c
    | None => Raise (FileNotFoundError (String.concat "\" model_path))
    end.
Proof.
  unfold sam_script, io_bind at 1, load_model. destruct (w_files w !! model_path) as [c|]; [|reflexivity].
  destruct (sam_load c) as [[]|e]; [|reflexivity].
  unfold sam_main, io_try, io_bind. by destruct (process_folder sum_bits _ _ w) as [w' [[]|e]].
Qed.

(** ** Examples *)

Definition sam_world : world :=
  mkWorld (<[["d"; "JPEGImages"; "a.jpg"] := CPicture (Color demo_image)]>
           (<[["d"; "Annotations"; "a.xml"] := CXml (Some (voc_doc [(0, 0, 2, 2)]%N))]>
           (<[["d"; "JPEGImages"; "b.png"] := CPicture (Color demo_image)]>
           (<[["d"; "Annotations"; "b.xml"] := CXml None]>
           (<[["d"; "JPEGImages"; "c.jpg"] := CPicture (Color demo_image)]> ∅)))))
    {[ ["d"]; ["d"; "JPEGImages"]; ["d"; "Annotations"]; ["o"] ]} [] 0 None.

Lemma process_folder_outputs_witness :
  exists w', process_folder (H := full_sam) (H0 := demo_rng) 64 ["d"] ["o"] sam_world = (w', Ok tt) /\
    forall n pic, is_image_name n = true ->
      w_files sam_world !! app (app ["d"] ["JPEGImages"]) [n] = Some (CPicture pic) ->
      is_file sam_world (xml_path_of (app ["d"] ["Annotations"]) n) = true ->
      exists ov, w_files w' !! app ["o"] [n] = Some (CPicture (Color ov)).
Proof.
  apply (@process_folder_outputs full_sam demo_rng); (reflexivity || discriminate).
Defined.

Lemma process_file_no_label_witness :
  process_file (H := full_sam) (H0 := demo_rng) 64 ["d"; "JPEGImages"] ["d"; "Annotations"] ["o"]
    "c.jpg" sam_world =
    (add_out sam_world (Printed 100 (String.concat "\" (xml_path_of ["d"; "Annotations"] "c.jpg"))),
     Ok tt).
Proof. apply (@process_file_no_label full_sam demo_rng); reflexivity. Defined.

Lemma process_file_unparsed_copies_witness :
  exists w',
    process_file (H := full_sam) (H0 := demo_rng) 64 ["d"; "JPEGImages"] ["d"; "Annotations"] ["o"]
      "b.png" sam_world = (w', Ok tt) /\
    w_files w' = <[app ["o"] ["b.png"] := CPicture (Color demo_image)]> (w_files sam_world).
Proof.
  apply (@process_file_unparsed_copies full_sam demo_rng 64 _ _ _ _ _ (CXml None));
    [reflexivity|reflexivity|intros root; discriminate|reflexivity|reflexivity].
Defined.

(** ** Every image is reported *)

Section Report.
Context `{SamModel} `{NpRandom} (sum_bits : Z) (imf anf outf : path).

Lemma process_file_out_grows n : out_grows (process_file sum_bits imf anf outf n).
Proof.
  unfold process_file. destruct (is_image_name n); [|apply out_grows_ret].
  apply out_grows_bind; [apply out_grows_path_exists|]. intros ex.
  destruct (negb ex); [apply out_grows_print|].
  apply out_grows_try; [|intros; apply out_grows_print].
  apply out_grows_bind; [apply read_labels_out_grows|]. intros bbs w.
  apply segment_with_boxes_reports.
Qed.

Lemma process_file_reports n w :
  exists w', process_file sum_bits imf anf outf n w = (w', Ok tt) /\ reported anf outf n w'.
Proof.
  unfold process_file, reported. destruct (is_image_name n); [|by eauto].
  unfold io_bind at 1, path_exists. cbn [fst snd].
  destruct (negb _).
  - eexists. split; [reflexivity|]. right; left. apply in_or_app. right. by left.
  - unfold io_try, io_bind. destruct (read_labels_from_xml (xml_path_of anf n) w) as [w1 [bbs|e]].
    + pose proof (segment_with_boxes_reports sum_bits (app imf [n]) bbs (app outf [n]) w1) as [_ Hrep].
      destruct (segment_with_boxes sum_bits (app imf [n]) bbs (app outf [n]) w1) as [w2 [[]|e]].
      * eexists. split; [reflexivity|]. do 3 right. by apply Hrep.
      * eexists. split; [reflexivity|]. do 2 right; left. apply in_or_app. right. by left.
    + eexists. split; [reflexivity|]. do 2 right; left. apply in_or_app. right. by left.
Qed.

Lemma reported_preserved x y w w' :
  reported anf outf y w -> process_file sum_bits imf anf outf x w = (w', Ok tt) ->
  reported anf outf y w'.
Proof.
  intros Hy Hrun. pose proof (process_file_out_grows x) as Hg.
  assert (Hin : forall m, In m (w_out w) -> In m (w_out w')).
  { intros m Hm. pose proof (in_out_grows _ w m Hg Hm) as Hm'. by rewrite Hrun in Hm'. }
  destruct Hy as [Hy|[Hy|[Hy|Hy]]]; [by left|right; left|do 2 right; left|do 3 right]; by apply Hin.
Qed.

Lemma process_files_report names w :
  exists w', io_iter (process_file sum_bits imf anf outf) names w = (w', Ok tt) /\
    forall n, In n names -> reported anf outf n w'.
Proof. apply io_iter_all; [apply process_file_reports|apply reported_preserved]. Qed.
End Report.

(** C11 (liveness): the loop of [process_folder] over any listing
    reaches its end without an exception, and by then every image of
    the listing has been reported on the console: its annotation is
    missing (line 100), its processing raised (line 107), or its result
    was saved (line 84).  No image is silently dropped and one bad file
    does not stop the batch. *)
Theorem process_folder_reports_every_image `{SamModel} `{NpRandom} sum_bits imf anf outf names w :
  eventually (process_file sum_bits imf anf outf)
    (fun s => todo s = [] /\ lerr s = None /\ forall n, In n names -> reported anf outf n (lw s))
    (LoopState names w None).
Proof.
  apply (loop_eventually_all _ (reported anf outf) (process_file_reports sum_bits imf anf outf)
           (reported_preserved sum_bits imf anf outf) names w []).
  by intros y [].
Qed.

Lemma reported_add_out anf outf n w m : reported anf outf n w -> reported anf outf n (add_out w m).
Proof.
  cbn [add_out w_out]. intros [Hn|[Hn|[Hn|Hn]]]; [by left|right; left|do 2 right; left|do 3 right];
    apply in_or_app; by left.
Qed.

Lemma process_folder_reports `{SamModel} `{NpRandom} sum_bits df outf w :
  is_dir w (app df ["JPEGImages"]) = true -> outf <> [] ->
  existsb (is_file w) (prefixes outf) = false ->
  exists w', process_folder sum_bits df outf w = (w', Ok tt) /\
    forall n c, w_files w !! app (app df ["JPEGImages"]) [n] = Some c ->
      reported (app df ["Annotations"]) outf n w'.
Proof.
  intros Hdir Hne Hmk.
  set (imf := app df ["JPEGImages"]) in *. set (anf := app df ["Annotations"]).
  destruct (makedirs_ok outf w Hne Hmk) as [Hrun1 _].
  set (w1 := set_dirs w _) in *.
  assert (Hdir1 : is_dir w1 imf = true).
  { apply bool_decide_eq_true_2. apply bool_decide_eq_true_1 in Hdir. simpl. set_solver. }
  unfold process_folder, io_bind at 1. fold imf anf. rewrite Hrun1.
  unfold io_bind, listdir at 1. rewrite Hdir1.
  set (names := remove_dups _).
  destruct (process_files_report sum_bits imf anf outf names w1) as (w' & Hrun & Hall).
  exists w'. split; [exact Hrun|]. intros n c Hi.
  destruct (listdir_lists imf n c w1 Hdir1 Hi) as (names' & Hls & Hin & _).
  unfold listdir in Hls. rewrite Hdir1 in Hls. injection Hls as <-. by apply Hall.
Qed.

(** C19 (functional): when the output folder can be created and
    [JPEGImages] exists, the main block's last message is ["All files
    processed successfully!"] (line 115), whatever became of the
    images: every picture of the listing was reported, but it may have
    been reported as missing its annotation (line 100) or as an error
    (line 107), and the success message does not tell them apart. *)
Theorem sam_main_reports_success `{SamModel} `{NpRandom} sum_bits w :
  is_dir w (app dataset_folder ["JPEGImages"]) = true ->
  existsb (is_file w) (prefixes output_folder) = false ->
  exists w', sam_main sum_bits w = (w', Ok tt) /\
    last (w_out w') = Some (Printed 115 "All files processed successfully!") /\
    forall n c, w_files w !! app (app dataset_folder ["JPEGImages"]) [n] = Some c ->
      reported (app dataset_folder ["Annotations"]) output_folder n w'.
Proof.
  intros Hdir Hmk.
  destruct (process_folder_reports sum_bits dataset_folder output_folder w Hdir ltac:(discriminate) Hmk)
    as (w' & Hrun & Hall).
  unfold sam_main, io_try, io_bind at 1. rewrite Hrun. cbn.
  eexists. split; [reflexivity|]. split; [apply last_snoc|].
  intros n c Hc. apply reported_add_out. by apply (Hall n c).
Qed.

Definition main_world : world :=
  mkWorld (<[app dataset_folder ["JPEGImages"; "c.jpg"] := CPicture (Color demo_image)]> ∅)
    {[ dataset_folder; app dataset_folder ["JPEGImages"] ]} [] 0 None.

Lemma sam_main_reports_success_witness :
  exists w', sam_main (H := full_sam) (H0 := demo_rng) 64 main_world = (w', Ok tt) /\
    last (w_out w') = Some (Printed 115 "All files processed successfully!") /\
    forall n c, w_files main_world !! app (app dataset_folder ["JPEGImages"]) [n] = Some c ->
      reported (app dataset_folder ["Annotations"]) output_folder n w'.
Proof. apply (@sam_main_reports_success full_sam demo_rng); reflexivity. Defined.


