(* ===== verification/MaskPipeline.v ===== *)
(** * MaskPipeline: [process_all_masks] and the script body of toPoligon.py

    toPoligon.py, lines 7-42 and 71-74.  For each split of
    [['train', 'test', 'valid']], [process_all_masks(root_dir,
    output_root, class_mapping)] creates [output_root/<split>/labels]
    and [output_root/<split>/images], lists [root_dir/<split>], and for
    every name ending in [_mask.png]: converts the mask into the label
    file named by replacing [_mask.png] with [.txt], then copies the
    image named by replacing [_mask.png] with [.jpg] when it exists.
    Nothing is caught: the first exception ends the run.  The script
    body calls it on two fixed folders with the mapping [{0: 0, 1: 1}].

    - [process_mask_file] is one iteration of the loop of lines 26-42,
      [process_split] the body of the loop of lines 17-42,
      [process_all_masks] the function and [topoligon_script] lines
      71-74.

    The theorems: the run writes no file outside
    [output_root/<split>/labels] and [output_root/<split>/images]; one
    mask file gets its label file, holding one line per class present,
    and its image copied; a whole run ([process_all_masks_labels]),
    on inputs [masks_run_ok] accepts (the trees apart, every mask one a
    converter handles, every image copyable or absent, no shared label
    file), returns normally with every mask of every split labelled
    and its image copied ([process_all_masks_images]); a missing split
    folder ends the run with [FileNotFoundError] after only that
    split's output folders were made; and two different mask names
    can be given the same label file, because [str.replace] replaces
    every occurrence of [_mask.png], not only the suffix: processing
    both leaves the file with the second mask's labels only
    ([label_collision_overwrites]).  Section [WholeRun] carries the run's invariant
    [run_inv]: files change only at output paths and new directories
    lie on the way to the output tree, so what the loop reads is what
    the run started with. *)

From S2P Require Import Prelude Raster Rle RleString FileSystem MaskToLabel.

Local Open Scope string_scope.

Section Walker.
Context (sum_bits : Z).

(** [file_name.replace('_mask.png', '.txt')] (line 29). *)
Definition label_file_of (file_name : string) : string := py_replace file_name "_mask.png" ".txt".

(** [file_name.replace('_mask.png', '.jpg')] (line 36). *)
Definition image_file_of (file_name : string) : string := py_replace file_name "_mask.png" ".jpg".

(** One iteration of lines 27-42. *)
Definition process_mask_file (mask_dir output_dir image_dir output_image_dir : path)
    (class_mapping : list (Z * Z)) (file_name : string) : io unit :=
  if py_endswith file_name "_mask.png" then
    let mask_path := app mask_dir [file_name] in
    let label_file := label_file_of file_name in
    let output_label_path := app output_dir [label_file] in
    do _ <- convert_mask_to_polygons sum_bits mask_path output_label_path class_mapping;
    let image_file := image_file_of file_name in
    let original_image_path := app image_dir [image_file] in
    let output_image_path := app output_image_dir [image_file] in
    do ex <- path_exists original_image_path;
    if ex then pil_copy original_image_path output_image_path else io_ret tt
  else io_ret tt.

(** The body of the loop of lines 17-42 for one split. *)
Definition process_split (root_dir output_root : path) (class_mapping : list (Z * Z))
    (split : string) : io unit :=
  let mask_dir := app root_dir [split] in
  let output_dir := app output_root [split; "labels"] in
  do _ <- makedirs output_dir;
  let image_dir := app root_dir [split] in
  let output_image_dir := app output_root [split; "images"] in
  do _ <- makedirs output_image_dir;
  do names <- listdir mask_dir;
  io_iter (process_mask_file mask_dir output_dir image_dir output_image_dir class_mapping) names.

Definition splits : list string := ["train"; "test"; "valid"].

(** [process_all_masks(root_dir, output_root, class_mapping)] (lines 7-42). *)
Definition process_all_masks (root_dir output_root : path) (class_mapping : list (Z * Z)) : io unit :=
  io_iter (process_split root_dir output_root class_mapping) splits.

(** Lines 71-74: ["D:\segmentation\mask-semantic"] (in which [\s] and
    [\m] are not escapes) and the mapping [{0: 0, 1: 1}] in insertion
    order. *)
Definition root_directory : path := ["D:"; "segmentation"; "mask-semantic"].
Definition output_directory : path := ["D:"; "segmentation"; "polygon_images"].
Definition class_id_map : list (Z * Z) := [(0, 0); (1, 1)]%Z.

Definition topoligon_script : io unit :=
  process_all_masks root_directory output_directory class_id_map.

End Walker.

(** The files a run may write: [output_root/<split>/labels/<name>] and
    [output_root/<split>/images/<name>] for a split of [splits]. *)
Definition under_outputs (output_root : path) (p : path) : Prop :=
  exists split sub name, In split splits /\ (sub = "labels" \/ sub = "images") /\
    p = app output_root [split; sub; name].

(** The image next to a mask can be copied or is absent: it is not a
    directory, and when it is a file it holds a picture. *)
Definition image_ok (w : world) (p : path) : bool :=
  negb (is_dir w p) &&
  match w_files w !! p with None => true | Some (CPicture _) => true | Some _ => false end.

(** The names [os.listdir(d)] returns ([[]] when [d] is not a
    directory). *)
Definition entries (w : world) (d : path) : list string :=
  match snd (listdir d w) with Ok ns => ns | Raise _ => [] end.

(** A one-channel mask that [convert_mask_to_polygons] handles: at
    least one row, rows of equal length, fewer than [2^29] pixels and
    fewer than the range of the [.sum()] accumulator. *)
Definition mask_ok (sum_bits : Z) (c : option content) : bool :=
  match c with
  | Some (CPicture (Gray (r :: rs))) =>
      let h := S (length rs) in
      bool_decide (grid_wf h (length r) (r :: rs)) &&
      bool_decide (Z.of_nat (h * length r) < 2 ^ 29)%Z && bool_decide (0 <= sum_bits)%Z &&
      bool_decide (Z.of_nat (h * length r) < 2 ^ sum_bits)%Z
  | _ => false
  end.

(** A split the loop of lines 17-42 runs through: its folder exists,
    the output folders can be created, every mask file is a mask
    [convert_mask_to_polygons] handles and its image can be copied or
    is absent, and no two masks share a label file. *)
Definition split_ok (sum_bits : Z) (root out : path) (w : world) (s : string) : bool :=
  let masks := List.filter (fun n => py_endswith n "_mask.png") (entries w (app root [s])) in
  is_dir w (app root [s]) &&
  forallb (fun sub => negb (existsb (is_file w) (prefixes (app out [s; sub])))) ["labels"; "images"] &&
  forallb (fun n => mask_ok sum_bits (w_files w !! app (app root [s]) [n]) &&
                    image_ok w (app (app root [s]) [image_file_of n])) masks &&
  bool_decide (NoDup (map label_file_of masks)).

(** The inputs of a run: the two trees are apart (neither root is a
    prefix of the other) and every split is as above. *)
Definition masks_run_ok (sum_bits : Z) (root out : path) (w : world) : bool :=
  bool_decide (~ root `prefix_of` out) && bool_decide (~ out `prefix_of` root) &&
  forallb (split_ok sum_bits root out w) splits.

(** A path on the way to, or inside, the output tree. *)
Definition related (out d : path) : Prop := out `prefix_of` d \/ d `prefix_of` out.

Close Scope string_scope.

(** ** Frames *)

Lemma process_mask_file_frames sum_bits md od imd oid mapping n :
  frames (fun p => p = app od [label_file_of n] \/ p = app oid [image_file_of n])
    (process_mask_file sum_bits md od imd oid mapping n).
Proof.
  unfold process_mask_file. destruct (py_endswith n "_mask.png"); [|apply frames_ret].
  apply frames_bind.
  - eapply frames_mono; [|apply convert_frames]. intros p <-. by left.
  - intros u. apply frames_bind; [apply frames_path_exists|]. intros []; [|apply frames_ret].
    apply frames_pil_copy. by right.
Qed.

Lemma process_split_frames sum_bits root out mapping split :
  frames (fun p => exists sub name, (sub = "labels" \/ sub = "images")%string /\ p = app out [split; sub; name])
    (process_split sum_bits root out mapping split).
Proof.
  unfold process_split.
  apply frames_bind; [apply frames_makedirs|]. intros u.
  apply frames_bind; [apply frames_makedirs|]. intros v.
  apply frames_bind; [apply frames_listdir|]. intros names.
  apply frames_iter. intros n _.
  eapply frames_mono; [|apply process_mask_file_frames].
  intros p [->| ->]; [exists "labels"%string|exists "images"%string]; eexists;
    (split; [first [by left | by right]|by rewrite <- app_assoc]).
Qed.

Lemma process_split_under sum_bits root out mapping split :
  In split splits -> frames (under_outputs out) (process_split sum_bits root out mapping split).
Proof.
  intros Hs. eapply frames_mono; [|apply process_split_frames]. intros p (sub & name & Hsub & ->).
  by exists split, sub, name.
Qed.

(** C15 (safety): [process_all_masks] writes no file outside
    [output_root/<split>/labels] and [output_root/<split>/images] for
    the three splits (whatever the masks, and also when it raises). *)
Theorem process_all_masks_frames sum_bits root out mapping :
  frames (under_outputs out) (process_all_masks sum_bits root out mapping).
Proof. apply frames_iter, process_split_under. Qed.

(** ** One mask file *)

(** C6 (functional): a one-channel mask [<stem>_mask.png] (of [h > 0]
    rows and [w] columns, below [2^29] pixels and the range of the
    [.sum()] accumulator), whose label and image folders exist and
    whose image [<stem>.jpg] is a picture, gets the label file of
    [convert_mask_to_polygons] (one line per class present, with its
    tight box) and a copy of its image; nothing else changes. *)
Theorem process_mask_file_spec sum_bits md od imd oid mapping n w0 h w g pic :
  py_endswith n "_mask.png" = true ->
  w_files w0 !! app md [n] = Some (CPicture (Gray g)) -> grid_wf h w g -> h <> 0 ->
  (Z.of_nat (h * w) < 2 ^ 29)%Z -> (0 <= sum_bits)%Z -> (Z.of_nat (h * w) < 2 ^ sum_bits)%Z ->
  is_dir w0 od = true -> is_dir w0 oid = true -> imd <> od ->
  w_files w0 !! app imd [image_file_of n] = Some (CPicture pic) ->
  exists txt,
    process_mask_file sum_bits md od imd oid mapping n w0 =
      (set_files w0 (<[app oid [image_file_of n] := CPicture pic]>
                      (<[app od [label_file_of n] := CText txt]> (w_files w0))), Ok tt) /\
    labels_spec h w g mapping txt.
Proof.
  intros Hn Hm Hwf Hh Hb Hbits Hsb Hod Hoid Hne Hpic.
  unfold process_mask_file. rewrite Hn.
  destruct (convert_mask_run sum_bits w0 (app md [n]) (app od [label_file_of n]) mapping h w g)
    as (txt & Hrun & Hspec); try done.
  { unfold parent. by rewrite removelast_last. }
  exists txt. split; [|exact Hspec].
  match type of Hrun with _ = (?w1, _) => set (W1 := w1) in * end.
  assert (Himg : w_files W1 !! app imd [image_file_of n] = Some (CPicture pic)).
  { subst W1. cbn [set_files w_files]. rewrite lookup_insert_ne; [exact Hpic|].
    intros E. apply app_inj_tail in E as [E _]. by apply Hne. }
  unfold io_bind at 1. rewrite Hrun.
  unfold io_bind, path_exists. cbn [fst snd]. rewrite (is_file_Some _ _ _ Himg). cbn [orb].
  unfold pil_copy, io_bind. rewrite (pil_open_Some _ _ _ Himg).
  rewrite put_file_dir; [done|]. unfold parent. rewrite removelast_last. exact Hoid.
Qed.

Lemma image_ok_cases w p :
  image_ok w p = true ->
  is_dir w p = false /\ (w_files w !! p = None \/ exists pic, w_files w !! p = Some (CPicture pic)).
Proof. unfold image_ok. destruct (is_dir w p); [done|]. destruct (w_files w !! p) as [[]|]; naive_solver. Qed.

(** One mask file whose image is copied or absent. *)
Lemma process_mask_file_run sum_bits md od imd oid mapping n w h wd g :
  py_endswith n "_mask.png" = true ->
  w_files w !! app md [n] = Some (CPicture (Gray g)) -> grid_wf h wd g -> h <> 0 ->
  (Z.of_nat (h * wd) < 2 ^ 29)%Z -> (0 <= sum_bits)%Z -> (Z.of_nat (h * wd) < 2 ^ sum_bits)%Z ->
  is_dir w od = true -> is_dir w oid = true -> imd <> od -> oid <> od ->
  image_ok w (app imd [image_file_of n]) = true ->
  exists txt w', process_mask_file sum_bits md od imd oid mapping n w = (w', Ok tt) /\
    w_files w' !! app od [label_file_of n] = Some (CText txt) /\ labels_spec h wd g mapping txt /\
    forall pic, w_files w !! app imd [image_file_of n] = Some (CPicture pic) ->
      w_files w' !! app oid [image_file_of n] = Some (CPicture pic).
Proof.
  intros Hn Hm Hwf Hh Hb Hbits Hsb Hod Hoid Hne Hne' Himg.
  unfold process_mask_file. rewrite Hn.
  destruct (convert_mask_run sum_bits w (app md [n]) (app od [label_file_of n]) mapping h wd g)
    as (txt & Hrun & Hspec); try done.
  { unfold parent. by rewrite removelast_last. }
  exists txt. unfold io_bind at 1. rewrite Hrun.
  match type of Hrun with _ = (?w1, _) => remember w1 as W1 eqn:HW1 end.
  assert (Hlab : w_files W1 !! app od [label_file_of n] = Some (CText txt))
    by (rewrite HW1; apply lookup_insert_eq).
  assert (Hf : w_files W1 !! app imd [image_file_of n] = w_files w !! app imd [image_file_of n]).
  { rewrite HW1. apply lookup_insert_ne. intros E. apply app_inj_tail in E as [E _]. by apply Hne. }
  assert (Hdirs : forall q, is_dir W1 q = is_dir w q) by (intros q; by rewrite HW1).
  destruct (image_ok_cases _ _ Himg) as [Hd [Ei|[pic Ei]]];
    unfold io_bind, path_exists; rewrite Hdirs, Hd.
  - rewrite (is_file_None W1 _ (eq_trans Hf Ei)). cbn [orb]. eexists. split_and!; [reflexivity|done|done|].
    intros pic Hp. discriminate (eq_trans (eq_sym Ei) Hp).
  - rewrite (is_file_Some W1 _ _ (eq_trans Hf Ei)). cbn [orb]. unfold pil_copy, io_bind.
    rewrite (pil_open_Some _ _ _ (eq_trans Hf Ei)).
    rewrite put_file_dir; [|unfold parent; rewrite removelast_last, Hdirs; exact Hoid].
    eexists. split_and!; [reflexivity| |exact Hspec|]; cbn [set_files w_files].
    + rewrite lookup_insert_ne; [exact Hlab|]. intros E. apply app_inj_tail in E as [E _]. by apply Hne'.
    + intros pic' Hp. pose proof (eq_trans (eq_sym Ei) Hp) as E. injection E as <-. apply lookup_insert_eq.
Qed.

Lemma process_mask_file_dirs sum_bits md od imd oid mapping n :
  dirs_fixed (process_mask_file sum_bits md od imd oid mapping n).
Proof.
  unfold process_mask_file. destruct (py_endswith n "_mask.png"); [|apply dirs_fixed_ret].
  apply dirs_fixed_bind.
  - unfold convert_mask_to_polygons, convert_loop. apply dirs_fixed_bind; [apply dirs_fixed_pil_open|intros pic].
    apply dirs_fixed_bind; [apply dirs_fixed_put_file|intros u]. apply dirs_fixed_iter. intros [pv cid].
    apply dirs_fixed_bind; [apply dirs_fixed_lift|]. intros [line|]; [apply dirs_fixed_append_text|apply dirs_fixed_ret].
  - intros u. apply dirs_fixed_bind; [apply dirs_fixed_path_exists|]. intros [|]; [|apply dirs_fixed_ret].
    apply dirs_fixed_bind; [apply dirs_fixed_pil_open|intros; apply dirs_fixed_put_file].
Qed.


(** ** A whole run of [process_all_masks] *)

Lemma mask_ok_spec sum_bits c :
  mask_ok sum_bits c = true ->
  exists h wd g, c = Some (CPicture (Gray g)) /\ grid_wf h wd g /\ h <> 0 /\
    (Z.of_nat (h * wd) < 2 ^ 29)%Z /\ (0 <= sum_bits)%Z /\ (Z.of_nat (h * wd) < 2 ^ sum_bits)%Z.
Proof.
  destruct c as [[[[|r rs]|g]|t|d|]|]; try done. unfold mask_ok.
  intros (((H1 & H2)%andb_prop & H3)%andb_prop & H4)%andb_prop.
  apply bool_decide_eq_true_1 in H1, H2, H3, H4. exists (S (length rs)), (length r), (r :: rs). by split_and!.
Qed.

Lemma is_file_eq w w' p : w_files w !! p = w_files w' !! p -> is_file w p = is_file w' p.
Proof. unfold is_file. by intros ->. Qed.

(** Below a root apart from the output tree, no path is on the way to
    or inside it. *)
Lemma apart_unrelated (root out p : path) :
  ~ root `prefix_of` out -> ~ out `prefix_of` root -> root `prefix_of` p -> ~ related out p.
Proof.
  intros H1 H2 Hr [Ho|Ho].
  - by destruct (prefix_weak_total root out p Hr Ho).
  - apply H1. by transitivity p.
Qed.

Lemma image_ok_same w w' (p : path) :
  w_dirs w' = w_dirs w -> w_files w' !! p = w_files w !! p -> image_ok w' p = image_ok w p.
Proof. intros Hd Hf. unfold image_ok, is_dir. by rewrite Hd, Hf. Qed.

(** C31 (error): two different mask files of a split whose names give
    the same label file ([str.replace] removes every [_mask.png] of the
    name, not only the suffix: ["b.txt_mask.png"] and
    ["b_mask.png_mask.png"] both give ["b.txt.txt"]) are processed in
    the listing's order, and the label file ends up holding the second
    mask's lines only: the first mask's labels are lost, without any
    error. *)
Theorem label_collision_overwrites sum_bits md od oid mapping n1 n2 w :
  py_endswith n1 "_mask.png" = true -> py_endswith n2 "_mask.png" = true ->
  label_file_of n1 = label_file_of n2 ->
  mask_ok sum_bits (w_files w !! app md [n1]) = true -> mask_ok sum_bits (w_files w !! app md [n2]) = true ->
  image_ok w (app md [image_file_of n1]) = true -> image_ok w (app md [image_file_of n2]) = true ->
  is_dir w od = true -> is_dir w oid = true -> md <> od -> md <> oid -> oid <> od ->
  exists w', (do _ <- process_mask_file sum_bits md od md oid mapping n1;
              process_mask_file sum_bits md od md oid mapping n2) w = (w', Ok tt) /\
    forall h wd g2, w_files w !! app md [n2] = Some (CPicture (Gray g2)) -> grid_wf h wd g2 -> h <> 0 ->
      exists txt, w_files w' !! app od [label_file_of n1] = Some (CText txt) /\ labels_spec h wd g2 mapping txt.
Proof.
  intros Hn1 Hn2 Hl Hm1 Hm2 Hi1 Hi2 Hod Hoid Hmo Hmi Hoo.
  destruct (mask_ok_spec _ _ Hm1) as (h1 & wd1 & g1 & Hg1 & ? & ? & ? & ? & ?).
  destruct (process_mask_file_run sum_bits md od md oid mapping n1 w h1 wd1 g1)
    as (txt1 & w1 & Hrun1 & _ & _ & _); try done.
  pose proof (process_mask_file_frames sum_bits md od md oid mapping n1 w) as Hfr.
  pose proof (process_mask_file_dirs sum_bits md od md oid mapping n1 w) as Hd.
  rewrite Hrun1 in Hfr, Hd. cbn [fst] in Hfr, Hd.
  assert (Hkeep : forall x, w_files w1 !! app md [x] = w_files w !! app md [x]).
  { intros x. apply Hfr. intros [E|E]; apply app_inj_tail in E as [E _]; auto. }
  destruct (mask_ok_spec _ _ Hm2) as (h2 & wd2 & g2 & Hg2 & Hwf2 & Hh2 & ? & ? & ?).
  destruct (process_mask_file_run sum_bits md od md oid mapping n2 w1 h2 wd2 g2)
    as (txt2 & w2 & Hrun2 & Hlab2 & Hspec2 & _); try done.
  - exact (eq_trans (Hkeep n2) Hg2).
  - unfold is_dir. by rewrite Hd.
  - unfold is_dir. by rewrite Hd.
  - by rewrite (image_ok_same w w1 _ Hd (Hkeep _)).
  - exists w2. split; [unfold io_bind; by rewrite Hrun1|].
    intros h wd g Hg Hwf Hh. rewrite Hg2 in Hg. injection Hg as <-.
    destruct (grid_wf_shape h2 wd2 g2 Hwf2 Hh2) as [<- <-], (grid_wf_shape h wd g2 Hwf Hh) as [<- <-].
    exists txt2. by rewrite Hl.
Qed.

Section WholeRun.
Context (sum_bits : Z) (root out : path) (mapping : list (Z * Z)) (w0 : world).
Hypothesis Hok : masks_run_ok sum_bits root out w0 = true.

(** What a run keeps: files change only at output paths, no directory
    disappears, and new directories are on the way to the outputs. *)
Definition run_inv (w : world) : Prop :=
  (forall p : path, ~ under_outputs out p -> w_files w !! p = w_files w0 !! p) /\
  w_dirs w0 ⊆ w_dirs w /\ (forall d : path, d ∈ w_dirs w -> d ∈ w_dirs w0 \/ related out d).

Lemma run_apart : ~ root `prefix_of` out /\ ~ out `prefix_of` root.
Proof.
  unfold masks_run_ok in Hok. apply andb_prop in Hok as [(H1 & H2)%andb_prop _].
  by apply bool_decide_eq_true_1 in H1, H2.
Qed.

Lemma run_split s : In s splits -> split_ok sum_bits root out w0 s = true.
Proof. unfold masks_run_ok in Hok. apply andb_prop in Hok as [_ H]. rewrite forallb_forall in H. apply H. Qed.

Lemma root_unrelated (p : path) : root `prefix_of` p -> ~ related out p.
Proof. destruct run_apart as [H1 H2]. by apply apart_unrelated. Qed.

Lemma under_related (p : path) : under_outputs out p -> related out p.
Proof. intros (s & sub & n & _ & _ & ->). left. by exists [s; sub; n]. Qed.

Lemma prefixes_related s sub d : In d (prefixes (app out [s; sub])) -> related out d.
Proof.
  intros Hd%prefixes_prefix. destruct (prefix_weak_total d out (app out [s; sub])) as [H|H];
    [done|by exists [s; sub]|by right|by left].
Qed.

Lemma prefixes_not_under s sub d : In d (prefixes (app out [s; sub])) -> ~ under_outputs out d.
Proof.
  intros Hd%prefixes_prefix%prefix_length (s' & sub' & n & _ & _ & ->).
  rewrite !length_app in Hd. cbn in Hd. lia.
Qed.

Lemma run_inv_root_file w (p : path) : run_inv w -> root `prefix_of` p -> w_files w !! p = w_files w0 !! p.
Proof. intros [Hf _] Hr. apply Hf. intros Hu. by apply (root_unrelated p Hr), under_related. Qed.

Lemma run_inv_root_dir w (p : path) : run_inv w -> root `prefix_of` p -> p ∈ w_dirs w <-> p ∈ w_dirs w0.
Proof.
  intros (_ & Hsub & Hnew) Hr. split; [|apply Hsub].
  intros [|Hrel]%Hnew; [done|]. by destruct (root_unrelated p Hr).
Qed.

Lemma run_inv_free w s sub :
  run_inv w -> existsb (is_file w0) (prefixes (app out [s; sub])) = false ->
  existsb (is_file w) (prefixes (app out [s; sub])) = false.
Proof.
  intros [Hf _] H0. apply not_true_iff_false. intros (d & Hd & Hfile)%existsb_exists.
  apply not_true_iff_false in H0. apply H0, existsb_exists. exists d. split; [done|].
  rewrite <- Hfile. apply is_file_eq. symmetry. apply Hf. by apply (prefixes_not_under s sub).
Qed.

Lemma run_inv_makedirs w s sub :
  run_inv w -> run_inv (set_dirs w (list_to_set (prefixes (app out [s; sub])) ∪ w_dirs w)).
Proof.
  intros (Hf & Hsub & Hnew). split_and!; [exact Hf|set_solver|].
  cbn [w_dirs set_dirs]. intros d [Hd|Hd]%elem_of_union; [|by apply Hnew].
  right. apply elem_of_list_to_set, list_elem_of_In in Hd. by eapply prefixes_related.
Qed.

(** Within the loop over the files of split [s]: the run's invariant
    and the two output folders. *)
Definition split_inv (s : string) (w : world) : Prop :=
  run_inv w /\ is_dir w (app out [s; "labels"]) = true /\ is_dir w (app out [s; "images"]) = true.

(** Mask [n] of split [s] has its label file, with the lines of its
    classes. *)
Definition labelled (s n : string) (w : world) : Prop :=
  forall h wd g, py_endswith n "_mask.png" = true ->
    w_files w0 !! app (app root [s]) [n] = Some (CPicture (Gray g)) -> grid_wf h wd g -> h <> 0 ->
    exists txt, w_files w !! app (app out [s; "labels"]) [label_file_of n] = Some (CText txt) /\
      labels_spec h wd g mapping txt.

(** The image of mask [n] of split [s], when it is a picture, has been
    copied into [<output_root>/<split>/images]. *)
Definition copied (s n : string) (w : world) : Prop :=
  forall pic g, py_endswith n "_mask.png" = true ->
    w_files w0 !! app (app root [s]) [n] = Some (CPicture (Gray g)) ->
    w_files w0 !! app (app root [s]) [image_file_of n] = Some (CPicture pic) ->
    w_files w !! app (app out [s; "images"]) [image_file_of n] = Some (CPicture pic).

Definition mask_done (s n : string) (w : world) : Prop := labelled s n w /\ copied s n w.

Lemma root_prefix s n : root `prefix_of` app (app root [s]) [n].
Proof. exists [s; n]. by rewrite <- app_assoc. Qed.

Lemma split_masks s n :
  In s splits -> In n (entries w0 (app root [s])) -> py_endswith n "_mask.png" = true ->
  mask_ok sum_bits (w_files w0 !! app (app root [s]) [n]) = true /\
  image_ok w0 (app (app root [s]) [image_file_of n]) = true.
Proof.
  intros Hs Hn Hm. pose proof (run_split s Hs) as Hsp. unfold split_ok in Hsp.
  apply andb_prop in Hsp as [(_ & Hall)%andb_prop _]. rewrite forallb_forall in Hall.
  apply andb_prop, Hall, filter_In. by split.
Qed.

Lemma split_labels_inj s n m :
  In s splits -> In n (entries w0 (app root [s])) -> In m (entries w0 (app root [s])) ->
  py_endswith n "_mask.png" = true -> py_endswith m "_mask.png" = true ->
  label_file_of n = label_file_of m -> n = m.
Proof.
  intros Hs Hn Hm Hn' Hm'. pose proof (run_split s Hs) as Hsp. unfold split_ok in Hsp.
  apply andb_prop in Hsp as [_ Hnd]. apply bool_decide_eq_true_1 in Hnd.
  apply (NoDup_map_inj _ _ _ _ Hnd); by apply filter_In.
Qed.

Lemma run_inv_image w (p : path) : run_inv w -> root `prefix_of` p -> image_ok w0 p = true -> image_ok w p = true.
Proof.
  intros Hinv Hr. unfold image_ok, is_dir. rewrite (run_inv_root_file w p Hinv Hr).
  by rewrite (bool_decide_ext _ _ (run_inv_root_dir w p Hinv Hr)).
Qed.

Lemma mask_paths_under s n : In s splits ->
  under_outputs out (app (app out [s; "labels"]) [label_file_of n]) /\
  under_outputs out (app (app out [s; "images"]) [image_file_of n]).
Proof.
  intros Hs. split; eexists _, _, _; (split; [exact Hs|]); (split; [by (left + right)|by rewrite <- app_assoc]).
Qed.

Lemma split_step_inv s n w w' r :
  In s splits -> split_inv s w ->
  process_mask_file sum_bits (app root [s]) (app out [s; "labels"]) (app root [s]) (app out [s; "images"])
    mapping n w = (w', r) ->
  split_inv s w'.
Proof.
  intros Hs ((Hf & Hsub & Hnew) & Hod & Hoid) Hrun.
  pose proof (process_mask_file_dirs sum_bits (app root [s]) (app out [s; "labels"]) (app root [s])
                (app out [s; "images"]) mapping n w) as Hd.
  pose proof (process_mask_file_frames sum_bits (app root [s]) (app out [s; "labels"]) (app root [s])
                (app out [s; "images"]) mapping n w) as Hfr.
  rewrite Hrun in Hd, Hfr. cbn [fst] in Hd, Hfr. unfold split_inv, run_inv, is_dir. rewrite Hd.
  split_and!; try done. intros p Hp. rewrite <- (Hf p Hp). apply Hfr.
  destruct (mask_paths_under s n Hs). by intros [->| ->].
Qed.

Lemma mask_run s n w :
  In s splits -> In n (entries w0 (app root [s])) -> py_endswith n "_mask.png" = true -> split_inv s w ->
  exists w', process_mask_file sum_bits (app root [s]) (app out [s; "labels"]) (app root [s])
               (app out [s; "images"]) mapping n w = (w', Ok tt) /\ labelled s n w' /\
    forall pic, w_files w0 !! app (app root [s]) [image_file_of n] = Some (CPicture pic) ->
      w_files w' !! app (app out [s; "images"]) [image_file_of n] = Some (CPicture pic).
Proof.
  intros Hs Hn Hm (Hinv & Hod & Hoid).
  destruct (split_masks s n Hs Hn Hm) as [Hmask Himg].
  destruct (mask_ok_spec _ _ Hmask) as (h & wd & g & Hg & Hwf & Hh & Hb & Hbits & Hsb).
  destruct (process_mask_file_run sum_bits (app root [s]) (app out [s; "labels"]) (app root [s])
              (app out [s; "images"]) mapping n w h wd g)
    as (txt & w' & Hrun & Hlab & Hspec & Hcopy); try done.
  - exact (eq_trans (run_inv_root_file w _ Hinv (root_prefix s n)) Hg).
  - intros E. apply (root_unrelated (app root [s])); [by exists [s]|]. left. exists [s; "labels"].
    by rewrite E.
  - intros E. apply app_inv_head in E. congruence.
  - apply (run_inv_image w _ Hinv); [exists [s; image_file_of n]; by rewrite <- app_assoc|exact Himg].
  - exists w'. split_and!; [done| |].
    + intros h' wd' g' _ Hg' Hwf' Hh'. rewrite Hg in Hg'. injection Hg' as <-.
      destruct (grid_wf_shape h wd g Hwf Hh) as [<- <-], (grid_wf_shape h' wd' g Hwf' Hh') as [<- <-].
      by exists txt.
    + intros pic Hp. apply Hcopy.
      exact (eq_trans (run_inv_root_file w _ Hinv (root_prefix s (image_file_of n))) Hp).
Qed.

Lemma inner_body s n w :
  In s splits -> In n (entries w0 (app root [s])) -> split_inv s w ->
  exists w', process_mask_file sum_bits (app root [s]) (app out [s; "labels"]) (app root [s])
               (app out [s; "images"]) mapping n w = (w', Ok tt) /\
    split_inv s w' /\ mask_done s n w'.
Proof.
  intros Hs Hn Hsi. destruct (py_endswith n "_mask.png") eqn:Hm.
  - destruct (mask_run s n w Hs Hn Hm Hsi) as (w' & Hrun & Hl & Hc).
    exists w'. unfold mask_done. split_and!; [done|by eapply split_step_inv|done|]. intros pic g _ _. apply Hc.
  - exists w. unfold process_mask_file. rewrite Hm.
    unfold mask_done. split_and!; [done|done|intros ? ? ? Hm'; congruence|intros ? ? Hm'; congruence].
Qed.

Lemma inner_pres s x y w w' :
  In s splits -> In x (entries w0 (app root [s])) -> In y (entries w0 (app root [s])) -> x <> y ->
  split_inv s w -> mask_done s x w ->
  process_mask_file sum_bits (app root [s]) (app out [s; "labels"]) (app root [s])
    (app out [s; "images"]) mapping y w = (w', Ok tt) ->
  mask_done s x w'.
Proof.
  intros Hs Hx Hy Hne Hsi [Hl Hc] Hrun.
  destruct (py_endswith y "_mask.png") eqn:Hym.
  2: { unfold process_mask_file in Hrun. rewrite Hym in Hrun. injection Hrun as <-. by split. }
  pose proof (process_mask_file_frames sum_bits (app root [s]) (app out [s; "labels"]) (app root [s])
                (app out [s; "images"]) mapping y w) as Hfr.
  rewrite Hrun in Hfr. cbn [fst] in Hfr. split.
  - intros h wd g Hxm Hg Hwf Hh.
    destruct (Hl h wd g Hxm Hg Hwf Hh) as (txt & Hlab & Hspec). exists txt. split; [|exact Hspec].
    refine (eq_trans (Hfr _ _) Hlab).
    intros [E|E]; apply app_inj_tail in E as [E1 E2].
    + by apply Hne, (split_labels_inj s x y).
    + apply app_inv_head in E1. congruence.
  - intros pic g Hxm Hg Hp. destruct (decide (image_file_of x = image_file_of y)) as [Ei|Ei].
    + destruct (mask_run s y w Hs Hy Hym Hsi) as (w'' & Hrun' & _ & Hcy).
      rewrite Hrun in Hrun'. injection Hrun' as <-. rewrite Ei in Hp |- *. by apply Hcy.
    + refine (eq_trans (Hfr _ _) (Hc pic g Hxm Hg Hp)).
      intros [E|E]; apply app_inj_tail in E as [E1 E2].
      * apply app_inv_head in E1. congruence.
      * by apply Ei.
Qed.

Lemma out_split_nonempty s sub : app out [s; sub] <> [].
Proof. intros E. apply app_eq_nil in E as [_ E]. discriminate. Qed.

(** The names [os.listdir] gives for a split during the run are names
    of the split's folder before it. *)
Lemma run_listing s w names n :
  run_inv w -> listdir (app root [s]) w = (w, Ok names) -> In n names ->
  is_dir w0 (app root [s]) = true -> In n (entries w0 (app root [s])).
Proof.
  intros Hinv Hls Hn Hd0.
  assert (Hd : is_dir w (app root [s]) = true).
  { unfold is_dir. rewrite (bool_decide_ext _ _ (run_inv_root_dir w _ Hinv (prefix_app_r _ _ [s] (reflexivity _)))).
    exact Hd0. }
  destruct (listdir_iff _ w Hd) as (ns & Hls' & _ & Hiff). rewrite Hls in Hls'. injection Hls' as <-.
  destruct (listdir_iff _ w0 Hd0) as (ns0 & Hls0 & _ & Hiff0).
  unfold entries. rewrite Hls0. cbn [snd]. apply Hiff0. apply Hiff in Hn as [Hf|Hdir].
  - left. rewrite <- Hf. apply is_file_eq. symmetry. apply (run_inv_root_file w _ Hinv (root_prefix s n)).
  - right. apply (run_inv_root_dir w _ Hinv (root_prefix s n)), Hdir.
Qed.

Lemma split_body s w :
  In s splits -> run_inv w ->
  exists w', process_split sum_bits root out mapping s w = (w', Ok tt) /\ run_inv w' /\
    forall n, mask_done s n w'.
Proof.
  intros Hs Hinv. pose proof (run_split s Hs) as Hsp. unfold split_ok in Hsp.
  apply andb_prop in Hsp as [((Hdir & Hfree)%andb_prop & _)%andb_prop _].
  cbn [forallb] in Hfree. apply andb_prop in Hfree as [Hl0 [Hi0 _]%andb_prop].
  apply negb_true_iff in Hl0, Hi0.
  destruct (makedirs_ok _ w (out_split_nonempty s "labels") (run_inv_free w s "labels" Hinv Hl0))
    as [Hr1 Hin1].
  pose proof (run_inv_makedirs w s "labels" Hinv) as Hinv1. set (w1 := set_dirs w _) in *.
  destruct (makedirs_ok _ w1 (out_split_nonempty s "images") (run_inv_free w1 s "images" Hinv1 Hi0))
    as [Hr2 Hin2].
  pose proof (run_inv_makedirs w1 s "images" Hinv1) as Hinv2. set (w2 := set_dirs w1 _) in *.
  assert (Hd2 : is_dir w2 (app root [s]) = true).
  { unfold is_dir. rewrite (bool_decide_ext _ _ (run_inv_root_dir w2 _ Hinv2 (prefix_app_r _ _ [s] (reflexivity _)))).
    exact Hdir. }
  destruct (listdir_iff _ w2 Hd2) as (names & Hls & Hnd & Hiff).
  assert (Hsi2 : split_inv s w2).
  { split_and!; [exact Hinv2| |by apply bool_decide_eq_true_2].
    apply bool_decide_eq_true_2. cbn [w2 w_dirs set_dirs]. set_solver. }
  destruct (io_iter_establish_in
              (process_mask_file sum_bits (app root [s]) (app out [s; "labels"]) (app root [s])
                 (app out [s; "images"]) mapping) (split_inv s) (mask_done s) names)
    with (w := w2) as (w' & Hrun & [Hinv' _] & Hall); [| |exact Hnd|exact Hsi2|].
  - intros n w3 Hn Hsi. apply (inner_body s n w3 Hs); [|done].
    by apply (run_listing s w2 names n Hinv2 Hls Hn).
  - intros x y w3 w4 Hx Hy Hne Hsi Hl Hb.
    eapply (inner_pres s x y w3 w4 Hs); [by eapply run_listing..|done|done|done|done].
  - exists w'. split_and!; [|done|].
    + unfold process_split, io_bind at 1. rewrite Hr1. fold w1. unfold io_bind at 1. rewrite Hr2.
      fold w2. unfold io_bind. rewrite Hls. exact Hrun.
    + intros n. destruct (w_files w0 !! app (app root [s]) [n]) as [c|] eqn:Ec.
      * apply Hall. apply Hiff. left.
        rewrite (is_file_eq w2 w0 _ (run_inv_root_file w2 _ Hinv2 (root_prefix s n))).
        exact (is_file_Some _ _ _ Ec).
      * split; [intros h wd g _ Hg|intros pic g _ Hg _];
          exfalso; pose proof (eq_trans (eq_sym Ec) Hg); discriminate.
Qed.

Lemma split_keeps_other s1 s2 sub l w w' r :
  s1 <> s2 -> process_split sum_bits root out mapping s2 w = (w', r) ->
  w_files w' !! app (app out [s1; sub]) [l] = w_files w !! app (app out [s1; sub]) [l].
Proof.
  intros Hne Hrun. pose proof (process_split_frames sum_bits root out mapping s2 w) as Hfr.
  rewrite Hrun in Hfr. apply Hfr. intros (sub' & name & _ & E).
  rewrite <- app_assoc in E. apply app_inv_head in E. cbn in E. congruence.
Qed.

Lemma split_pres s1 s2 w w' :
  s1 <> s2 -> (forall n, mask_done s1 n w) ->
  process_split sum_bits root out mapping s2 w = (w', Ok tt) -> forall n, mask_done s1 n w'.
Proof.
  intros Hne Hd Hrun n. destruct (Hd n) as [Hl Hc]. split.
  - intros h wd g Hm Hg Hwf Hh.
    destruct (Hl h wd g Hm Hg Hwf Hh) as (txt & Hlab & Hspec). exists txt. split; [|exact Hspec].
    exact (eq_trans (split_keeps_other s1 s2 _ _ w w' _ Hne Hrun) Hlab).
  - intros pic g Hm Hg Hp. exact (eq_trans (split_keeps_other s1 s2 _ _ w w' _ Hne Hrun) (Hc pic g Hm Hg Hp)).
Qed.

(** The whole run, both outputs of every mask. *)
Lemma process_all_masks_run :
  exists w', process_all_masks sum_bits root out mapping w0 = (w', Ok tt) /\
    forall s n, In s splits -> mask_done s n w'.
Proof.
  destruct (io_iter_establish_in (process_split sum_bits root out mapping) run_inv
              (fun s w => forall n, mask_done s n w) splits)
    with (w := w0) as (w' & Hrun & _ & Hall).
  - intros s w Hs Hinv. by apply split_body.
  - intros s1 s2 w w' _ _ Hne _ Hl Hb. by apply (split_pres s1 s2 w w').
  - apply NoDup_ListNoDup. repeat constructor; cbn; intuition discriminate.
  - split_and!; [done|done|by left].
  - exists w'. split; [exact Hrun|]. intros s n Hs. by apply Hall.
Qed.

(** C7 (functional): when the two folder trees are apart and every split
    folder holds masks [convert_mask_to_polygons] handles, images that
    can be copied, and no two masks sharing a label file,
    [process_all_masks] returns normally and every one-channel mask
    [<split>/<stem>_mask.png] has its label file in
    [<output_root>/<split>/labels], with one line per class present, in
    the mapping's order, holding the class's tight box. *)
Theorem process_all_masks_labels :
  exists w', process_all_masks sum_bits root out mapping w0 = (w', Ok tt) /\
    forall s n h wd g, In s splits -> py_endswith n "_mask.png" = true ->
      w_files w0 !! app (app root [s]) [n] = Some (CPicture (Gray g)) -> grid_wf h wd g -> h <> 0 ->
      exists txt, w_files w' !! app (app out [s; "labels"]) [label_file_of n] = Some (CText txt) /\
        labels_spec h wd g mapping txt.
Proof.
  destruct process_all_masks_run as (w' & Hrun & Hall). exists w'. split; [exact Hrun|].
  intros s n h wd g Hs. apply (Hall s n Hs).
Qed.

(** C8 (functional): on the same inputs, every one-channel mask
    [<split>/<stem>_mask.png] whose image [<split>/<stem>.jpg] is a
    picture has that picture copied to
    [<output_root>/<split>/images/<stem>.jpg] at the end of the run;
    two masks with the same image name copy the same picture, so a
    later copy never spoils an earlier one. *)
Theorem process_all_masks_images :
  exists w', process_all_masks sum_bits root out mapping w0 = (w', Ok tt) /\
    forall s n g pic, In s splits -> py_endswith n "_mask.png" = true ->
      w_files w0 !! app (app root [s]) [n] = Some (CPicture (Gray g)) ->
      w_files w0 !! app (app root [s]) [image_file_of n] = Some (CPicture pic) ->
      w_files w' !! app (app out [s; "images"]) [image_file_of n] = Some (CPicture pic).
Proof.
  destruct process_all_masks_run as (w' & Hrun & Hall). exists w'. split; [exact Hrun|].
  intros s n g pic Hs. apply (Hall s n Hs).
Qed.

End WholeRun.

(** C20 (error): when the folder of the first split is missing, the run
    raises [FileNotFoundError] at [os.listdir] after creating that
    split's two output folders, and ends there: no file is written and
    no folder of the later splits is created (nothing is caught, and
    [os.makedirs] runs before [os.listdir]). *)
Theorem process_all_masks_missing_split sum_bits root out mapping w0 :
  ~ root `prefix_of` out -> ~ out `prefix_of` root -> is_dir w0 (app root ["train"]) = false ->
  existsb (is_file w0) (prefixes (app out ["train"; "labels"])) = false ->
  existsb (is_file w0) (prefixes (app out ["train"; "images"])) = false ->
  exists w', process_all_masks sum_bits root out mapping w0 =
      (w', Raise (FileNotFoundError (String.concat "\" (app root ["train"])))) /\
    w_files w' = w_files w0 /\
    w_dirs w' = list_to_set (prefixes (app out ["train"; "images"])) ∪
                (list_to_set (prefixes (app out ["train"; "labels"])) ∪ w_dirs w0).
Proof.
  intros H1 H2 Hd Hl Hi.
  destruct (makedirs_ok _ w0 (out_split_nonempty out "train" "labels") Hl) as [Hr1 _].
  set (w1 := set_dirs w0 _) in *.
  destruct (makedirs_ok _ w1 (out_split_nonempty out "train" "images") Hi) as [Hr2 _].
  set (w2 := set_dirs w1 _) in *.
  assert (Hd2 : is_dir w2 (app root ["train"]) = false).
  { apply bool_decide_eq_false_2. cbn [w2 w1 w_dirs set_dirs].
    intros [Hn|[Hn|Hn]%elem_of_union]%elem_of_union.
    - apply elem_of_list_to_set, list_elem_of_In in Hn.
      apply (apart_unrelated root out (app root ["train"]) H1 H2 (prefix_app_r _ _ _ (reflexivity _))).
      by apply (prefixes_related out "train" "images").
    - apply elem_of_list_to_set, list_elem_of_In in Hn.
      apply (apart_unrelated root out (app root ["train"]) H1 H2 (prefix_app_r _ _ _ (reflexivity _))).
      by apply (prefixes_related out "train" "labels").
    - apply bool_decide_eq_false_1 in Hd. by apply Hd. }
  unfold process_all_masks, splits. cbn [io_iter]. unfold io_bind at 1, process_split.
  unfold io_bind at 1. rewrite Hr1. fold w1. unfold io_bind at 1. rewrite Hr2. fold w2.
  unfold io_bind at 1, listdir. rewrite Hd2. by eexists.
Qed.

(** ** Examples *)

Definition mask_world : world :=
  mkWorld (<[["m"; "train"; "a_mask.png"] := CPicture (Gray example_gray)]>
           (<[["m"; "train"; "a.jpg"] := CPicture (Color [[mkPx 1 2 3]]%Z)]> ∅))
    {[ ["m"]; ["m"; "train"]; ["o"]; ["o"; "train"]; ["o"; "train"; "labels"]; ["o"; "train"; "images"] ]}
    [] 0 None.

Lemma process_mask_file_spec_witness :
  exists txt,
    process_mask_file 64 ["m"; "train"] ["o"; "train"; "labels"] ["m"; "train"] ["o"; "train"; "images"]
      class_id_map "a_mask.png" mask_world =
      (set_files mask_world
         (<[app ["o"; "train"; "images"] [image_file_of "a_mask.png"] := CPicture (Color [[mkPx 1 2 3]]%Z)]>
           (<[app ["o"; "train"; "labels"] [label_file_of "a_mask.png"] := CText txt]>
              (w_files mask_world))), Ok tt) /\
    labels_spec 3 4 example_gray class_id_map txt.
Proof.
  apply (process_mask_file_spec 64 _ _ _ _ _ _ _ 3 4 example_gray);
    first [exact example_gray_wf | reflexivity | lia | discriminate].
Defined.

Definition masks_world : world :=
  mkWorld (<[["m"; "train"; "a_mask.png"] := CPicture (Gray example_gray)]>
           (<[["m"; "train"; "a.jpg"] := CPicture (Color [[mkPx 1 2 3]]%Z)]>
           (<[["m"; "valid"; "b_mask.png"] := CPicture (Gray example_gray)]> ∅)))
    {[ ["m"]; ["m"; "train"]; ["m"; "test"]; ["m"; "valid"] ]} [] 0 None.

Lemma process_all_masks_labels_witness :
  masks_run_ok 64 ["m"] ["o"] masks_world = true /\
  exists w', process_all_masks 64 ["m"] ["o"] class_id_map masks_world = (w', Ok tt) /\
    forall s n h wd g, In s splits -> py_endswith n "_mask.png" = true ->
      w_files masks_world !! app (app ["m"] [s]) [n] = Some (CPicture (Gray g)) -> grid_wf h wd g -> h <> 0 ->
      exists txt, w_files w' !! app (app ["o"] [s; "labels"]) [label_file_of n] = Some (CText txt) /\
        labels_spec h wd g class_id_map txt.
Proof.
  split; [vm_compute; reflexivity|].
  apply (process_all_masks_labels 64 ["m"] ["o"] class_id_map masks_world). vm_compute. reflexivity.
Defined.

(** Two masks whose label files collide: ["b.txt_mask.png"] and
    ["b_mask.png_mask.png"] both give ["b.txt.txt"]. *)
Definition collision_world : world :=
  mkWorld (<[["m"; "b.txt_mask.png"] := CPicture (Gray example_gray)]>
           (<[["m"; "b_mask.png_mask.png"] := CPicture (Gray [[0; 2]; [2; 0]]%Z)]> ∅))
    {[ ["m"]; ["o"]; ["o"; "l"]; ["o"; "i"] ]} [] 0 None.

Lemma label_collision_overwrites_witness :
  exists w', (do _ <- process_mask_file 64 ["m"] ["o"; "l"] ["m"] ["o"; "i"] class_id_map "b.txt_mask.png";
              process_mask_file 64 ["m"] ["o"; "l"] ["m"] ["o"; "i"] class_id_map "b_mask.png_mask.png")
      collision_world = (w', Ok tt) /\
    forall h wd g2, w_files collision_world !! app ["m"] ["b_mask.png_mask.png"] = Some (CPicture (Gray g2)) ->
      grid_wf h wd g2 -> h <> 0 ->
      exists txt, w_files w' !! app ["o"; "l"] [label_file_of "b.txt_mask.png"] = Some (CText txt) /\
        labels_spec h wd g2 class_id_map txt.
Proof.
  apply label_collision_overwrites; first [vm_compute; reflexivity | discriminate].
Defined.

(** A dataset whose [train] folder is missing. *)
Definition no_train_world : world :=
  mkWorld (<[["m"; "test"; "a_mask.png"] := CPicture (Gray example_gray)]> ∅)
    {[ ["m"]; ["m"; "test"] ]} [] 0 None.

Lemma process_all_masks_missing_split_witness :
  exists w', process_all_masks 64 ["m"] ["o"] class_id_map no_train_world =
      (w', Raise (FileNotFoundError (String.concat "\" (app ["m"] ["train"])))) /\
    w_files w' = w_files no_train_world /\
    w_dirs w' = list_to_set (prefixes (app ["o"] ["train"; "images"])) ∪
                (list_to_set (prefixes (app ["o"] ["train"; "labels"])) ∪ w_dirs no_train_world).
Proof.
  apply process_all_masks_missing_split; [intros [k Hk]; discriminate|intros [k Hk]; discriminate|
    vm_compute; reflexivity..].
Defined.

Lemma process_all_masks_images_witness :
  masks_run_ok 64 ["m"] ["o"] masks_world = true /\
  exists w', process_all_masks 64 ["m"] ["o"] class_id_map masks_world = (w', Ok tt) /\
    forall s n g pic, In s splits -> py_endswith n "_mask.png" = true ->
      w_files masks_world !! app (app ["m"] [s]) [n] = Some (CPicture (Gray g)) ->
      w_files masks_world !! app (app ["m"] [s]) [image_file_of n] = Some (CPicture pic) ->
      w_files w' !! app (app ["o"] [s; "images"]) [image_file_of n] = Some (CPicture pic).
Proof.
  split; [vm_compute; reflexivity|].
  apply (process_all_masks_images 64 ["m"] ["o"] class_id_map masks_world). vm_compute. reflexivity.
Defined.
